(** * Dynamic runner: a shallow embedding of the estimation engine

    The Python sources modelled here are
    - [core/caller/dynamic_engine.py]: [LtiGroup], [LinearKalmanFilter], the
      constructor of [NonlinearGroup] and the nonlinear engine [Nonlinear]
      with its EKF and UKF recursions;
    - [core/caller/scope_engine.py]: the recorder [Scope];
    - [blocks/general_blocks.py]: the plants [QuadrupleTank], [TwoTanks] and
      [Lorenz].

    NumPy arrays of rank two are lists of rows.  The scalar type is kept
    abstract behind the class [Scalar], so that every structural statement
    holds whatever the arithmetic is; two instances are given at the end of
    the definitions: IEEE binary64 (the kernel's primitive floats, which is
    what NumPy computes with) and the canonical rationals (exact arithmetic).
    The routines of [numpy.linalg] that the sources call ([inv], [cholesky])
    are the fields of the class [LinAlg].

    A call returns [Ok] with the object as the call leaves it, or [Raise]
    with the exception; what a call had already assigned when it raised is
    not kept.  Indexing and column assignment raise as NumPy does.  The
    products and the entrywise operations come in two forms: [dot], [madd]
    and [msub] are total, and stand where the statements give the operands
    their shapes; [matmul], [np_add], [np_subtract] and the operations on
    arrays that carry their shape ([Scope.ndarray]) raise [ValueError] as
    NumPy does on shapes that do not fit. *)

From Stdlib Require Import String ZArith QArith Qcanon Floats Uint63.
From Stdlib Require Import Bool Arith Lia List Permutation.
Import ListNotations.

Close Scope Qc_scope.
Close Scope Q_scope.
Close Scope Z_scope.
Open Scope nat_scope.

Set Implicit Arguments.
Set Warnings "-inexact-float".


(* ================================================================= *)
(** ** Python exceptions and the result of a call *)

Module Py.

Inductive exn : Type :=
| NameError (name : string)
| AttributeError (attr : string)
| IndexError
| ValueError
| LinAlgError.

Inductive res (A : Type) : Type :=
| Ok (a : A)
| Raise (e : exn).

Arguments Ok {A} a.
Arguments Raise {A} e.

Definition bind {A B : Type} (c : res A) (k : A -> res B) : res B :=
  match c with
  | Ok a => k a
  | Raise e => Raise e
  end.

(** Attribute or name lookup: a missing binding raises. *)
Definition lookup {A : Type} (e : exn) (o : option A) : res A :=
  match o with
  | Some a => Ok a
  | None => Raise e
  end.

End Py.

Import Py.

Notation "x <- c ;; k" := (Py.bind c (fun x => k))
  (at level 61, c at next level, right associativity).
Notation "' p <- c ;; k" := (Py.bind c (fun x => let p := x in k))
  (at level 61, p pattern, c at next level, right associativity).

(* ================================================================= *)
(** ** Scalars and the NumPy operations the sources use *)

Class Scalar (F : Type) : Type := {
  zero : F;
  one : F;
  add : F -> F -> F;
  sub : F -> F -> F;
  mul : F -> F -> F;
  div : F -> F -> F;
  opp : F -> F;
  sqrt : F -> F;
  (** [np.maximum] *)
  maximum : F -> F -> F;
  (** a Python integer read as a scalar *)
  of_Z : Z -> F;
  (** [np.isnan] *)
  isnan : F -> bool;
  (** truth value of a scalar, as [ndarray.all] reads it: [x != 0] *)
  truthy : F -> bool
}.

Definition matrix (F : Type) : Type := list (list F).

Class LinAlg (F : Type) : Type := {
  (** [np.linalg.inv]; raises [LinAlgError] on a singular matrix *)
  inv : matrix F -> res (matrix F);
  (** [np.linalg.cholesky]; raises [LinAlgError] when the matrix is not
      positive definite *)
  cholesky : matrix F -> res (matrix F)
}.

Section Numpy.

Context {F : Type} {SF : Scalar F}.

(** A decimal literal [n/d], e.g. [0.071] is [lit 71 1000]. *)
Definition lit (n d : Z) : F := div (of_Z n) (of_Z d).

Definition of_nat (n : nat) : F := of_Z (Z.of_nat n).

Fixpoint map2 {A B C : Type} (f : A -> B -> C) (l : list A) (l' : list B) : list C :=
  match l, l' with
  | a :: t, b :: t' => f a b :: map2 f t t'
  | _, _ => []
  end.

(** *** Shapes *)

Definition nrows (M : matrix F) : nat := length M.

Definition ncols (M : matrix F) : nat :=
  match M with
  | [] => 0
  | r :: _ => length r
  end.

(** [M] is an [r] by [c] array. *)
Definition shaped (r c : nat) (M : matrix F) : Prop :=
  length M = r /\ Forall (fun row => length row = c) M.

(** *** Constructors: [np.zeros], [np.eye], [np.diag] *)

Definition zeros (r c : nat) : matrix F := repeat (repeat zero c) r.

Definition basis (c i : nat) : list F :=
  map (fun j => if i =? j then one else zero) (seq 0 c).

Definition eye2 (r c : nat) : matrix F := map (basis c) (seq 0 r).

Definition eye (n : nat) : matrix F := eye2 n n.

Definition diag (v : list F) : matrix F :=
  map (fun i => map (fun j => if i =? j then nth i v zero else zero)
                    (seq 0 (length v)))
      (seq 0 (length v)).

(** *** Indexing *)

(** [M[i, j]] for indices in range *)
Definition entry (M : matrix F) (i j : nat) : res F :=
  match nth_error M i with
  | Some row => Py.lookup IndexError (nth_error row j)
  | None => Raise IndexError
  end.

(** [M[:, j]] as a flat vector (total reading used inside products) *)
Definition col (j : nat) (M : matrix F) : list F :=
  map (fun row => nth j row zero) M.

(** [M[:, j]] with NumPy's bounds check *)
Definition get_col (M : matrix F) (j : nat) : res (list F) :=
  if j <? ncols M then Ok (col j M) else Raise IndexError.

Fixpoint set_nth {A : Type} (n : nat) (x : A) (l : list A) : list A :=
  match l, n with
  | [], _ => []
  | _ :: t, O => x :: t
  | a :: t, S n' => a :: set_nth n' x t
  end.

(** [M[:, j] = v]: [IndexError] when [j] is out of bounds; a one-element
    [v] is broadcast; any other length mismatch is a [ValueError]. *)
Definition set_col (M : matrix F) (j : nat) (v : list F) : res (matrix F) :=
  if j <? ncols M then
    if length v =? nrows M then Ok (map2 (fun row x => set_nth j x row) M v)
    else match v with
         | [x] => Ok (map (set_nth j x) M)
         | _ => Raise ValueError
         end
  else Raise IndexError.

(** [v.reshape((-1, 1))] of a flat vector, and [M.flatten()] *)
Definition column (v : list F) : matrix F := map (fun x => [x]) v.

Definition flatten (M : matrix F) : list F := concat M.

(** *** Arithmetic *)

Definition transpose (M : matrix F) : matrix F :=
  map (fun j => col j M) (seq 0 (ncols M)).

(** The inner product, summed from the right down to a final zero.  The
    order in which NumPy adds the terms is its own; with rounding the two
    can differ in the last bit from three terms on. *)
Definition vdot (u v : list F) : F :=
  fold_right add zero (map2 mul u v).

(** [X.dot(Y)], [X @ Y] *)
Definition dot (X Y : matrix F) : matrix F :=
  map (fun row => map (fun j => vdot row (col j Y)) (seq 0 (ncols Y))) X.

Definition madd (X Y : matrix F) : matrix F := map2 (map2 add) X Y.

Definition msub (X Y : matrix F) : matrix F := map2 (map2 sub) X Y.

(** The same operations with NumPy's shape checks, for rank-two arrays of
    at least one row (the rows give the shape). *)

(** The length two axes broadcast to; [None] when they do not. *)
Definition broadcast_shape (a b : nat) : option nat :=
  if a =? b then Some a
  else if a =? 1 then Some b
  else if b =? 1 then Some a
  else None.

(** An axis of length [len] repeated to the length [k]. *)
Definition broadcast_to {A : Type} (len k : nat) (l : list A) : list A :=
  if len =? k then l
  else match l with
       | [x] => repeat x k
       | _ => l
       end.

(** [X op Y], entry by entry: [ValueError] when the shapes do not
    broadcast. *)
Definition np_entrywise (f : F -> F -> F) (X Y : matrix F) : res (matrix F) :=
  match broadcast_shape (nrows X) (nrows Y), broadcast_shape (ncols X) (ncols Y) with
  | Some r, Some c =>
      Ok (map2 (fun rx ry => map2 f (broadcast_to (ncols X) c rx)
                                    (broadcast_to (ncols Y) c ry))
               (broadcast_to (nrows X) r X) (broadcast_to (nrows Y) r Y))
  | _, _ => Raise ValueError
  end.

(** [X + Y] and [X - Y] *)
Definition np_add (X Y : matrix F) : res (matrix F) := np_entrywise add X Y.

Definition np_subtract (X Y : matrix F) : res (matrix F) := np_entrywise sub X Y.

(** [np.dot(X, Y)] and [X @ Y]: [ValueError] unless [X] has as many columns
    as [Y] has rows. *)
Definition matmul (X Y : matrix F) : res (matrix F) :=
  if ncols X =? nrows Y then Ok (dot X Y) else Raise ValueError.

Definition scale (a : F) (X : matrix F) : matrix F := map (map (mul a)) X.

(** [X + c] and [X - c] where [c] is a column, broadcast over the columns
    of [X] *)
Definition add_column (X c : matrix F) : matrix F :=
  map2 (fun row cr => map (fun x => add x (hd zero cr)) row) X c.

Definition sub_column (X c : matrix F) : matrix F :=
  map2 (fun row cr => map (fun x => sub x (hd zero cr)) row) X c.

(** [np.concatenate((X, Y), axis=1)] *)
Definition hcat (X Y : matrix F) : matrix F := map2 (@app F) X Y.

(** [u + v] for two rank-one arrays: equal lengths add entrywise, a
    one-element operand is broadcast, any other pair is a [ValueError]. *)
Definition add_flat (u v : list F) : res (list F) :=
  if length u =? length v then Ok (map2 add u v)
  else match u, v with
       | [x], _ => Ok (map (add x) v)
       | _, [y] => Ok (map (fun x => add x y) u)
       | _, _ => Raise ValueError
       end.

(** [np.any(np.isnan(v))] *)
Definition any_isnan (v : list F) : bool := existsb isnan v.

(** [np.array(M).all()] *)
Definition all_truthy (M : matrix F) : bool := forallb (forallb truthy) M.

(** [M] has an entry equal to zero; every entry of [M] differs from zero. *)
Definition has_zero (M : matrix F) : Prop :=
  exists row x, In row M /\ In x row /\ truthy x = false.

Definition all_nonzero (M : matrix F) : Prop :=
  forall row x, In row M -> In x row -> truthy x = true.

(** The laws of exact arithmetic under which a product with the identity
    matrix returns its operand: zero and one are neutral for the sum and the
    product, and zero absorbs the product.  IEEE arithmetic does not have
    them (zero times infinity is not-a-number); the comparison of the two
    filters does not assume them, it asks the products of its noise matrices
    with the identity to return them unchanged. *)
Record exact_arithmetic : Prop := {
  add_zero_l : forall x, add zero x = x;
  add_zero_r : forall x, add x zero = x;
  mul_zero_l : forall x, mul zero x = zero;
  mul_zero_r : forall x, mul x zero = zero;
  mul_one_l : forall x, mul one x = x;
  mul_one_r : forall x, mul x one = x
}.

End Numpy.

(* ================================================================= *)
(** ** The plant contract

    A plant is a subclass of [Nonlinear] that provides class attributes and
    the four methods [_dynamics], [_measurements], [_limitations] and
    [_jacobians].  An attribute that a plant may lack is an [option]: reading
    it when absent raises [AttributeError].  [_jacobians] receives
    [self.states] itself and may assign into it ([QuadrupleTank] does), so it
    returns the array as it leaves it; the other three methods are read as
    functions of their arguments. *)

Record Jacobians (F : Type) : Type := {
  jac_A : matrix F;
  jac_B : matrix F;
  jac_H : matrix F;
  jac_D : matrix F;
  jac_L : matrix F;
  jac_M : matrix F
}.

Record Plant (F : Type) : Type := {
  name : string;
  n_states : nat;
  n_inputs : nat;
  n_outputs : nat;
  time_type : string;
  solver_type : string;
  initial_states : list F;
  covariance : matrix F;
  q_matrix : option (matrix F);
  r_matrix : matrix F;
  kappa : F;
  alpha : F;
  num_states : option nat;
  _dynamics : matrix F -> matrix F -> nat -> F -> F -> res (matrix F);
  _measurements : matrix F -> matrix F -> nat -> F -> F -> res (matrix F);
  _limitations : matrix F -> nat -> res (matrix F);
  _jacobians : matrix F -> matrix F -> nat -> F -> F -> res (matrix F * Jacobians F)
}.

(** [SolverCore.dynamic_runner(handle_dyn, x_eval, x_base, dt, solver_type)],
    the base class of [Nonlinear]; its file is not part of the sources, so
    the engine takes it as a parameter. *)
Class SolverCore (F : Type) : Type := {
  dynamic_runner :
    (matrix F -> res (matrix F)) -> matrix F -> matrix F -> F -> string -> res (matrix F)
}.

(* ================================================================= *)
(** ** [class Nonlinear(SolverCore)] *)

Module Nonlinear.

(** The attributes [__init__] creates for [approach='ukf'].  [arrays] holds
    the ndarray objects allocated for the weights; [wm] and [wc] are
    references into it, so that two attributes bound to one array share its
    contents. *)
Record Ukf (F : Type) : Type := {
  n_ukf : nat;
  lambd : F;
  betta : F;
  arrays : list (list F);
  wm : nat;
  wc : nat
}.

(** The instance.  [inst_covariance] is the instance attribute [covariance],
    absent until the first assignment [self.covariance = Pm]; until then a
    read finds the class attribute of the plant. *)
Record t (F : Type) : Type := {
  plant : Plant F;
  time_line : list F;
  sample_time : F;
  n_steps : nat;
  self_solver_type : string;
  current_step : nat;
  inputs : matrix F;
  outputs : matrix F;
  states : matrix F;
  estimator : bool;
  est_approach : option string;
  inst_covariance : option (matrix F);
  ukf : option (Ukf F)
}.

(** The keyword arguments of [__init__]; [None] is an absent key. *)
Record kwargs (F : Type) : Type := {
  kw_initial : option (list F);
  kw_approach : option string;
  kw_solver : option string;
  kw_estimator : option bool
}.

Section Engine.

Context {F : Type} {SF : Scalar F} {LA : LinAlg F} {SC : SolverCore F}.

Definition self_covariance (e : t F) : matrix F :=
  match inst_covariance e with
  | Some P => P
  | None => covariance (plant e)
  end.

(** [np.mean(v)], summed from the left; NumPy sums pairwise from eight
    entries on, which with rounding can differ in the last bit. *)
Definition mean (v : list F) : F :=
  div (fold_left add v zero) (of_nat (length v)).

(** [self.wm[i, 0]] and [self.wc.flatten()] *)
Definition read_weight (u : Ukf F) (ref i : nat) : res F :=
  w <- Py.lookup IndexError (nth_error (arrays u) ref) ;;
  Py.lookup IndexError (nth_error w i).

Definition weights (u : Ukf F) (ref : nat) : res (list F) :=
  Py.lookup IndexError (nth_error (arrays u) ref).

(** Lines 927-935: the UKF branch of [__init__]. *)
Definition init_ukf (p : Plant F) : res (Ukf F) :=
  n <- Py.lookup (AttributeError "num_states") (num_states p) ;;
  let alpha2 := mul (alpha p) (alpha p) in
  let lam := sub (mul alpha2 (add (of_nat n) (kappa p))) (of_nat n) in
  let bet : F := of_Z 2 in
  (* self.wm = np.ones([2*n + 1, 1])/(2*(n + lambd)) *)
  let w := map (fun x => div x (mul (of_Z 2) (add (of_nat n) lam)))
               (repeat one (2 * n + 1)) in
  let heap := [w] in
  let wm_ref := 0 in
  (* self.wc = self.wm *)
  let wc_ref := wm_ref in
  (* self.wc[0,0] = self.wm[0,0] + (1 - np.power(self.alpha,2) + self.betta) *)
  wm_arr <- Py.lookup IndexError (nth_error heap wm_ref) ;;
  wm0 <- Py.lookup IndexError (nth_error wm_arr 0) ;;
  wc_arr <- Py.lookup IndexError (nth_error heap wc_ref) ;;
  let heap' := set_nth wc_ref (set_nth 0 (add wm0 (add (sub one alpha2) bet)) wc_arr) heap in
  Ok {| n_ukf := n; lambd := lam; betta := bet; arrays := heap'; wm := wm_ref; wc := wc_ref |}.

(** [Nonlinear.__init__(self, time_line, **kwargs)] *)
Definition __init__ (p : Plant F) (tl : list F) (kw : kwargs F) : res (t F) :=
  let N := length tl in
  (* np.mean(time_line[0, 1:-1] - time_line[0, 0:-2]) *)
  let st := mean (map2 sub (removelast (List.tl tl)) (removelast (removelast tl))) in
  states0 <- set_col (zeros (n_states p) (N + 1)) 0 (initial_states p) ;;
  states1 <- match kw_initial kw with
             | Some v => set_col states0 0 v
             | None => Ok states0
             end ;;
  let est_approach0 := match kw_approach kw with Some a => a | None => "ekf"%string end in
  let solver := match kw_solver kw with Some s => s | None => solver_type p end in
  (* if key == 'estimator': self.estimator = True *)
  let est := match kw_estimator kw with Some _ => true | None => false end in
  u <- (if est then
          if String.eqb est_approach0 "ekf" then Ok None
          else if String.eqb est_approach0 "ukf" then
                 (u <- init_ukf p ;; Ok (Some u))
               else Ok None
        else Ok None) ;;
  Ok {| plant := p;
        time_line := tl;
        sample_time := st;
        n_steps := N;
        self_solver_type := solver;
        current_step := 0;
        inputs := zeros (n_inputs p) N;
        outputs := zeros (n_outputs p) N;
        states := states1;
        estimator := est;
        est_approach := if est then Some est_approach0 else None;
        inst_covariance := None;
        ukf := u |}.

(** *** The estimator ticks *)

(** Assignment of a rank-two value into a rank-one slot of length [n]
    ([Xp[:, i] = value]): NumPy drops leading axes of length one, then
    broadcasts a single element; anything else is a [ValueError].  A rank-one
    array is read here as the one-row matrix. *)
Definition squeeze_to (n : nat) (V : matrix F) : res (list F) :=
  match V with
  | [row] =>
      if length row =? n then Ok row
      else match row with
           | [x] => Ok (repeat x n)
           | _ => Raise ValueError
           end
  | _ => Raise ValueError
  end.

(** [handle_dyn = lambda xx: self._dynamics(xx, self.inputs, k, st, t)] *)
Definition handle_dyn (p : Plant F) (inputs : matrix F) (k : nat) (st t : F)
  : matrix F -> res (matrix F) :=
  fun xx => _dynamics p xx inputs k st t.

(** What a tick has computed when it reaches the comment
    [# Posterior step]: the two history buffers after the recording of the
    arguments, the state history as the prediction leaves it, the Jacobians,
    the predicted state [xp] and the predicted covariance [Pp]. *)
Record Prediction : Type := {
  pr_inputs : matrix F;
  pr_outputs : matrix F;
  pr_states : matrix F;
  pr_jac : Jacobians F;
  pr_x : matrix F;
  pr_P : matrix F
}.

(** [## Update internal signals]: the last three statements of both ticks. *)
Definition store (e : t F) (inputs1 outputs1 states1 xm Pm : matrix F) : res (t F) :=
  states2 <- set_col states1 (current_step e + 1) (flatten xm) ;;
  Ok {| plant := plant e;
        time_line := time_line e;
        sample_time := sample_time e;
        n_steps := n_steps e;
        self_solver_type := self_solver_type e;
        current_step := current_step e + 1;
        inputs := inputs1;
        outputs := outputs1;
        states := states2;
        estimator := estimator e;
        est_approach := est_approach e;
        inst_covariance := Some Pm;
        ukf := ukf e |}.

(** Lines 1028-1070 of [__nextstepEKF]: recording and prediction. *)
Definition ekf_predict (e : t F) (input_signal output_signal : list F) : res Prediction :=
  let p := plant e in
  let k := current_step e in
  let st := sample_time e in
  current_time <- Py.lookup IndexError (nth_error (time_line e) k) ;;
  inputs1 <- set_col (inputs e) k input_signal ;;
  outputs1 <- set_col (outputs e) k output_signal ;;
  '(states1, J) <- _jacobians p (states e) inputs1 k st current_time ;;
  xm <- get_col states1 k ;;
  xv <- _limitations p states1 0 ;;
  xp <- (if String.eqb (time_type p) "c"
         then dynamic_runner (handle_dyn p inputs1 k st current_time)
                             xv (column xm) st (self_solver_type e)
         else handle_dyn p inputs1 k st current_time xv) ;;
  xp <- _limitations p xp 1 ;;
  let P := self_covariance e in
  Q <- Py.lookup (AttributeError "q_matrix") (q_matrix p) ;;
  let A := jac_A J in
  let L := jac_L J in
  Ok {| pr_inputs := inputs1; pr_outputs := outputs1; pr_states := states1;
        pr_jac := J; pr_x := xp;
        pr_P := madd (dot (dot A P) (transpose A)) (dot (dot L Q) (transpose L)) |}.

(** Lines 1072-1085: the posterior [(xm, Pm)] of the EKF. *)
Definition ekf_posterior (e : t F) (pr : Prediction) (output_signal : list F)
  : res (matrix F * matrix F) :=
  let y := column output_signal in
  let H := jac_H (pr_jac pr) in
  let M := jac_M (pr_jac pr) in
  let xp := pr_x pr in
  let Pp := pr_P pr in
  if negb (any_isnan output_signal) then
    Si <- inv (madd (dot (dot H Pp) (transpose H))
                    (dot (dot M (r_matrix (plant e))) (transpose M))) ;;
    let K := dot (dot Pp (transpose H)) Si in
    Ok (madd xp (dot K (msub y (dot H xp))),
        dot (msub (eye (nrows (self_covariance e))) (dot K H)) Pp)
  else Ok (xp, Pp).

(** Lines 1025-1090: [__nextstepEKF]. *)
Definition __nextstepEKF (e : t F) (input_signal output_signal : list F) : res (t F) :=
  pr <- ekf_predict e input_signal output_signal ;;
  '(xm, Pm) <- ekf_posterior e pr output_signal ;;
  store e (pr_inputs pr) (pr_outputs pr) (pr_states pr) xm Pm.

(** One pass of the first loop of [__nextstepUKF] (lines 1135-1160), on the
    triple [(self.states, xp, Xp)].  [changed_full_state] is [self.states]
    itself, so the assignment of the sigma point goes into the history; [xm]
    is a view of column [k] of the same array, so the base point handed to
    [dynamic_runner] is that column as it then stands. *)
Definition ukf_propagate (e : t F) (u : Ukf F) (inputs1 sp : matrix F) (t : F)
    (acc : matrix F * matrix F * matrix F) (i : nat)
  : res (matrix F * matrix F * matrix F) :=
  let p := plant e in
  let k := current_step e in
  let st := sample_time e in
  let '(sts, xp, Xp) := acc in
  sp_i <- get_col sp i ;;
  sts1 <- set_col sts k sp_i ;;
  xv <- _limitations p sts1 0 ;;
  v <- (if String.eqb (time_type p) "c"
        then r <- dynamic_runner (handle_dyn p inputs1 k st t)
                                 xv (column (col k sts1)) st (self_solver_type e) ;;
             Ok (flatten r)
        else r <- handle_dyn p inputs1 k st t xv ;;
             squeeze_to (n_states p) r) ;;
  Xp1 <- set_col Xp i v ;;
  lim <- _limitations p [col i Xp1] 1 ;;
  v1 <- squeeze_to (n_states p) lim ;;
  Xp2 <- set_col Xp1 i v1 ;;
  w <- read_weight u (wm u) i ;;
  Ok (sts1, madd xp (scale w (column (col i Xp2))), Xp2).

(** One pass of the second loop (lines 1180-1190), on [(self.states, zb, Zb)]. *)
Definition ukf_measure (e : t F) (u : Ukf F) (inputs1 Xp : matrix F) (t : F)
    (acc : matrix F * matrix F * matrix F) (i : nat)
  : res (matrix F * matrix F * matrix F) :=
  let p := plant e in
  let k := current_step e in
  let '(sts, zb, Zb) := acc in
  Xp_i <- get_col Xp i ;;
  sts1 <- set_col sts k Xp_i ;;
  z <- _measurements p sts1 inputs1 k (sample_time e) t ;;
  Zb1 <- set_col Zb i (flatten z) ;;
  w <- read_weight u (wm u) i ;;
  Ok (sts1, madd zb (scale w (column (col i Zb1))), Zb1).

(** [for i in range(0, n): acc = body(acc, i)] *)
Fixpoint for_range {A : Type} (body : A -> nat -> res A) (idx : list nat) (acc : A) : res A :=
  match idx with
  | [] => Ok acc
  | i :: rest => acc1 <- body acc i ;; for_range body rest acc1
  end.

(** What the UKF keeps besides the prediction for its update: the current
    time, the UKF attributes, the number of sigma points, the propagated
    sigma points [Xp], their deviations [dPp] and the flattened covariance
    weights. *)
Record SigmaSet : Type := {
  ss_time : F;
  ss_ukf : Ukf F;
  ss_n : nat;
  ss_Xp : matrix F;
  ss_dPp : matrix F;
  ss_wc : list F
}.

(** Lines 1104-1166 of [__nextstepUKF]: recording, sigma points and
    prediction. *)
Definition ukf_predict (e : t F) (input_signal output_signal : list F)
  : res (Prediction * SigmaSet) :=
  let p := plant e in
  let k := current_step e in
  let st := sample_time e in
  current_time <- Py.lookup IndexError (nth_error (time_line e) k) ;;
  inputs1 <- set_col (inputs e) k input_signal ;;
  outputs1 <- set_col (outputs e) k output_signal ;;
  '(states1, J) <- _jacobians p (states e) inputs1 k st current_time ;;
  xm <- get_col states1 k ;;
  let Pm := self_covariance e in
  u <- Py.lookup (AttributeError "n_ukf") (ukf e) ;;
  ch <- cholesky Pm ;;
  let dSigma := scale (sqrt (add (of_nat (n_ukf u)) (lambd u))) (transpose ch) in
  let xmCopy := map (fun x => repeat x (length xm)) xm in
  let sp := hcat (column xm) (hcat (madd xmCopy dSigma) (msub xmCopy dSigma)) in
  let nSpoints := ncols sp in
  '(states2, xp, Xp) <-
    for_range (ukf_propagate e u inputs1 sp current_time) (seq 0 nSpoints)
              (states1, zeros (n_states p) 1, zeros (n_states p) nSpoints) ;;
  let dPp := sub_column Xp xp in
  wc_flat <- weights u (wc u) ;;
  Q <- Py.lookup (AttributeError "q_matrix") (q_matrix p) ;;
  let L := jac_L J in
  Ok ({| pr_inputs := inputs1; pr_outputs := outputs1; pr_states := states2;
         pr_jac := J; pr_x := xp;
         pr_P := madd (dot (dot dPp (diag wc_flat)) (transpose dPp))
                      (dot (dot L Q) (transpose L)) |},
      {| ss_time := current_time; ss_ukf := u; ss_n := nSpoints;
         ss_Xp := Xp; ss_dPp := dPp; ss_wc := wc_flat |}).

(** Lines 1175-1212: the posterior [(self.states, xm, Pm)] of the UKF; the
    second loop writes the propagated sigma points into the history too. *)
Definition ukf_posterior (e : t F) (pr : Prediction) (ss : SigmaSet)
    (output_signal : list F) : res (matrix F * matrix F * matrix F) :=
  let p := plant e in
  let y := column output_signal in
  let M := jac_M (pr_jac pr) in
  let xp := pr_x pr in
  let Pp := pr_P pr in
  if negb (any_isnan output_signal) then
    '(states3, zb, Zb) <-
      for_range (ukf_measure e (ss_ukf ss) (pr_inputs pr) (ss_Xp ss) (ss_time ss))
                (seq 0 (ss_n ss))
                (pr_states pr, zeros (n_outputs p) 1, zeros (n_outputs p) (ss_n ss)) ;;
    let dSt := sub_column Zb zb in
    let St := madd (dot (dot dSt (diag (ss_wc ss))) (transpose dSt))
                   (dot (dot M (r_matrix p)) (transpose M)) in
    let SiG := dot (dot (ss_dPp ss) (diag (ss_wc ss))) (transpose dSt) in
    Si <- inv St ;;
    let K := dot SiG Si in
    Ok (states3, madd xp (dot K (msub y zb)), msub Pp (dot K (transpose SiG)))
  else Ok (pr_states pr, xp, Pp).

(** Lines 1093-1217: [__nextstepUKF]. *)
Definition __nextstepUKF (e : t F) (input_signal output_signal : list F) : res (t F) :=
  '(pr, ss) <- ukf_predict e input_signal output_signal ;;
  '(states3, xm, Pm) <- ukf_posterior e pr ss output_signal ;;
  store e (pr_inputs pr) (pr_outputs pr) states3 xm Pm.

(** Lines 1004-1022: [estimate]. *)
Definition estimate (e : t F) (input_signal output_signal : list F) : res (t F) :=
  if negb (estimator e) then Ok e
  else
    a <- Py.lookup (AttributeError "est_approach") (est_approach e) ;;
    if String.eqb a "ekf" then __nextstepEKF e input_signal output_signal
    else if String.eqb a "ukf" then __nextstepUKF e input_signal output_signal
    else Ok e.

(** The default [np.array([0])] of [x_noise] and [y_noise], flattened. *)
Definition no_noise : list F := [of_Z 0].

(** Lines 939-999: [__call__(input_signal, x_noise, y_noise)], the three
    arguments flattened.  On an estimator the call returns at once. *)
Definition __call__ (e : t F) (input_signal x_noise y_noise : list F) : res (t F) :=
  if estimator e then Ok e
  else
    let p := plant e in
    let k := current_step e in
    let st := sample_time e in
    current_time <- Py.lookup IndexError (nth_error (time_line e) k) ;;
    inputs1 <- set_col (inputs e) k input_signal ;;
    xv <- _limitations p (states e) 0 ;;
    xo <- get_col (states e) k ;;
    x <- (if String.eqb (time_type p) "c"
          then dynamic_runner (handle_dyn p inputs1 k st current_time)
                              xv (column xo) st (self_solver_type e)
          else handle_dyn p inputs1 k st current_time xv) ;;
    x <- _limitations p x 1 ;;
    y <- _measurements p (states e) inputs1 k st current_time ;;
    xs <- add_flat (flatten x) x_noise ;;
    states1 <- set_col (states e) (k + 1) xs ;;
    ys <- add_flat (flatten y) y_noise ;;
    outputs1 <- set_col (outputs e) k ys ;;
    Ok {| plant := p;
          time_line := time_line e;
          sample_time := st;
          n_steps := n_steps e;
          self_solver_type := self_solver_type e;
          current_step := k + 1;
          inputs := inputs1;
          outputs := outputs1;
          states := states1;
          estimator := estimator e;
          est_approach := est_approach e;
          inst_covariance := inst_covariance e;
          ukf := ukf e |}.

(** Lines 1237-1246: [reset]. *)
Definition reset (e : t F) : t F :=
  {| plant := plant e;
     time_line := time_line e;
     sample_time := sample_time e;
     n_steps := n_steps e;
     self_solver_type := self_solver_type e;
     current_step := 0;
     inputs := inputs e;
     outputs := outputs e;
     states := states e;
     estimator := estimator e;
     est_approach := est_approach e;
     inst_covariance := inst_covariance e;
     ukf := ukf e |}.

(** A run: one [estimate] call per pair of input and output. *)
Fixpoint run (e : t F) (ticks : list (list F * list F)) : res (t F) :=
  match ticks with
  | [] => Ok e
  | (u, y) :: rest => e1 <- estimate e u y ;; run e1 rest
  end.

(** A simulation: one [__call__] per triple of input, state noise and
    output noise. *)
Fixpoint simulate (e : t F) (ticks : list (list F * list F * list F)) : res (t F) :=
  match ticks with
  | [] => Ok e
  | (u, nx, ny) :: rest => e1 <- __call__ e u nx ny ;; simulate e1 rest
  end.

End Engine.

End Nonlinear.

(* ================================================================= *)
(** ** [class LtiGroup] and [class LinearKalmanFilter] *)

Module LtiGroup.

(** The attributes the statements below read.  The delay buffer, the state
    and output vectors and the name are left out: with the default keyword
    arguments their construction cannot fail and nothing below reads them. *)
Record t (F : Type) : Type := {
  A : matrix F;
  B : matrix F;
  C : matrix F;
  D : matrix F;
  n_states : nat;
  n_inputs : nat;
  n_outputs : nat;
  Q : matrix F;
  R : matrix F;
  Q_ch : matrix F;
  R_ch : matrix F
}.

Section Init.

Context {F : Type} {SF : Scalar F} {LA : LinAlg F}.

(** [M.any() != 0] *)
Definition any_truthy (M : matrix F) : bool := existsb (existsb truthy) M.

(** Lines 74-81 and 105-122 of [__init__], for [inserted_system] a tuple or
    a list [(A, B, C, D)] and the keyword arguments [process_noise] and
    [measurement_noise]. *)
Definition __init__ (inserted_system : matrix F * matrix F * matrix F * matrix F)
    (process_noise measurement_noise : option (matrix F)) : res (t F) :=
  let '(sA, sB, sC, sD) := inserted_system in
  let system_D :=
    if negb (all_truthy sD) then zeros (nrows sC) (ncols sB) else sD in
  let n := nrows sA in
  let m := nrows sC in
  let q := match process_noise with Some q => q | None => zeros n n end in
  let r := match measurement_noise with Some r => r | None => zeros m m end in
  q_ch <- (if any_truthy q then cholesky q else Ok q) ;;
  r_ch <- (if any_truthy r then cholesky r else Ok r) ;;
  Ok {| A := sA; B := sB; C := sC; D := system_D;
        n_states := n; n_inputs := ncols sB; n_outputs := m;
        Q := q; R := r; Q_ch := q_ch; R_ch := r_ch |}.

End Init.

End LtiGroup.

Module LinearKalmanFilter.

(** The attributes of the filter ([self.__dict__] without [backup]). *)
Record attrs (F : Type) : Type := {
  A : matrix F;
  B : matrix F;
  C : matrix F;
  D : matrix F;
  Q : matrix F;
  R : matrix F;
  n_states : nat;
  n_inputs : nat;
  n_outputs : nat;
  x_pr : matrix F;
  x_ps : matrix F;
  res_ : matrix F;
  K : matrix F;
  P_pr : matrix F;
  P_ps : matrix F
}.

(** The instance: its attributes and [self.backup], the copy of the
    attribute dictionary taken at the end of [__init__].  The copy is
    shallow, and no method assigns into an array it holds (each call rebinds
    the attributes to fresh arrays), so the backup keeps the values. *)
Record t (F : Type) : Type := {
  self : attrs F;
  backup : attrs F
}.

(** [inserted_system]: a tuple [(A, B, C, D)], or an object with these
    attributes and [Q], [R] (an [LtiGroup]). *)
Inductive system (F : Type) : Type :=
| Tuple (sA sB sC sD : matrix F)
| Group (g : LtiGroup.t F).

Record kwargs (F : Type) : Type := {
  x_0 : option (list F);
  P_0 : option (matrix F);
  process_noise : option (matrix F);
  measurement_noise : option (matrix F)
}.

Section Filter.

Context {F : Type} {SF : Scalar F} {LA : LinAlg F}.

(** The matrices [C], [B] and [D] as the caller supplied them. *)
Definition given_B (sys : system F) : matrix F :=
  match sys with
  | Tuple _ sB _ _ => sB
  | Group g => LtiGroup.B g
  end.

Definition given_C (sys : system F) : matrix F :=
  match sys with
  | Tuple _ _ sC _ => sC
  | Group g => LtiGroup.C g
  end.

Definition given_D (sys : system F) : matrix F :=
  match sys with
  | Tuple _ _ _ sD => sD
  | Group g => LtiGroup.D g
  end.

(** [if sum(M.shape) == 2*n: target = M], for a rank-two keyword value; the
    default [[0]] has shape [(1,)], whose sum is 1. *)
Definition override (n : nat) (given : option (matrix F)) (default : matrix F) : matrix F :=
  match given with
  | Some M => if nrows M + ncols M =? 2 * n then M else default
  | None => default
  end.

(** Lines 258-348: [__init__]. *)
Definition __init__ (inserted_system : system F) (kw : kwargs F) : t F :=
  let '(sA, sB, sC, sD, q0, r0) :=
    match inserted_system with
    | Tuple sA sB sC sD =>
        (sA, sB, sC, sD,
         map (map (fun x => mul x (lit 1 10000))) (eye2 (nrows sA) (nrows sA)),
         map (map (fun x => mul x (lit 1 10000))) (eye2 (nrows sC) (nrows sC)))
    | Group g =>
        (LtiGroup.A g, LtiGroup.B g, LtiGroup.C g, LtiGroup.D g,
         LtiGroup.Q g, LtiGroup.R g)
    end in
  let system_D :=
    if negb (all_truthy sD) then zeros (nrows sC) (ncols sB) else sD in
  let n := nrows sA in
  let m := nrows sC in
  let x_ps0 :=
    match x_0 kw with
    | Some v => if length v =? n then column v else zeros n 1
    | None => if 1 =? n then column [zero] else zeros n 1
    end in
  let P_ps0 :=
    override n (P_0 kw) (map (map (fun x => mul x (of_Z 1000))) (eye2 n n)) in
  let a :=
    {| A := sA; B := sB; C := sC; D := system_D;
       Q := override n (process_noise kw) q0;
       R := override m (measurement_noise kw) r0;
       n_states := n; n_inputs := ncols sB; n_outputs := m;
       x_pr := zeros n 1;
       x_ps := x_ps0;
       res_ := zeros m 1;
       K := zeros n m;
       P_pr := eye2 n n;
       P_ps := P_ps0 |} in
  {| self := a; backup := a |}.

(** Lines 375-401: [__call__], operation by operation in the order Python
    evaluates them. *)
Definition __call__ (f : t F) (inputs outputs : list F) : res (t F) :=
  let s := self f in
  ax <- matmul (A s) (x_ps s) ;;
  bu <- matmul (B s) (column inputs) ;;
  x_pr1 <- np_add ax bu ;;
  ap <- matmul (A s) (P_ps s) ;;
  apa <- matmul ap (transpose (A s)) ;;
  P_pr1 <- np_add apa (Q s) ;;
  pc <- matmul P_pr1 (transpose (C s)) ;;
  cp <- matmul (C s) P_pr1 ;;
  cpc <- matmul cp (transpose (C s)) ;;
  S <- np_add cpc (R s) ;;
  Si <- inv S ;;
  K1 <- matmul pc Si ;;
  cx <- matmul (C s) x_pr1 ;;
  res1 <- np_subtract (column outputs) cx ;;
  kr <- matmul K1 res1 ;;
  x_ps1 <- np_add x_pr1 kr ;;
  kc <- matmul K1 (C s) ;;
  ikc <- np_subtract (eye (n_states s)) kc ;;
  P_ps1 <- matmul ikc P_pr1 ;;
  Ok {| self :=
          {| A := A s; B := B s; C := C s; D := D s; Q := Q s; R := R s;
             n_states := n_states s; n_inputs := n_inputs s;
             n_outputs := n_outputs s;
             x_pr := x_pr1; x_ps := x_ps1; res_ := res1; K := K1;
             P_pr := P_pr1; P_ps := P_ps1 |};
        backup := backup f |}.

(** The recursion in the words of the specification: predict
    [x_pr = A x_ps + B u], [P_pr = A P_ps A^T + Q]; gain
    [K = P_pr C^T (C P_pr C^T + R)^-1]; residual [r = y - C x_pr]; update
    [x_ps = x_pr + K r], [P_ps = (I - K C) P_pr]. *)
Definition closed_form (f : t F) (u y : list F) : res (t F) :=
  let s := self f in
  let x_pr1 := madd (dot (A s) (x_ps s)) (dot (B s) (column u)) in
  let P_pr1 := madd (dot (dot (A s) (P_ps s)) (transpose (A s))) (Q s) in
  Si <- inv (madd (dot (dot (C s) P_pr1) (transpose (C s))) (R s)) ;;
  let K1 := dot (dot P_pr1 (transpose (C s))) Si in
  let r := msub (column y) (dot (C s) x_pr1) in
  Ok {| self :=
          {| A := A s; B := B s; C := C s; D := D s; Q := Q s; R := R s;
             n_states := n_states s; n_inputs := n_inputs s;
             n_outputs := n_outputs s;
             x_pr := x_pr1; x_ps := madd x_pr1 (dot K1 r); res_ := r; K := K1;
             P_pr := P_pr1;
             P_ps := dot (msub (eye (n_states s)) (dot K1 (C s))) P_pr1 |};
        backup := backup f |}.

(** A filter for [n] states, [m] inputs and [l] outputs that holds arrays
    of these sizes, and an input and an output of these sizes. *)
Definition fits (n m l : nat) (f : t F) (u y : list F) : Prop :=
  let s := self f in
  0 < n /\ 0 < m /\ 0 < l /\
  shaped n n (A s) /\ shaped n m (B s) /\ shaped l n (C s) /\
  shaped n n (Q s) /\ shaped l l (R s) /\
  shaped n 1 (x_ps s) /\ shaped n n (P_ps s) /\
  n_states s = n /\ length u = m /\ length y = l.

(** Lines 423-436: [reset]. *)
Definition reset (f : t F) : t F :=
  {| self := backup f; backup := backup f |}.

Fixpoint run (f : t F) (ticks : list (list F * list F)) : res (t F) :=
  match ticks with
  | [] => Ok f
  | (u, y) :: rest => f1 <- __call__ f u y ;; run f1 rest
  end.

End Filter.

End LinearKalmanFilter.

(* ================================================================= *)
(** ** [class Scope]

    The constructor branches on [initial.shape], which NumPy keeps even for
    an array without rows, so the arrays of a scope carry their shape. *)

Module Scope.

Record ndarray (F : Type) : Type := {
  shape : nat * nat;
  data : matrix F
}.

Record t (F : Type) : Type := {
  time_line : ndarray F;
  n_signals : nat;
  signals : ndarray F;
  current_step : nat;
  n : nat
}.

(** The second argument of [append]: one scope, or a tuple or list of them. *)
Inductive others (F : Type) : Type :=
| One (other : t F)
| Many (scopes : list (t F)).

Section Recorder.

Context {F : Type} {SF : Scalar F}.

(** The data agree with the shape. *)
Definition wf_array (a : ndarray F) : Prop :=
  shaped (fst (shape a)) (snd (shape a)) (data a).

Definition size (a : ndarray F) : nat := fst (shape a) * snd (shape a).

(** [np.zeros([r, c])] and [a + 1] *)
Definition np_zeros (r c : nat) : ndarray F :=
  {| shape := (r, c); data := zeros r c |}.

Definition plus_one (a : ndarray F) : ndarray F :=
  {| shape := shape a; data := map (map (fun x => add x one)) (data a) |}.

(** [np.reshape(a, (1, -1))] and [np.reshape(a, (-1, 1))] *)
Definition as_row (a : ndarray F) : ndarray F :=
  {| shape := (1, size a); data := [flatten (data a)] |}.

Definition as_column (a : ndarray F) : ndarray F :=
  {| shape := (size a, 1); data := column (flatten (data a)) |}.

(** [c * a] for a column [c] of shape [(p, 1)] and [a] of shape [(r, w)]:
    the two broadcast when [p = r], [p = 1] or [r = 1]. *)
Definition column_times (c a : ndarray F) : res (ndarray F) :=
  let p := fst (shape c) in
  let '(r, w) := shape a in
  if p =? r then
    Ok {| shape := (r, w);
          data := map2 (fun cr row => map (mul (hd zero cr)) row) (data c) (data a) |}
  else if p =? 1 then
    Ok {| shape := (r, w);
          data := map (map (mul (hd zero (hd [] (data c))))) (data a) |}
  else if r =? 1 then
    Ok {| shape := (p, w);
          data := map (fun cr => map (mul (hd zero cr)) (hd [] (data a))) (data c) |}
  else Raise ValueError.

(** An index into an axis of length [len]; a negative index counts from the
    end. *)
Definition norm_index (len : nat) (i : Z) : res nat :=
  if ((0 <=? i) && (i <? Z.of_nat len))%Z then Ok (Z.to_nat i)
  else if ((Z.opp (Z.of_nat len) <=? i) && (i <? 0))%Z then Ok (Z.to_nat (i + Z.of_nat len))
  else Raise IndexError.

Fixpoint pick_rows (M : matrix F) (len : nat) (rows : list Z) : res (matrix F) :=
  match rows with
  | [] => Ok []
  | i :: rest =>
      j <- norm_index len i ;;
      picked <- pick_rows M len rest ;;
      Ok (nth j M [] :: picked)
  end.

(** [a[rows]] and [a[rows, :]] for a list of row indices *)
Definition take (a : ndarray F) (rows : list Z) : res (ndarray F) :=
  d <- pick_rows (data a) (fst (shape a)) rows ;;
  Ok {| shape := (length rows, snd (shape a)); data := d |}.

(** [np.concatenate((a, b), axis=0)] *)
Definition concatenate (a b : ndarray F) : res (ndarray F) :=
  if snd (shape a) =? snd (shape b) then
    Ok {| shape := (fst (shape a) + fst (shape b), snd (shape a));
          data := data a ++ data b |}
  else Raise ValueError.

(** Lines 21-100: [__init__] called as
    [Scope(time_line=..., n_signals=..., initial=...)] with a rank-two
    [initial], the form every method of the class uses. *)
Definition __init__ (time_line0 : ndarray F) (n_signals0 : nat) (initial : ndarray F)
  : res (t F) :=
  let tl := as_row time_line0 in
  let T := size tl in
  let signals0 := np_zeros n_signals0 T in
  let inish := shape initial in
  let total := fst inish + snd inish in
  '(sig, ns) <-
    (if (total =? n_signals0) || (total =? n_signals0 + 1) then
       s <- column_times (as_column initial) (plus_one signals0) ;;
       Ok (s, n_signals0)
     else if negb (total =? 1) && negb (total =? 2) then
       if ((fst inish =? n_signals0) && (snd inish =? T))
          || (T =? 1) || (T =? snd inish)
       then Ok (initial, fst inish)
       else Raise ValueError
     else Ok (signals0, n_signals0)) ;;
  Ok {| time_line := tl; n_signals := ns; signals := sig;
        current_step := 0; n := T |}.

(** Lines 270-314: [append(other, select)]; [select] is [None] for the
    default [False] and [Some rows] for a list of row indices. *)
Definition append (s : t F) (other : others F) (select : option (list Z)) : res (t F) :=
  '(n_signals1, initial) <-
    match other with
    | One o =>
        match select with
        | None =>
            i <- concatenate (signals s) (signals o) ;;
            Ok (n_signals s + n_signals o, i)
        | Some rows =>
            a <- take (signals s) rows ;;
            b <- take (signals o) rows ;;
            i <- concatenate a b ;;
            Ok (2 * length rows, i)
        end
    | Many scopes =>
        match select with
        | None =>
            fold_left
              (fun acc sc =>
                 '(k, i) <- acc ;;
                 i1 <- concatenate i (signals sc) ;;
                 Ok (k + n_signals sc, i1))
              scopes (Ok (n_signals s, signals s))
        | Some rows =>
            a <- take (signals s) rows ;;
            fold_left
              (fun acc sc =>
                 '(k, i) <- acc ;;
                 b <- take (signals sc) rows ;;
                 i1 <- concatenate i b ;;
                 Ok (k + length rows, i1))
              scopes (Ok (length rows, a))
        end
    end ;;
  __init__ (time_line s) n_signals1 initial.

(** Lines 335-350: [select(rows_to_select)]. *)
Definition select (s : t F) (rows_to_select : list Z) : res (t F) :=
  sig <- take (signals s) rows_to_select ;;
  __init__ (time_line s) (length rows_to_select) sig.

(** Lines 258-267: [reset]. *)
Definition reset (s : t F) : t F :=
  {| time_line := time_line s; n_signals := n_signals s; signals := signals s;
     current_step := 0; n := n s |}.

(** A scope whose signal array has one row per signal and one column per
    instant of its time line. *)
Definition wf (s : t F) : Prop :=
  wf_array (signals s) /\
  fst (shape (signals s)) = n_signals s /\
  snd (shape (signals s)) = size (time_line s).

(** An index NumPy accepts for an axis of length [len]. *)
Definition valid_index (len : nat) (i : Z) : Prop :=
  (- Z.of_nat len <= i < Z.of_nat len)%Z.

(** [a[:, j] = v]: [IndexError] when [j] is not a column of [a]; a
    one-element [v] is broadcast; any other length mismatch is a
    [ValueError]. *)
Definition assign_column (a : ndarray F) (j : nat) (v : list F) : res (ndarray F) :=
  if j <? snd (shape a) then
    if length v =? fst (shape a) then
      Ok {| shape := shape a; data := map2 (fun row x => set_nth j x row) (data a) v |}
    else match v with
         | [x] => Ok {| shape := shape a; data := map (set_nth j x) (data a) |}
         | _ => Raise ValueError
         end
  else Raise IndexError.

(** Lines 103-132: [get(data, noise=...)].  [data_] is the flattened
    argument and [noise_signal] the flattened sample that
    [np.random.normal(0, add_noise_var, [self.n_signals, 1])] returned. *)
Definition get (s : t F) (data_ noise_signal : list F) : res (t F) :=
  v <- add_flat data_ noise_signal ;;
  sig <- assign_column (signals s) (current_step s) v ;;
  Ok {| time_line := time_line s; n_signals := n_signals s; signals := sig;
        current_step := current_step s + 1; n := n s |}.

(** A recording: one [get] per pair of sample and noise. *)
Fixpoint record (s : t F) (samples : list (list F * list F)) : res (t F) :=
  match samples with
  | [] => Ok s
  | (d, w) :: rest => s1 <- get s d w ;; record s1 rest
  end.

(** The length two axes broadcast to; [None] when they do not. *)
Definition broadcast_axis (a b : nat) : option nat :=
  if a =? b then Some a
  else if a =? 1 then Some b
  else if b =? 1 then Some a
  else None.

(** An axis of length [len] stretched to length [k]. *)
Definition stretch {A : Type} (len k : nat) (l : list A) : list A :=
  if len =? k then l
  else match l with
       | [x] => repeat x k
       | _ => l
       end.

(** [a op b] for two rank-two arrays. *)
Definition broadcast2 (f : F -> F -> F) (a b : ndarray F) : res (ndarray F) :=
  match broadcast_axis (fst (shape a)) (fst (shape b)),
        broadcast_axis (snd (shape a)) (snd (shape b)) with
  | Some r, Some c =>
      Ok {| shape := (r, c);
            data := map2 (fun ra rb => map2 f (stretch (snd (shape a)) c ra)
                                              (stretch (snd (shape b)) c rb))
                         (stretch (fst (shape a)) r (data a))
                         (stretch (fst (shape b)) r (data b)) |}
  | _, _ => Raise ValueError
  end.

(** Lines 168-201: [__add__], [__sub__], [__mul__] and [__truediv__] with a
    scope as the other operand. *)
Definition arithmetic (f : F -> F -> F) (s other : t F) : res (t F) :=
  sig <- broadcast2 f (signals s) (signals other) ;;
  __init__ (time_line s) (n_signals s) sig.

Definition __add__ (s other : t F) : res (t F) := arithmetic add s other.

Definition __sub__ (s other : t F) : res (t F) := arithmetic sub s other.

Definition __mul__ (s other : t F) : res (t F) := arithmetic mul s other.

Definition __truediv__ (s other : t F) : res (t F) := arithmetic div s other.

(** The rows a list of indices denotes; [IndexError] at the first index
    out of range. *)
Fixpoint norm_indices (len : nat) (rows : list Z) : res (list nat) :=
  match rows with
  | [] => Ok []
  | i :: rest =>
      j <- norm_index len i ;;
      js <- norm_indices len rest ;;
      Ok (j :: js)
  end.

(** [np.delete(a, rows, axis=0)]: the rows of [a] that no index denotes,
    in their order. *)
Definition np_delete (a : ndarray F) (rows : list Z) : res (ndarray F) :=
  js <- norm_indices (fst (shape a)) rows ;;
  let keep := filter (fun i => negb (existsb (Nat.eqb i) js)) (seq 0 (fst (shape a))) in
  Ok {| shape := (length keep, snd (shape a));
        data := map (fun i => nth i (data a) []) keep |}.

(** Lines 317-332: [remove(rows_to_remove)] for a list of row indices.
    [n_signals] is the difference of two Python integers; below zero,
    [np.zeros] refuses it. *)
Definition remove (s : t F) (rows_to_remove : list Z) : res (t F) :=
  sig <- np_delete (signals s) rows_to_remove ;;
  if n_signals s <? length rows_to_remove then Raise ValueError
  else __init__ (time_line s) (n_signals s - length rows_to_remove) sig.

(** [np.roll(row, shift)] along an axis of length [len]: the entry at [j]
    moves to [(j + shift) mod len]. *)
Definition roll_row (len : nat) (shift : Z) (row : list F) : list F :=
  let offset := Z.to_nat (shift mod Z.of_nat (if len =? 0 then 1 else len)) in
  skipn (len - offset) row ++ firstn (len - offset) row.

(** [np.roll(a, shift, axis=1)] *)
Definition np_roll (a : ndarray F) (shift : Z) : ndarray F :=
  {| shape := shape a; data := map (roll_row (snd (shape a)) shift) (data a) |}.

(** Lines 352-365: [roll(shift_value)]. *)
Definition roll (s : t F) (shift_value : Z) : res (t F) :=
  __init__ (time_line s) (n_signals s) (np_roll (signals s) shift_value).

End Recorder.

End Scope.

(* ================================================================= *)
(** ** [class LtiGroup]: the object and its calls *)

Module LtiGroupObject.

(** An argument that may be a Python number, a flat list or a rank-two
    array. *)
Inductive operand (F : Type) : Type :=
| Number (c : F)
| Flat (v : list F)
| Array (a : Scope.ndarray F).

(** The object: the matrices and noise attributes of [LtiGroup.t], and what
    [__call__] works on.  [inputs] lists the slices [self.inputs[:, :, j]]
    for [j] from [0] to [delay]. *)
Record t (F : Type) : Type := {
  system : LtiGroup.t F;
  number_ltis : nat;
  delay : nat;
  newest : bool;
  auto_inject_noise : bool;
  inputs : list (Scope.ndarray F);
  states : Scope.ndarray F;
  outputs : Scope.ndarray F
}.

(** The arguments of one call; [randn_x] and [randn_y] are the samples that
    [np.random.randn(self.n_states, 1)] and
    [np.random.randn(self.n_outputs, 1)] return when the call draws them. *)
Record call (F : Type) : Type := {
  input_signal : list F;
  x_noise : operand F;
  y_noise : operand F;
  randn_x : list F;
  randn_y : list F
}.

Section Object.

Context {F : Type} {SF : Scalar F} {LA : LinAlg F}.

(** The rows of [v.reshape((r, c))] *)
Fixpoint chunks (r c : nat) (v : list F) : matrix F :=
  match r with
  | 0 => []
  | S r' => firstn c v :: chunks r' c (skipn c v)
  end.

(** [np.array(v).reshape((r, c))] of the flattened [v] *)
Definition reshape (v : list F) (r c : nat) : res (Scope.ndarray F) :=
  if length v =? r * c then
    Ok {| Scope.shape := (r, c); Scope.data := chunks r c v |}
  else Raise ValueError.

(** [np.dot(X, a)] and [X @ a] for a matrix [X] and a rank-two array [a] *)
Definition np_dot (X : matrix F) (a : Scope.ndarray F) : res (Scope.ndarray F) :=
  if ncols X =? fst (Scope.shape a) then
    Ok {| Scope.shape := (nrows X, snd (Scope.shape a));
          Scope.data :=
            map (fun row => map (fun j => vdot row (col j (Scope.data a)))
                                (seq 0 (snd (Scope.shape a)))) X |}
  else Raise ValueError.

(** [x += b] for two rank-two arrays: the sum has to keep the shape of [x]. *)
Definition iadd_array (x b : Scope.ndarray F) : res (Scope.ndarray F) :=
  y <- Scope.broadcast2 add x b ;;
  if (fst (Scope.shape y) =? fst (Scope.shape x))
     && (snd (Scope.shape y) =? snd (Scope.shape x))
  then Ok y else Raise ValueError.

(** [x += z] *)
Definition iadd (x : Scope.ndarray F) (z : operand F) : res (Scope.ndarray F) :=
  match z with
  | Number c =>
      Ok {| Scope.shape := Scope.shape x;
            Scope.data := map (map (fun v => add v c)) (Scope.data x) |}
  | Flat v => iadd_array x {| Scope.shape := (1, length v); Scope.data := [v] |}
  | Array b => iadd_array x b
  end.

(** [np.reshape(np.array(initial), (-1, 1))] *)
Definition as_column (initial : operand F) : Scope.ndarray F :=
  match initial with
  | Number c => {| Scope.shape := (1, 1); Scope.data := [[c]] |}
  | Flat v => {| Scope.shape := (length v, 1); Scope.data := column v |}
  | Array a => Scope.as_column a
  end.

(** Lines 19-143: [__init__] for a tuple or list [(A, B, C, D)]; the
    keyword arguments are [process_noise], [measurement_noise], [initial]
    (default [[0]]), [delay] (default [0]), [replicate] (default [1]),
    [newest] (default [False]) and [auto_noise] (default [True]). *)
Definition __init__ (inserted_system : matrix F * matrix F * matrix F * matrix F)
    (process_noise measurement_noise : option (matrix F)) (initial : operand F)
    (time_delay n_systems : nat) (newest0 auto_noise : bool) : res (t F) :=
  s <- LtiGroup.__init__ inserted_system process_noise measurement_noise ;;
  let n := LtiGroup.n_states s in
  let states0 := Scope.np_zeros n n_systems in
  let total := match initial with
               | Number _ => 0
               | Flat v => length v
               | Array a => fst (Scope.shape a) + snd (Scope.shape a)
               end in
  let size := match initial with
              | Number _ => 1
              | Flat v => length v
              | Array a => Scope.size a
              end in
  let rank_zero := match initial with Number _ => true | _ => false end in
  st <- (if (total =? n) || (total =? n + 1) || rank_zero then
           Scope.column_times (as_column initial) (Scope.plus_one states0)
         else if negb (size =? 1) then
           match initial with
           | Array a =>
               if (fst (Scope.shape a) =? n) && (snd (Scope.shape a) =? n_systems)
               then Ok a else Raise ValueError
           | _ => Raise ValueError
           end
         else Ok states0) ;;
  Ok {| system := s;
        number_ltis := n_systems;
        delay := time_delay;
        newest := newest0;
        auto_inject_noise := auto_noise;
        inputs := repeat (Scope.np_zeros (LtiGroup.n_inputs s) n_systems) (time_delay + 1);
        states := st;
        outputs := Scope.np_zeros (LtiGroup.n_outputs s) n_systems |}.

(** Lines 203-218 of [__call__]: the step from the input slice [u] that
    [self.inputs[:, :, 0]] holds. *)
Definition advance (g : t F) (u : Scope.ndarray F) (c : call F) : res (t F) :=
  let s := system g in
  ax <- np_dot (LtiGroup.A s) (states g) ;;
  bu <- np_dot (LtiGroup.B s) u ;;
  x <- Scope.broadcast2 add ax bu ;;
  xn <- (if auto_inject_noise g && LtiGroup.any_truthy (LtiGroup.Q s) then
           w <- np_dot (LtiGroup.Q_ch s)
                       {| Scope.shape := (LtiGroup.n_states s, 1);
                          Scope.data := column (randn_x c) |} ;;
           Ok (Array w)
         else Ok (x_noise c)) ;;
  x <- iadd x xn ;;
  cx <- np_dot (LtiGroup.C s) (if newest g then x else states g) ;;
  du <- np_dot (LtiGroup.D s) u ;;
  y <- Scope.broadcast2 add cx du ;;
  yn <- (if auto_inject_noise g && LtiGroup.any_truthy (LtiGroup.R s) then
           w <- np_dot (LtiGroup.R_ch s)
                       {| Scope.shape := (LtiGroup.n_outputs s, 1);
                          Scope.data := column (randn_y c) |} ;;
           Ok (Array w)
         else Ok (y_noise c)) ;;
  y <- iadd y yn ;;
  Ok {| system := s;
        number_ltis := number_ltis g;
        delay := delay g;
        newest := newest g;
        auto_inject_noise := auto_inject_noise g;
        inputs := inputs g;
        states := x;
        outputs := y |}.

(** [g] with another delay buffer. *)
Definition with_inputs (g : t F) (buffer : list (Scope.ndarray F)) : t F :=
  {| system := system g;
     number_ltis := number_ltis g;
     delay := delay g;
     newest := newest g;
     auto_inject_noise := auto_inject_noise g;
     inputs := buffer;
     states := states g;
     outputs := outputs g |}.

(** Lines 184-218: [__call__(input_signal, x_noise, y_noise)].  Lines
    199-200 roll the buffer by one slice and write the new input over the
    last slice; the buffer keeps the shape the constructor gave it. *)
Definition __call__ (g : t F) (c : call F) : res (t F) :=
  let rolled := match inputs g with
                | [] => []
                | first :: rest => rest ++ [first]
                end in
  u <- reshape (input_signal c) (LtiGroup.n_inputs (system g)) (number_ltis g) ;;
  match rolled with
  | [] => Raise IndexError
  | _ :: _ =>
      let buffer := removelast rolled ++ [u] in
      advance (with_inputs g buffer) (hd u buffer) c
  end.

(** One call per element of [calls]. *)
Fixpoint simulate (g : t F) (calls : list (call F)) : res (t F) :=
  match calls with
  | [] => Ok g
  | c :: rest => g1 <- __call__ g c ;; simulate g1 rest
  end.

(** The steps alone: [advance] once per pair of an input slice and the
    other arguments of a call, with no delay buffer between them. *)
Fixpoint feed (g : t F) (steps : list (Scope.ndarray F * call F)) : res (t F) :=
  match steps with
  | [] => Ok g
  | (u, c) :: rest => g1 <- advance g u c ;; feed g1 rest
  end.

(** A sequence [l] delayed by [d] places: [pad] in the first [d] places,
    then the elements of [l] in their order, to the length of [l]. *)
Definition delayed {A : Type} (d : nat) (pad : A) (l : list A) : list A :=
  map (fun j => if j <? d then pad else nth (j - d) l pad) (seq 0 (length l)).

(** The signal of a call as the array the buffer stores. *)
Definition slice (r c : nat) (k : call F) : Scope.ndarray F :=
  {| Scope.shape := (r, c); Scope.data := chunks r c (input_signal k) |}.

End Object.

End LtiGroupObject.

(* ================================================================= *)
(** ** [class NonlinearGroup(SolverCore)]: the constructor *)

Module NonlinearGroup.

(** The class attributes a subclass declares and the constructor reads. *)
Record Plant (F : Type) : Type := {
  name : string;
  n_states : nat;
  n_inputs : nat;
  n_outputs : nat;
  n_synapses_signal : nat;
  solver_type : string;
  initial_states : list F
}.

(** The object after [__init__]; [pre], [post] and [enable_synapses] are
    the keyword arguments as given and are left out.  [inputs] lists the
    slices [self.inputs[:, :, j]]. *)
Record t (F : Type) : Type := {
  plant : Plant F;
  delay : nat;
  sample_time : F;
  n_neurons : nat;
  solver : string;
  synapses_current : Scope.ndarray F;
  inputs : list (Scope.ndarray F);
  outputs : Scope.ndarray F;
  states : Scope.ndarray F
}.

Section Group.

Context {F : Type} {SF : Scalar F}.

(** [np.ones([r, c])] *)
Definition np_ones (r c : nat) : Scope.ndarray F :=
  {| Scope.shape := (r, c); Scope.data := repeat (repeat one c) r |}.

(** Lines 700-778: [__init__(sample_time, initial=..., delay=...,
    replicate=..., solver=...)]; [initial] is [[0]] by default, [delay] is
    [0], [replicate] is [1] and [solver] is absent. *)
Definition __init__ (p : Plant F) (sample_time0 : F)
    (initial : LtiGroupObject.operand F) (time_delay n_neurons0 : nat)
    (solver0 : option string) : res (t F) :=
  let n := n_states p in
  let column := LtiGroupObject.as_column (LtiGroupObject.Flat (initial_states p)) in
  states0 <- Scope.column_times column (np_ones n n_neurons0) ;;
  let total := match initial with
               | LtiGroupObject.Number _ => 0
               | LtiGroupObject.Flat v => length v
               | LtiGroupObject.Array a => fst (Scope.shape a) + snd (Scope.shape a)
               end in
  st <- (if (total =? n) || (total =? n + 1) then
           Scope.column_times (LtiGroupObject.as_column initial) (Scope.plus_one states0)
         else if negb (total =? 1) && negb (total =? 2) then
           match initial with
           | LtiGroupObject.Array a =>
               if (fst (Scope.shape a) =? n) && (snd (Scope.shape a) =? n_neurons0)
               then Ok a else Raise ValueError
           | _ => Raise ValueError
           end
         else Ok states0) ;;
  Ok {| plant := p;
        delay := time_delay;
        sample_time := sample_time0;
        n_neurons := n_neurons0;
        solver := match solver0 with Some s => s | None => solver_type p end;
        synapses_current := Scope.np_zeros (n_synapses_signal p) n_neurons0;
        inputs := repeat (Scope.np_zeros (n_inputs p) n_neurons0) (time_delay + 1);
        outputs := Scope.np_zeros (n_outputs p) n_neurons0;
        states := st |}.

End Group.

End NonlinearGroup.

(* ================================================================= *)
(** ** The plants of [blocks/general_blocks.py] *)

Module QuadrupleTank.

Section Model.

Context {F : Type} {SF : Scalar F}.

Definition mp_a1 : F := lit 71 1000.
Definition mp_a2 : F := lit 57 1000.
Definition mp_a3 : F := lit 71 1000.
Definition mp_a4 : F := lit 57 1000.
Definition mp_A1 : F := of_Z 28.
Definition mp_A2 : F := of_Z 32.
Definition mp_A3 : F := of_Z 28.
Definition mp_A4 : F := of_Z 32.
Definition mp_g : Z := 981.
Definition mp_k1 : F := lit 333 100.
Definition mp_k2 : F := lit 335 100.
Definition mp_ga1 : F := lit 43 100.
Definition mp_ga2 : F := lit 34 100.
Definition mp_kc : F := lit 5 10.

(** [((a/A)*np.sqrt(2*g))/(2*np.sqrt(x))] *)
Definition slope (a A x : F) : F :=
  div (mul (div a A) (sqrt (of_Z (2 * mp_g)))) (mul (of_Z 2) (sqrt x)).

(** Lines 98-147: [_jacobians].  The first statement assigns into column
    [k] of the array it was given. *)
Definition _jacobians (x input_signal : matrix F) (k : nat) (st t : F)
  : res (matrix F * Jacobians F) :=
  let epssilon := lit 1 1000 in
  xk <- get_col x k ;;
  x1 <- set_col x k (map (fun v => maximum v epssilon) xk) ;;
  x0k <- entry x1 0 k ;;
  x2k <- entry x1 2 k ;;
  x1k <- entry x1 1 k ;;
  x3k <- entry x1 3 k ;;
  let o : F := of_Z 0 in
  let A :=
    [ [opp (slope mp_a1 mp_A1 x0k); o; slope mp_a3 mp_A1 x2k; o];
      [o; opp (slope mp_a2 mp_A2 x1k); o; slope mp_a4 mp_A2 x3k];
      [o; o; opp (slope mp_a3 mp_A3 x2k); o];
      [o; o; o; opp (slope mp_a4 mp_A4 x3k)] ] in
  let B :=
    [ [div (mul mp_ga1 mp_k1) mp_A1; o];
      [o; div (mul mp_ga2 mp_k2) mp_A2];
      [o; div (mul (sub (of_Z 1) mp_ga2) mp_k2) mp_A3];
      [div (mul (sub (of_Z 1) mp_ga1) mp_k1) mp_A4; o] ] in
  let H := [ [mp_kc; zero; zero; zero]; [zero; mp_kc; zero; zero] ] in
  Ok (x1, {| jac_A := A; jac_B := B; jac_H := H; jac_D := zeros 2 2;
             jac_L := eye 4; jac_M := eye 2 |}).

(** [np.sqrt(2*self.mp_g*x)] *)
Definition outflow (x : F) : F := sqrt (mul (of_Z (2 * mp_g)) x).

(** Lines 60-73: [_dynamics]. *)
Definition _dynamics (x input_signal : matrix F) (k : nat) (st t : F) : res (matrix F) :=
  x0k <- entry x 0 k ;;
  x2k <- entry x 2 k ;;
  u0k <- entry input_signal 0 k ;;
  x1k <- entry x 1 k ;;
  x3k <- entry x 3 k ;;
  u1k <- entry input_signal 1 k ;;
  Ok [ [add (add (mul (div (opp mp_a1) mp_A1) (outflow x0k))
                 (mul (div mp_a3 mp_A1) (outflow x2k)))
            (mul (div (mul mp_ga1 mp_k1) mp_A1) u0k)];
       [add (add (mul (div (opp mp_a2) mp_A2) (outflow x1k))
                 (mul (div mp_a4 mp_A2) (outflow x3k)))
            (mul (div (mul mp_ga2 mp_k2) mp_A2) u1k)];
       [add (mul (div (opp mp_a3) mp_A3) (outflow x2k))
            (mul (div (mul (sub (of_Z 1) mp_ga2) mp_k2) mp_A3) u1k)];
       [add (mul (div (opp mp_a4) mp_A4) (outflow x3k))
            (mul (div (mul (sub (of_Z 1) mp_ga1) mp_k1) mp_A4) u0k)] ].

(** Lines 77-82: [_measurements]. *)
Definition _measurements (x input_signal : matrix F) (k : nat) (st t : F)
  : res (matrix F) :=
  x0k <- entry x 0 k ;;
  x1k <- entry x 1 k ;;
  Ok [ [mul mp_kc x0k]; [mul mp_kc x1k] ].

(** Lines 86-94: [_limitations]; [np.maximum(x, 0)] after the update, the
    argument itself for any other mode. *)
Definition _limitations (x : matrix F) (mode : nat) : res (matrix F) :=
  Ok (if mode =? 1 then map (map (fun v => maximum v (of_Z 0))) x else x).

(** The class attributes (lines 22-39).  The class binds its process noise
    to the name [q_atrix], so it has no attribute [q_matrix]; it has no
    attribute [num_states] either. *)
Definition plant : Plant F :=
  Build_Plant
    (* name *) "Quadruple-tank process"
    (* n_states, n_inputs, n_outputs *) 4 2 2
    (* time_type, solver_type *) "c" "euler"
    (* initial_states *) [of_Z 0; of_Z 0; of_Z 0; of_Z 0]
    (* covariance *) (scale (of_Z 1000) (eye 4))
    (* q_matrix *) None
    (* r_matrix *) (map (map (fun x => mul x (of_Z 1))) (eye 2))
    (* kappa, alpha *) (of_Z 80) (lit 2 10)
    (* num_states *) None
    _dynamics _measurements _limitations _jacobians.

End Model.

End QuadrupleTank.

Module TwoTanks.

Section Model.

Context {F : Type} {SF : Scalar F}.

Definition mp_a1 : F := lit 71 1000.
Definition mp_a2 : F := lit 57 1000.
Definition mp_a21 : F := lit 6 100.
Definition mp_a12 : F := lit 4 100.
Definition mp_A1 : F := of_Z 28.
Definition mp_A2 : F := of_Z 32.
Definition mp_g : Z := 981.
Definition mp_ga1 : F := lit 43 100.
Definition mp_ga2 : F := lit 34 100.
Definition mp_C : matrix F := [ [of_Z 1; of_Z 0]; [of_Z 2; of_Z 1] ].

(** [np.sqrt(2*self.mp_g*x)] *)
Definition outflow (x : F) : F := sqrt (mul (of_Z (2 * mp_g)) x).

(** [+((a/A)*np.sqrt(2*g))/(2*np.sqrt(x))] and
    [-((a/A)*np.sqrt(2*g))/(2*np.sqrt(x))] *)
Definition slope (a A x : F) : F :=
  div (mul (div a A) (sqrt (of_Z (2 * mp_g)))) (mul (of_Z 2) (sqrt x)).

Definition neg_slope (a A x : F) : F :=
  div (opp (mul (div a A) (sqrt (of_Z (2 * mp_g))))) (mul (of_Z 2) (sqrt x)).

(** Lines 191-200: [_dynamics]. *)
Definition _dynamics (x input_signal : matrix F) (k : nat) (st t : F) : res (matrix F) :=
  x0k <- entry x 0 k ;;
  x1k <- entry x 1 k ;;
  u0k <- entry input_signal 0 k ;;
  u1k <- entry input_signal 1 k ;;
  Ok [ [add (add (mul (div (opp mp_a1) mp_A1) (outflow x0k))
                 (mul (div mp_a21 mp_A1) (outflow x1k)))
            (mul (div mp_ga1 mp_A1) u0k)];
       [add (add (mul (div (opp mp_a2) mp_A2) (outflow x1k))
                 (mul (div mp_a12 mp_A2) (outflow x0k)))
            (mul (div mp_ga2 mp_A2) u1k)] ].

(** Lines 204-207: [_measurements], [self.mp_C @ x[:, k].reshape(-1,1)]; the
    product is refused unless the column has two entries. *)
Definition _measurements (x input_signal : matrix F) (k : nat) (st t : F)
  : res (matrix F) :=
  xk <- get_col x k ;;
  if length xk =? 2 then Ok (dot mp_C (column xk)) else Raise ValueError.

(** Lines 211-219: [_limitations]. *)
Definition _limitations (x : matrix F) (mode : nat) : res (matrix F) :=
  Ok (if mode =? 1 then map (map (fun v => maximum v (of_Z 0))) x else x).

(** Lines 223-254: [_jacobians].  The first statement assigns into column
    [k] of the array it was given. *)
Definition _jacobians (x input_signal : matrix F) (k : nat) (st t : F)
  : res (matrix F * Jacobians F) :=
  let epssilon := lit 1 1000 in
  xk <- get_col x k ;;
  x1 <- set_col x k (map (fun v => maximum v epssilon) xk) ;;
  x0k <- entry x1 0 k ;;
  x1k <- entry x1 1 k ;;
  let o : F := of_Z 0 in
  let A :=
    [ [neg_slope mp_a1 mp_A1 x0k; slope mp_a21 mp_A1 x1k];
      [slope mp_a12 mp_A2 x0k; neg_slope mp_a2 mp_A2 x1k] ] in
  let B :=
    [ [div mp_ga1 mp_A1; o];
      [o; div mp_ga2 mp_A2] ] in
  Ok (x1, {| jac_A := A; jac_B := B; jac_H := mp_C; jac_D := zeros 2 2;
             jac_L := eye 2; jac_M := eye 2 |}).

(** The class attributes (lines 157-174): one output is declared although
    [_measurements] returns two; the process noise is bound to [q_atrix]. *)
Definition plant : Plant F :=
  Build_Plant
    (* name *) "Two-tank process"
    (* n_states, n_inputs, n_outputs *) 2 2 1
    (* time_type, solver_type *) "c" "euler"
    (* initial_states *) [of_Z 0; of_Z 0]
    (* covariance *) (scale (of_Z 1000) (eye 2))
    (* q_matrix *) None
    (* r_matrix *) (map (map (fun x => mul x (of_Z 1))) (eye 2))
    (* kappa, alpha *) (of_Z 80) (lit 2 10)
    (* num_states *) None
    _dynamics _measurements _limitations _jacobians.

End Model.

End TwoTanks.

Module Lorenz.

Section Model.

Context {F : Type} {SF : Scalar F}.

(** The global names of the module [general_blocks] ([None]: unbound).  The
    module's own statements bind the four plant classes; every other global
    comes from its two starred imports. *)
Variable globals : string -> option (matrix F).

Definition mp_sigma : F := of_Z 10.
Definition mp_ro : F := of_Z 28.
Definition mp_beta : F := div (of_Z 8) (of_Z 3).

(** Lines 323-346: [_jacobians].  The function assigns [A], [L], [H] and
    [M]; the names [B] and [D] of its return statement are not assigned in
    its body, so Python reads them as globals. *)
Definition _jacobians (x input_signal : matrix F) (k : nat) (st t : F)
  : res (matrix F * Jacobians F) :=
  x2k <- entry x 2 k ;;
  x0k <- entry x 0 k ;;
  x1k <- entry x 1 k ;;
  let A :=
    [ [opp mp_sigma; mp_sigma; of_Z 0];
      [sub mp_ro x2k; of_Z (-1); opp x0k];
      [x1k; x0k; opp mp_beta] ] in
  let L := eye 3 in
  let H := eye2 2 3 in
  let M := eye 2 in
  B <- Py.lookup (NameError "B") (globals "B") ;;
  D <- Py.lookup (NameError "D") (globals "D") ;;
  Ok (x, {| jac_A := A; jac_B := B; jac_H := H; jac_D := D;
            jac_L := L; jac_M := M |}).

(** Lines 292-298: [_dynamics]. *)
Definition _dynamics (x input_signal : matrix F) (k : nat) (st t : F) : res (matrix F) :=
  x1k <- entry x 1 k ;;
  x0k <- entry x 0 k ;;
  u0k <- entry input_signal 0 k ;;
  x2k <- entry x 2 k ;;
  Ok [ [add (sub (mul mp_sigma x1k) (mul mp_sigma x0k)) u0k];
       [sub (sub (mul mp_ro x0k) (mul x0k x2k)) x1k];
       [sub (mul x0k x1k) (mul mp_beta x2k)] ].

(** Lines 302-307: [_measurements]. *)
Definition _measurements (x input_signal : matrix F) (k : nat) (st t : F)
  : res (matrix F) :=
  x0k <- entry x 0 k ;;
  x1k <- entry x 1 k ;;
  Ok [ [x0k]; [x1k] ].

(** Lines 311-319: [_limitations]. *)
Definition _limitations (x : matrix F) (mode : nat) : res (matrix F) := Ok x.

(** The class attributes (lines 265-282); the class has no attribute
    [num_states]. *)
Definition plant : Plant F :=
  Build_Plant
    (* name *) "Lorenz Chaos"
    (* n_states, n_inputs, n_outputs *) 3 1 2
    (* time_type, solver_type *) "c" "euler"
    (* initial_states *) [of_Z 1; of_Z 1; of_Z 1]
    (* covariance *) (scale (of_Z 1000) (eye 3))
    (* q_matrix *) (Some (map (map (fun x => mul x (of_Z 1))) (eye 3)))
    (* r_matrix *) (map (map (fun x => mul x (of_Z 1))) (eye 2))
    (* kappa, alpha *) (of_Z 80) (lit 2 10)
    (* num_states *) None
    _dynamics _measurements _limitations _jacobians.

End Model.

End Lorenz.

(* ================================================================= *)
(** ** The integrator *)

Module Integrator.

Section Rules.

Context {F : Type} {SF : Scalar F}.

(** Modelled from the spec: [SolverCore.dynamic_runner], whose file
    ([core/lib/core_library.py]) is not part of the sources.  Section 4.1
    gives the two rules; the solver names are the ones the plants declare
    (['euler'], ['rng4']).  The spec says nothing of any other name, which is
    read as an error here. *)
Definition dynamic_runner (f : matrix F -> res (matrix F)) (x_eval x_base : matrix F)
    (dt : F) (method : string) : res (matrix F) :=
  if String.eqb method "euler" then
    k1 <- f x_eval ;;
    Ok (madd x_base (scale dt k1))
  else if String.eqb method "rng4" then
    let half := div dt (of_Z 2) in
    k1 <- f x_eval ;;
    k2 <- f (add_column x_eval (scale half k1)) ;;
    k3 <- f (add_column x_eval (scale half k2)) ;;
    k4 <- f (add_column x_eval (scale dt k3)) ;;
    Ok (madd x_base
             (scale (div dt (of_Z 6))
                    (madd (madd k1 (scale (of_Z 2) k2))
                          (madd (scale (of_Z 2) k3) k4))))
  else Raise ValueError.

End Rules.

End Integrator.

(* ================================================================= *)
(** ** Two arithmetics *)

(** IEEE binary64, NumPy's [float64]. *)
Module Float64.

Definition of_Z (z : Z) : float :=
  match z with
  | Zneg p => PrimFloat.opp (PrimFloat.of_uint63 (Uint63.of_Z (Zpos p)))
  | _ => PrimFloat.of_uint63 (Uint63.of_Z z)
  end.

(** [np.maximum]: a not-a-number operand is returned. *)
Definition maximum (x y : float) : float :=
  if PrimFloat.is_nan x then x
  else if PrimFloat.is_nan y then y
  else if PrimFloat.ltb x y then y else x.

#[global] Instance scalar : Scalar float := {
  zero := PrimFloat.zero;
  one := PrimFloat.one;
  add := PrimFloat.add;
  sub := PrimFloat.sub;
  mul := PrimFloat.mul;
  div := PrimFloat.div;
  opp := PrimFloat.opp;
  sqrt := PrimFloat.sqrt;
  maximum := maximum;
  of_Z := of_Z;
  isnan := PrimFloat.is_nan;
  truthy := fun x => negb (PrimFloat.eqb x PrimFloat.zero)
}.

(** [numpy.linalg] on one-by-one arrays, the only ones the scalar examples
    hand to it; any other argument is refused. *)
#[global] Instance linalg : LinAlg float := {
  inv := fun M =>
    match M with
    | [[a]] => if PrimFloat.eqb a PrimFloat.zero then Raise LinAlgError
               else Ok [[PrimFloat.div PrimFloat.one a]]
    | _ => Raise LinAlgError
    end;
  cholesky := fun M =>
    match M with
    | [[a]] => if PrimFloat.ltb PrimFloat.zero a then Ok [[PrimFloat.sqrt a]]
               else Raise LinAlgError
    | _ => Raise LinAlgError
    end
}.

#[global] Instance solver : SolverCore float := {
  dynamic_runner := Integrator.dynamic_runner
}.

End Float64.

(** Exact arithmetic on the canonical rationals. *)
Module Exact.

(** The square root of a square of a rational (rounded down otherwise). *)
Definition sqrt (x : Qc) : Qc :=
  Q2Qc (Qmake (Z.sqrt (Qnum (this x))) (Z.to_pos (Z.sqrt (Zpos (Qden (this x)))))).

#[global] Instance scalar : Scalar Qc := {
  zero := Q2Qc 0;
  one := Q2Qc 1;
  add := Qcplus;
  sub := Qcminus;
  mul := Qcmult;
  div := Qcdiv;
  opp := Qcopp;
  sqrt := sqrt;
  maximum := fun x y => if Qle_bool (this x) (this y) then y else x;
  of_Z := fun z => Q2Qc (inject_Z z);
  isnan := fun _ => false;
  truthy := fun x => negb (Qc_eq_bool x (Q2Qc 0))
}.

#[global] Instance linalg : LinAlg Qc := {
  inv := fun M =>
    match M with
    | [[a]] => if Qc_eq_bool a (Q2Qc 0) then Raise LinAlgError
               else Ok [[Qcdiv (Q2Qc 1) a]]
    | _ => Raise LinAlgError
    end;
  cholesky := fun M =>
    match M with
    | [[a]] => if Qle_bool (this a) 0 then Raise LinAlgError
               else Ok [[sqrt a]]
    | _ => Raise LinAlgError
    end
}.

#[global] Instance solver : SolverCore Qc := {
  dynamic_runner := Integrator.dynamic_runner
}.

End Exact.

(* ================================================================= *)
(** ** A purely linear discrete-time plant

    The plant of the comparison with [LinearKalmanFilter]: a subclass of
    [Nonlinear] with [time_type = 'd'] whose [_dynamics] returns
    [A x[:, [k]] + B u[:, [k]]], whose [_measurements] returns [H x[:, [k]]],
    whose [_limitations] returns its argument and whose [_jacobians] returns
    the constant [(A, B, H, D, I, I)]. *)

Module LinearPlant.

Section Model.

Context {F : Type} {SF : Scalar F}.

Variables (A B H D : matrix F) (x0 : list F) (P0 Q R : matrix F) (al ka : F).

Definition dynamics (x input_signal : matrix F) (k : nat) (st t : F) : res (matrix F) :=
  xk <- get_col x k ;;
  uk <- get_col input_signal k ;;
  Ok (madd (dot A (column xk)) (dot B (column uk))).

Definition measurements (x input_signal : matrix F) (k : nat) (st t : F) : res (matrix F) :=
  xk <- get_col x k ;;
  Ok (dot H (column xk)).

Definition limitations (x : matrix F) (mode : nat) : res (matrix F) := Ok x.

Definition jacobians (x input_signal : matrix F) (k : nat) (st t : F)
  : res (matrix F * Jacobians F) :=
  Ok (x, {| jac_A := A; jac_B := B; jac_H := H; jac_D := D;
            jac_L := eye (nrows A); jac_M := eye (nrows H) |}).

Definition plant : Plant F :=
  {| name := "Linear plant";
     n_states := nrows A;
     n_inputs := ncols B;
     n_outputs := nrows H;
     time_type := "d";
     solver_type := "euler";
     initial_states := x0;
     covariance := P0;
     q_matrix := Some Q;
     r_matrix := R;
     kappa := ka;
     alpha := al;
     num_states := Some (nrows A);
     _dynamics := dynamics;
     _measurements := measurements;
     _limitations := limitations;
     _jacobians := jacobians |}.

End Model.

End LinearPlant.

(* ================================================================= *)
(** ** Concrete systems used by the examples *)

Module Example.

Import Float64.

(** A one-state plant [x' = 0.5 x + u], [y = x], with [P = 1], [Q = 0.25],
    [R = 1], [alpha = 1] and [kappa = 0], started at [x = 1]. *)
Definition scalar_plant : Plant float :=
  LinearPlant.plant [[0.5%float]] [[1%float]] [[1%float]] [[0%float]]
                    [1%float] [[1%float]] [[0.25%float]] [[1%float]]
                    1%float 0%float.

(** A three-state plant that differs from it in its matrices only. *)
Definition three_state_plant : Plant float :=
  LinearPlant.plant (eye 3) (zeros 3 1) (eye2 2 3) (zeros 2 1)
                    [1%float; 1%float; 1%float] (eye 3) (eye 3) (eye 2)
                    1%float 0%float.

Definition time_line : list float := [0%float; 1%float; 2%float; 3%float].

Definition as_ekf : Nonlinear.kwargs float :=
  {| Nonlinear.kw_initial := None; Nonlinear.kw_approach := Some "ekf"%string;
     Nonlinear.kw_solver := None; Nonlinear.kw_estimator := Some true |}.

Definition as_ukf : Nonlinear.kwargs float :=
  {| Nonlinear.kw_initial := None; Nonlinear.kw_approach := Some "ukf"%string;
     Nonlinear.kw_solver := None; Nonlinear.kw_estimator := Some true |}.

(** The filter [LinearKalmanFilter((A, B, C, D), x_0=.., P_0=..,
    process_noise=.., measurement_noise=..)] for the scalar plant. *)
Definition scalar_filter : LinearKalmanFilter.t float :=
  LinearKalmanFilter.__init__
    (LinearKalmanFilter.Tuple [[0.5%float]] [[1%float]] [[1%float]] [[0%float]])
    {| LinearKalmanFilter.x_0 := Some [1%float];
       LinearKalmanFilter.P_0 := Some [[1%float]];
       LinearKalmanFilter.process_noise := Some [[0.25%float]];
       LinearKalmanFilter.measurement_noise := Some [[1%float]] |}.

(** The engines [Nonlinear.__init__] builds for the scalar plant over
    [time_line], as an EKF and as a UKF. *)
Definition ekf_engine : Nonlinear.t float :=
  {| Nonlinear.plant := scalar_plant;
     Nonlinear.time_line := time_line;
     Nonlinear.sample_time := 1%float;
     Nonlinear.n_steps := 4;
     Nonlinear.self_solver_type := "euler";
     Nonlinear.current_step := 0;
     Nonlinear.inputs := [[0%float; 0%float; 0%float; 0%float]];
     Nonlinear.outputs := [[0%float; 0%float; 0%float; 0%float]];
     Nonlinear.states := [[1%float; 0%float; 0%float; 0%float; 0%float]];
     Nonlinear.estimator := true;
     Nonlinear.est_approach := Some "ekf"%string;
     Nonlinear.inst_covariance := None;
     Nonlinear.ukf := None |}.

Definition ukf_engine : Nonlinear.t float :=
  {| Nonlinear.plant := scalar_plant;
     Nonlinear.time_line := time_line;
     Nonlinear.sample_time := 1%float;
     Nonlinear.n_steps := 4;
     Nonlinear.self_solver_type := "euler";
     Nonlinear.current_step := 0;
     Nonlinear.inputs := [[0%float; 0%float; 0%float; 0%float]];
     Nonlinear.outputs := [[0%float; 0%float; 0%float; 0%float]];
     Nonlinear.states := [[1%float; 0%float; 0%float; 0%float; 0%float]];
     Nonlinear.estimator := true;
     Nonlinear.est_approach := Some "ukf"%string;
     Nonlinear.inst_covariance := None;
     Nonlinear.ukf :=
       Some {| Nonlinear.n_ukf := 1; Nonlinear.lambd := 0%float;
               Nonlinear.betta := 2%float;
               Nonlinear.arrays := [[2.5%float; 0.5%float; 0.5%float]];
               Nonlinear.wm := 0; Nonlinear.wc := 0 |} |}.

(** The engine [Nonlinear.__init__] builds for the scalar plant as a
    simulator. *)
Definition simulator : Nonlinear.t float :=
  {| Nonlinear.plant := scalar_plant;
     Nonlinear.time_line := time_line;
     Nonlinear.sample_time := 1%float;
     Nonlinear.n_steps := 4;
     Nonlinear.self_solver_type := "euler";
     Nonlinear.current_step := 0;
     Nonlinear.inputs := [[0%float; 0%float; 0%float; 0%float]];
     Nonlinear.outputs := [[0%float; 0%float; 0%float; 0%float]];
     Nonlinear.states := [[1%float; 0%float; 0%float; 0%float; 0%float]];
     Nonlinear.estimator := false;
     Nonlinear.est_approach := None;
     Nonlinear.inst_covariance := None;
     Nonlinear.ukf := None |}.

(** [Nonlinear(time_line, estimator=False)] *)
Definition not_an_estimator : Nonlinear.kwargs float :=
  {| Nonlinear.kw_initial := None; Nonlinear.kw_approach := None;
     Nonlinear.kw_solver := None; Nonlinear.kw_estimator := Some false |}.

(** What an example reads off an engine. *)
Definition observe (r : res (Nonlinear.t float))
  : res (nat * matrix float * matrix float * matrix float * matrix float) :=
  e <- r ;;
  Ok (Nonlinear.current_step e, Nonlinear.inputs e, Nonlinear.outputs e,
      Nonlinear.states e, Nonlinear.self_covariance e).

(** A two-state system with one output whose process noise has an infinite
    variance on the first state, as a plant and as a filter. *)
Definition loose_A : matrix float := [[1%float; 0%float]; [0%float; 1%float]].
Definition loose_B : matrix float := [[1%float]; [1%float]].
Definition loose_H : matrix float := [[1%float; 0%float]].
Definition loose_Q : matrix float :=
  [[PrimFloat.infinity; 0%float]; [0%float; 1%float]].

Definition loose_plant : Plant float :=
  LinearPlant.plant loose_A loose_B loose_H [[0%float]] [1%float; 1%float]
                    loose_A loose_Q [[1%float]] 1%float 0%float.

Definition loose_filter : LinearKalmanFilter.t float :=
  LinearKalmanFilter.__init__
    (LinearKalmanFilter.Tuple loose_A loose_B loose_H [[0%float]])
    {| LinearKalmanFilter.x_0 := Some [1%float; 1%float];
       LinearKalmanFilter.P_0 := Some loose_A;
       LinearKalmanFilter.process_noise := Some loose_Q;
       LinearKalmanFilter.measurement_noise := Some [[1%float]] |}.

End Example.

(** The same scalar system in exact arithmetic. *)
Module ExactExample.

Import Exact.

Definition half : Qc := Q2Qc (1 # 2).
Definition quarter : Qc := Q2Qc (1 # 4).
Definition unit : Qc := Q2Qc 1.

Definition scalar_plant : Plant Qc :=
  LinearPlant.plant [[half]] [[unit]] [[unit]] [[Q2Qc 0]]
                    [unit] [[unit]] [[quarter]] [[unit]] unit (Q2Qc 0).

Definition time_line : list Qc := [Q2Qc 0; Q2Qc 1; Q2Qc 2; Q2Qc 3].

(** Two scopes of two signals each over the time line [[0, 1]]. *)
Definition scope_1 : Scope.t Qc :=
  {| Scope.time_line := {| Scope.shape := (1, 2); Scope.data := [[Q2Qc 0; unit]] |};
     Scope.n_signals := 2;
     Scope.signals := {| Scope.shape := (2, 2);
                         Scope.data := [[unit; half]; [quarter; Q2Qc 0]] |};
     Scope.current_step := 0;
     Scope.n := 2 |}.

Definition scope_2 : Scope.t Qc :=
  {| Scope.time_line := {| Scope.shape := (1, 2); Scope.data := [[Q2Qc 0; unit]] |};
     Scope.n_signals := 2;
     Scope.signals := {| Scope.shape := (2, 2);
                         Scope.data := [[half; half]; [unit; unit]] |};
     Scope.current_step := 0;
     Scope.n := 2 |}.

Definition scalar_filter : LinearKalmanFilter.t Qc :=
  LinearKalmanFilter.__init__
    (LinearKalmanFilter.Tuple [[half]] [[unit]] [[unit]] [[Q2Qc 0]])
    {| LinearKalmanFilter.x_0 := Some [unit];
       LinearKalmanFilter.P_0 := Some [[unit]];
       LinearKalmanFilter.process_noise := Some [[quarter]];
       LinearKalmanFilter.measurement_noise := Some [[unit]] |}.

(** A one-state and a two-state system [(A, B, C, D)] for [LtiGroup], and
    three calls with one input each and the default noise arguments. *)
Definition lti_system : matrix Qc * matrix Qc * matrix Qc * matrix Qc :=
  ([[half]], [[unit]], [[unit]], [[Q2Qc 0]]).

Definition lti_system_2 : matrix Qc * matrix Qc * matrix Qc * matrix Qc :=
  ([[half; Q2Qc 0]; [Q2Qc 0; quarter]], [[unit]; [unit]], [[unit; unit]], [[Q2Qc 0]]).

Definition lti_call (u : Qc) : LtiGroupObject.call Qc :=
  {| LtiGroupObject.input_signal := [u];
     LtiGroupObject.x_noise := LtiGroupObject.Number (Q2Qc 0);
     LtiGroupObject.y_noise := LtiGroupObject.Number (Q2Qc 0);
     LtiGroupObject.randn_x := [];
     LtiGroupObject.randn_y := [] |}.

Definition lti_calls : list (LtiGroupObject.call Qc) :=
  [lti_call unit; lti_call half; lti_call quarter].

(** Two plants for [NonlinearGroup], of one state and of two. *)
Definition group_plant : NonlinearGroup.Plant Qc :=
  {| NonlinearGroup.name := "Neuron";
     NonlinearGroup.n_states := 1;
     NonlinearGroup.n_inputs := 1;
     NonlinearGroup.n_outputs := 1;
     NonlinearGroup.n_synapses_signal := 1;
     NonlinearGroup.solver_type := "euler";
     NonlinearGroup.initial_states := [half] |}.

Definition group_plant_2 : NonlinearGroup.Plant Qc :=
  {| NonlinearGroup.name := "Two-state neuron";
     NonlinearGroup.n_states := 2;
     NonlinearGroup.n_inputs := 1;
     NonlinearGroup.n_outputs := 1;
     NonlinearGroup.n_synapses_signal := 1;
     NonlinearGroup.solver_type := "euler";
     NonlinearGroup.initial_states := [unit; half] |}.

End ExactExample.

(* ================================================================= *)
(** ** The EKF beside the linear Kalman filter *)

Module Correspondence.

Section Relation.

Context {F : Type} {SF : Scalar F}.

Variables (A B H D : matrix F) (x0 : list F) (P0 Q R : matrix F) (al ka : F).
Variables (n m l N : nat).

(** An engine over the linear plant, at step [k], and a filter for the same
    matrices that hold the same estimate: the filter's [x_ps] is column [k]
    of the engine's state history and its [P_ps] the engine's covariance. *)
Record sim (e : Nonlinear.t F) (f : LinearKalmanFilter.t F) : Prop := {
  sim_plant : Nonlinear.plant e = LinearPlant.plant A B H D x0 P0 Q R al ka;
  sim_estimator : Nonlinear.estimator e = true;
  sim_approach : Nonlinear.est_approach e = Some "ekf"%string;
  sim_time : length (Nonlinear.time_line e) = N;
  sim_states : shaped n (N + 1) (Nonlinear.states e);
  sim_inputs : shaped m N (Nonlinear.inputs e);
  sim_outputs : shaped l N (Nonlinear.outputs e);
  sim_rows : length (Nonlinear.self_covariance e) = n;
  sim_A : LinearKalmanFilter.A (LinearKalmanFilter.self f) = A;
  sim_B : LinearKalmanFilter.B (LinearKalmanFilter.self f) = B;
  sim_C : LinearKalmanFilter.C (LinearKalmanFilter.self f) = H;
  sim_Q : LinearKalmanFilter.Q (LinearKalmanFilter.self f) = Q;
  sim_R : LinearKalmanFilter.R (LinearKalmanFilter.self f) = R;
  sim_n : LinearKalmanFilter.n_states (LinearKalmanFilter.self f) = n;
  sim_x : column (col (Nonlinear.current_step e) (Nonlinear.states e))
          = LinearKalmanFilter.x_ps (LinearKalmanFilter.self f);
  sim_P : Nonlinear.self_covariance e
          = LinearKalmanFilter.P_ps (LinearKalmanFilter.self f);
  sim_square : Forall (fun row => length row = n) (Nonlinear.self_covariance e)
}.

End Relation.

Section Outcome.

Context {F : Type} {SF : Scalar F}.

(** The two runs end alike: both return, with the same posterior state and
    the same posterior covariance, or both raise the same exception. *)
Definition agree (re : res (Nonlinear.t F)) (rf : res (LinearKalmanFilter.t F)) : Prop :=
  match re, rf with
  | Ok e, Ok f =>
      column (col (Nonlinear.current_step e) (Nonlinear.states e))
      = LinearKalmanFilter.x_ps (LinearKalmanFilter.self f) /\
      Nonlinear.self_covariance e = LinearKalmanFilter.P_ps (LinearKalmanFilter.self f)
  | Raise x, Raise x' => x = x'
  | _, _ => False
  end.

(** What the comparison asks of a tick: an input of the plant's size, and
    an output of the plant's size without a not-a-number entry. *)
Definition measured (m l : nat) (tick : list F * list F) : Prop :=
  length (fst tick) = m /\ length (snd tick) = l /\ any_isnan (snd tick) = false.

(** [Nonlinear(time_line, estimator=True, approach='ekf')] *)
Definition as_ekf : Nonlinear.kwargs F :=
  {| Nonlinear.kw_initial := None; Nonlinear.kw_approach := Some "ekf"%string;
     Nonlinear.kw_solver := None; Nonlinear.kw_estimator := Some true |}.

End Outcome.

End Correspondence.

(* ================================================================= *)
(** ** The recursion of a simulated linear plant *)

Module LinearSimulation.

Section Recursion.

Context {F : Type} {SF : Scalar F}.

Variables (A B H : matrix F).

(** The state after a step from [x] under the input [u], and the output
    measured at [x], each with its additive noise. *)
Definition next_state (x u x_noise : list F) : res (list F) :=
  add_flat (flatten (madd (dot A (column x)) (dot B (column u)))) x_noise.

Definition output (x y_noise : list F) : res (list F) :=
  add_flat (flatten (dot H (column x))) y_noise.

(** What a step asks of its arguments: an input of the plant's size, and
    noises of the size of the state and of the output, or of one entry. *)
Definition fits (n m l : nat) (tick : list F * list F * list F) : Prop :=
  length (fst (fst tick)) = m /\
  (length (snd (fst tick)) = n \/ length (snd (fst tick)) = 1) /\
  (length (snd tick) = l \/ length (snd tick) = 1).

(** [Nonlinear(time_line)] *)
Definition as_simulator : Nonlinear.kwargs F :=
  {| Nonlinear.kw_initial := None; Nonlinear.kw_approach := None;
     Nonlinear.kw_solver := None; Nonlinear.kw_estimator := None |}.

(** A simulator of the plant [p] at step [k], its histories of the sizes
    the constructor gives them: [n] states, [m] inputs and [l] outputs over
    [N] instants. *)
Definition ready (p : Plant F) (n m l N : nat) (e : Nonlinear.t F) (k : nat) : Prop :=
  Nonlinear.plant e = p /\
  Nonlinear.estimator e = false /\
  length (Nonlinear.time_line e) = N /\
  shaped n (N + 1) (Nonlinear.states e) /\
  shaped m N (Nonlinear.inputs e) /\
  shaped l N (Nonlinear.outputs e) /\
  Nonlinear.current_step e = k.

End Recursion.

End LinearSimulation.

(* ================================================================= *)
(** * Properties *)

(** ** Lists and arrays *)

Section ListFacts.

Context {A : Type}.

Lemma set_nth_length (n : nat) (x : A) (l : list A) :
  length (set_nth n x l) = length l.
Proof.
  revert n; induction l as [|a l IH]; intros [|n]; simpl; auto.
Qed.

Lemma nth_set_nth_same (n : nat) (x d : A) (l : list A) :
  n < length l -> nth n (set_nth n x l) d = x.
Proof.
  revert n; induction l as [|a l IH]; intros [|n] Hn; simpl in *; try lia; auto.
  apply IH; lia.
Qed.

Lemma nth_set_nth_other (n m : nat) (x d : A) (l : list A) :
  n <> m -> nth m (set_nth n x l) d = nth m l d.
Proof.
  revert n m; induction l as [|a l IH]; intros [|n] [|m] Hnm; simpl; auto; try lia.
Qed.

Lemma nth_error_set_nth_same (n : nat) (x : A) (l : list A) :
  n < length l -> nth_error (set_nth n x l) n = Some x.
Proof.
  revert n; induction l as [|a l IH]; intros [|n] Hn; simpl in *; try lia; auto.
  apply IH; lia.
Qed.

Lemma nth_error_set_nth_other (n m : nat) (x : A) (l : list A) :
  n <> m -> nth_error (set_nth n x l) m = nth_error l m.
Proof.
  revert n m; induction l as [|a l IH]; intros [|n] [|m] Hnm; simpl; auto; try lia.
Qed.

Lemma in_firstn (n : nat) (x : A) (l : list A) : In x (firstn n l) -> In x l.
Proof.
  intros H. rewrite <- (firstn_skipn n l). apply in_or_app; left; exact H.
Qed.

Lemma in_skipn (n : nat) (x : A) (l : list A) : In x (skipn n l) -> In x l.
Proof.
  intros H. rewrite <- (firstn_skipn n l). apply in_or_app; right; exact H.
Qed.

End ListFacts.

Section ArrayFacts.

Context {F : Type} {SF : Scalar F}.

Lemma nth_error_map_repeat (f : F -> F) (x : F) (m j : nat) :
  j < m -> nth_error (map f (repeat x m)) j = Some (f x).
Proof.
  revert j; induction m as [|m IH]; intros [|j] Hj; simpl; try lia; auto.
  apply IH; lia.
Qed.

Lemma zeros_ncols (r c : nat) : 0 < r -> ncols (zeros (F:=F) r c) = c.
Proof.
  destruct r as [|r]; [lia|]; intros _; simpl. apply repeat_length.
Qed.

Lemma zeros_nrows (r c : nat) : nrows (zeros (F:=F) r c) = r.
Proof. apply repeat_length. Qed.

Lemma map2_length {A B C : Type} (f : A -> B -> C) (l : list A) (l' : list B) :
  length l = length l' -> length (map2 f l l') = length l.
Proof.
  revert l'; induction l as [|a l IH]; intros [|b l'] H; simpl in *; try lia; auto.
Qed.

(** An in-bounds column assignment of a vector of the right length succeeds. *)
Lemma set_col_ok (M : matrix F) (j : nat) (v : list F) :
  j < ncols M -> length v = nrows M ->
  set_col M j v = Ok (map2 (fun row x => set_nth j x row) M v).
Proof.
  intros Hj Hv; unfold set_col.
  apply Nat.ltb_lt in Hj; rewrite Hj.
  apply Nat.eqb_eq in Hv; rewrite Hv; reflexivity.
Qed.

End ArrayFacts.

(** The array operations on small arrays of floats. *)
Lemma array_operations_in_numbers :
  dot [[1; 2]; [3; 4]]%float [[5]; [6]]%float = [[17]; [39]]%float /\
  transpose [[1; 2; 3]; [4; 5; 6]]%float = [[1; 4]; [2; 5]; [3; 6]]%float /\
  eye 2 = [[1; 0]; [0; 1]]%float /\
  diag [2; 3]%float = [[2; 0]; [0; 3]]%float /\
  hcat [[1]; [2]]%float [[3; 4]; [5; 6]]%float = [[1; 3; 4]; [2; 5; 6]]%float /\
  sub_column [[1; 2]; [3; 4]]%float [[1]; [3]]%float = [[0; 1]; [0; 1]]%float /\
  set_col [[1; 2]; [3; 4]]%float 1 [9; 8]%float = Ok [[1; 9]; [3; 8]]%float /\
  set_col [[1; 2]; [3; 4]]%float 0 [9]%float = Ok [[9; 2]; [9; 4]]%float /\
  set_col [[1; 2]; [3; 4]]%float 2 [9; 8]%float = Raise IndexError /\
  set_col [[1; 2]; [3; 4]]%float 1 [9; 8; 7]%float = Raise ValueError /\
  get_col [[1; 2]; [3; 4]]%float 1 = Ok [2; 4]%float /\
  Integrator.dynamic_runner (fun _ => Ok [[2]]%float) [[7]]%float [[1]]%float
                            0.5%float "euler" = Ok [[2]]%float.
Proof. repeat split; vm_compute; reflexivity. Qed.

(* ================================================================= *)
(** ** The UKF weights *)

Section UkfWeights.

Context {F : Type} {SF : Scalar F} {LA : LinAlg F} {SC : SolverCore F}.

Import Nonlinear.

(** The weights as the UKF branch of the constructor leaves them: one array,
    bound to both [wm] and [wc], uniform except for its first entry. *)
Lemma init_ukf_spec (p : Plant F) (n : nat) :
  num_states p = Some n ->
  let a2 := mul (alpha p) (alpha p) in
  let lam := sub (mul a2 (add (of_nat n) (kappa p))) (of_nat n) in
  let w := div one (mul (of_Z 2) (add (of_nat n) lam)) in
  init_ukf p =
  Ok {| n_ukf := n; lambd := lam; betta := of_Z 2;
        arrays := [add w (add (sub one a2) (of_Z 2)) :: map (fun x => div x (mul (of_Z 2) (add (of_nat n) lam))) (repeat one (2 * n))];
        wm := 0; wc := 0 |}.
Proof.
  intros Hn; unfold init_ukf; rewrite Hn.
  cbn [Py.lookup Py.bind].
  replace (2 * n + 1) with (S (2 * n)) by lia.
  reflexivity.
Qed.

(** What the constructor does implement of the weight convention: over a
    plant that declares [num_states = n], with tuning parameters alpha and
    kappa, the constructor called with [estimator=True] and [approach='ukf']
    succeeds; it sets lambda to [alpha^2 (n + kappa) - n] and beta to 2;
    every weight of index [i >= 1], mean or covariance, is
    [1/(2 (n + lambda))]; and the covariance weight of index 0 is
    [1/(2 (n + lambda)) + (1 - alpha^2 + beta)]. *)
Theorem ukf_weights_at_construction (p : Plant F) (tl : list F) (kw : kwargs F) (n : nat) :
  num_states p = Some n ->
  0 < n_states p ->
  length (initial_states p) = n_states p ->
  kw_initial kw = None ->
  kw_estimator kw = Some true ->
  kw_approach kw = Some "ukf"%string ->
  exists e u,
    __init__ p tl kw = Ok e /\ ukf e = Some u /\ n_ukf u = n /\
    lambd u = sub (mul (mul (alpha p) (alpha p)) (add (of_nat n) (kappa p))) (of_nat n) /\
    betta u = of_Z 2 /\
    (forall i, 1 <= i <= 2 * n ->
       read_weight u (wm u) i = Ok (div one (mul (of_Z 2) (add (of_nat n) (lambd u)))) /\
       read_weight u (wc u) i = Ok (div one (mul (of_Z 2) (add (of_nat n) (lambd u))))) /\
    read_weight u (wc u) 0 =
      Ok (add (div one (mul (of_Z 2) (add (of_nat n) (lambd u))))
              (add (sub one (mul (alpha p) (alpha p))) (betta u))).
Proof.
  intros Hn Hpos Hlen Hini Hest Happ.
  unfold __init__. rewrite Hini, Hest, Happ.
  rewrite set_col_ok by (rewrite ?zeros_ncols, ?zeros_nrows; auto; lia).
  simpl Py.bind. rewrite (init_ukf_spec p Hn). cbv zeta. simpl Py.bind.
  eexists; eexists; split; [reflexivity|]; simpl.
  repeat split; auto.
  - unfold read_weight; simpl. destruct i as [|i]; [lia|]; simpl.
    rewrite nth_error_map_repeat by lia; reflexivity.
  - unfold read_weight; simpl. destruct i as [|i]; [lia|]; simpl.
    rewrite nth_error_map_repeat by lia; reflexivity.
Qed.

(** The mean weights do not keep their values: [wm] and [wc] are one array,
    and the mean weight of index 0 is the covariance weight of index 0. *)
Lemma ukf_weights_share_one_array (p : Plant F) (u : Ukf F) :
  init_ukf p = Ok u ->
  wm u = wc u /\
  read_weight u (wm u) 0 =
    Ok (add (div one (mul (of_Z 2) (add (of_nat (n_ukf u)) (lambd u))))
            (add (sub one (mul (alpha p) (alpha p))) (betta u))).
Proof.
  intros H. destruct (num_states p) as [n|] eqn:Hn.
  - rewrite (init_ukf_spec p Hn) in H. cbv zeta in H. inversion H; subst; clear H.
    split; reflexivity.
  - unfold init_ukf in H. rewrite Hn in H. discriminate H.
Qed.

End UkfWeights.

(** The implemented part of the convention, for the three-state plant of the
    examples. *)
Lemma ukf_weights_at_construction_witness :
  exists e u,
    Nonlinear.__init__ Example.three_state_plant Example.time_line Example.as_ukf = Ok e /\
    Nonlinear.ukf e = Some u /\ Nonlinear.n_ukf u = 3 /\
    Nonlinear.lambd u =
      sub (mul (mul (alpha Example.three_state_plant) (alpha Example.three_state_plant))
               (add (of_nat 3) (kappa Example.three_state_plant))) (of_nat 3) /\
    Nonlinear.betta u = of_Z 2 /\
    (forall i, 1 <= i <= 2 * 3 ->
       Nonlinear.read_weight u (Nonlinear.wm u) i =
         Ok (div one (mul (of_Z 2) (add (of_nat 3) (Nonlinear.lambd u)))) /\
       Nonlinear.read_weight u (Nonlinear.wc u) i =
         Ok (div one (mul (of_Z 2) (add (of_nat 3) (Nonlinear.lambd u))))) /\
    Nonlinear.read_weight u (Nonlinear.wc u) 0 =
      Ok (add (div one (mul (of_Z 2) (add (of_nat 3) (Nonlinear.lambd u))))
              (add (sub one (mul (alpha Example.three_state_plant)
                                 (alpha Example.three_state_plant)))
                   (Nonlinear.betta u))).
Proof.
  apply (@ukf_weights_at_construction float Float64.scalar
           Example.three_state_plant Example.time_line Example.as_ukf 3);
    reflexivity || (vm_compute; lia).
Defined.

(** C1: for three states, alpha = 1 and kappa = 0 (so lambda = 0) the
    convention puts the mean weight of index 0 at [lambda/(n + lambda) = 0]
    and the covariance weight of index 0 at [0 + (1 - alpha^2 + beta) = 2].
    The constructor returns with [1/6 + 2] in both: the mean weights start
    uniform at [1/6], and the entry written through [wc] is the entry read
    through [wm]. *)
Lemma ukf_weights_at_three_states :
  exists e u,
    Nonlinear.__init__ Example.three_state_plant Example.time_line Example.as_ukf = Ok e /\
    Nonlinear.ukf e = Some u /\
    Nonlinear.lambd u = 0%float /\
    Nonlinear.read_weight u (Nonlinear.wm u) 0 = Ok (1 / 6 + 2)%float /\
    Nonlinear.read_weight u (Nonlinear.wc u) 0 = Ok (1 / 6 + 2)%float /\
    Nonlinear.read_weight u (Nonlinear.wm u) 1 = Ok (1 / 6)%float /\
    div (Nonlinear.lambd u) (add (of_nat 3) (Nonlinear.lambd u)) = 0%float /\
    PrimFloat.eqb (1 / 6 + 2)%float 0%float = false /\
    PrimFloat.eqb (1 / 6 + 2)%float 2%float = false.
Proof.
  eexists; eexists.
  split; [reflexivity|]. split; [reflexivity|].
  repeat split; vm_compute; reflexivity.
Qed.

(* ================================================================= *)
(** ** The linear Kalman filter *)

Section KalmanCall.

Context {F : Type} {SF : Scalar F} {LA : LinAlg F}.

Import LinearKalmanFilter.

Lemma call_keeps_backup (f f1 : t F) (u y : list F) :
  __call__ f u y = Ok f1 -> backup f1 = backup f.
Proof.
  unfold __call__.
  repeat (match goal with
          | |- Py.bind ?c _ = Ok _ -> _ =>
              destruct c; cbn [Py.bind]; [|discriminate]
          end).
  intros H; inversion H; reflexivity.
Qed.

Lemma run_keeps_backup (ticks : list (list F * list F)) :
  forall f f1, run f ticks = Ok f1 -> backup f1 = backup f.
Proof.
  induction ticks as [|[u y] ticks IH]; simpl; intros f f1 H.
  - inversion H; reflexivity.
  - destruct (__call__ f u y) as [f2|e] eqn:E; simpl in H; [|discriminate].
    rewrite (IH _ _ H). eapply call_keeps_backup; eauto.
Qed.

End KalmanCall.

(* ================================================================= *)
(** ** The feedthrough matrix at construction *)

Section Feedthrough.

Context {F : Type} {SF : Scalar F} {LA : LinAlg F}.

Lemma all_truthy_false (M : matrix F) : has_zero M -> all_truthy M = false.
Proof.
  intros (row & x & Hrow & Hx & Hz). unfold all_truthy.
  destruct (forallb (forallb truthy) M) eqn:E; [|reflexivity].
  rewrite forallb_forall in E. specialize (E row Hrow).
  rewrite forallb_forall in E. rewrite (E x Hx) in Hz. discriminate.
Qed.

Lemma all_truthy_true (M : matrix F) : all_nonzero M -> all_truthy M = true.
Proof.
  intros H. unfold all_truthy. apply forallb_forall; intros row Hrow.
  apply forallb_forall; intros x Hx. apply (H row x Hrow Hx).
Qed.

(** C10: [LtiGroup] built from a tuple or list and [LinearKalmanFilter]
    replace a feedthrough matrix that has a zero entry by the zero matrix of
    shape (number of outputs, number of inputs), and store one whose entries
    all differ from zero as it was given. *)
Theorem feedthrough_rule (sA sB sC sD : matrix F) (pn mn : option (matrix F))
    (sys : LinearKalmanFilter.system F) (kw : LinearKalmanFilter.kwargs F) :
  (has_zero sD ->
   forall g, LtiGroup.__init__ (sA, sB, sC, sD) pn mn = Ok g ->
             LtiGroup.D g = zeros (LtiGroup.n_outputs g) (LtiGroup.n_inputs g)) /\
  (all_nonzero sD ->
   forall g, LtiGroup.__init__ (sA, sB, sC, sD) pn mn = Ok g -> LtiGroup.D g = sD) /\
  (has_zero (LinearKalmanFilter.given_D sys) ->
   let a := LinearKalmanFilter.self (LinearKalmanFilter.__init__ sys kw) in
   LinearKalmanFilter.D a
   = zeros (LinearKalmanFilter.n_outputs a) (LinearKalmanFilter.n_inputs a)) /\
  (all_nonzero (LinearKalmanFilter.given_D sys) ->
   LinearKalmanFilter.D (LinearKalmanFilter.self (LinearKalmanFilter.__init__ sys kw))
   = LinearKalmanFilter.given_D sys).
Proof.
  repeat split.
  - intros Hz g. unfold LtiGroup.__init__. rewrite (all_truthy_false Hz).
    destruct (if LtiGroup.any_truthy _ then _ else _); simpl; [|discriminate].
    destruct (if LtiGroup.any_truthy _ then _ else _); simpl; [|discriminate].
    intros H; inversion H; reflexivity.
  - intros Hn g. unfold LtiGroup.__init__. rewrite (all_truthy_true Hn).
    destruct (if LtiGroup.any_truthy _ then _ else _); simpl; [|discriminate].
    destruct (if LtiGroup.any_truthy _ then _ else _); simpl; [|discriminate].
    intros H; inversion H; reflexivity.
  - intros Hz. destruct sys; simpl in *; rewrite (all_truthy_false Hz); reflexivity.
  - intros Hn. destruct sys; simpl in *; rewrite (all_truthy_true Hn); reflexivity.
Qed.

End Feedthrough.

(** C10, witness: [D = [[1, 0]]] has a zero entry and becomes the one-by-two
    zero matrix, in the filter and in the group. *)
Lemma feedthrough_rule_witness :
  has_zero [[1%float; 0%float]] /\
  LinearKalmanFilter.D
    (LinearKalmanFilter.self
       (LinearKalmanFilter.__init__
          (LinearKalmanFilter.Tuple [[0.5%float]] [[1%float; 1%float]] [[1%float]]
                                    [[1%float; 0%float]])
          {| LinearKalmanFilter.x_0 := None; LinearKalmanFilter.P_0 := None;
             LinearKalmanFilter.process_noise := None;
             LinearKalmanFilter.measurement_noise := None |}))
  = zeros 1 2 /\
  exists g,
    LtiGroup.__init__ ([[0.5%float]], [[1%float; 1%float]], [[1%float]],
                       [[1%float; 0%float]]) None None = Ok g /\
    LtiGroup.D g = zeros 1 2.
Proof.
  assert (Hz : has_zero (F:=float) [[1%float; 0%float]]).
  { exists [1%float; 0%float], 0%float. simpl; auto. }
  pose proof (feedthrough_rule (F:=float)
                [[0.5%float]] [[1%float; 1%float]] [[1%float]] [[1%float; 0%float]]
                None None
                (LinearKalmanFilter.Tuple [[0.5%float]] [[1%float; 1%float]] [[1%float]]
                                          [[1%float; 0%float]])
                {| LinearKalmanFilter.x_0 := None; LinearKalmanFilter.P_0 := None;
                   LinearKalmanFilter.process_noise := None;
                   LinearKalmanFilter.measurement_noise := None |})
    as (Hgroup & _ & Hfilter & _).
  split; [exact Hz|]. split; [exact (Hfilter Hz)|].
  eexists. split; [reflexivity|].
  exact (Hgroup Hz _ eq_refl).
Defined.

(* ================================================================= *)
(** ** The Jacobians of the plants *)

Section LorenzJacobians.

Context {F : Type} {SF : Scalar F}.

Variable globals : string -> option (matrix F).

(** C9: when the module binds no global [B], every call of
    [Lorenz._jacobians] fails: no call returns, and a call whose three reads
    [x[2, k]], [x[0, k]], [x[1, k]] are in bounds raises [NameError] for the
    name [B] (a read out of bounds raises [IndexError] before the return
    statement is reached). *)
Theorem lorenz_jacobians_name_error :
  globals "B"%string = None ->
  forall (x input_signal : matrix F) (k : nat) (st t : F),
    (forall r, Lorenz._jacobians globals x input_signal k st t <> Ok r) /\
    (forall v2 v0 v1,
        entry x 2 k = Ok v2 -> entry x 0 k = Ok v0 -> entry x 1 k = Ok v1 ->
        Lorenz._jacobians globals x input_signal k st t = Raise (NameError "B")).
Proof.
  intros HB x u k st t. unfold Lorenz._jacobians. rewrite HB. split.
  - intros r.
    destruct (entry x 2 k); simpl; [|discriminate].
    destruct (entry x 0 k); simpl; [|discriminate].
    destruct (entry x 1 k); simpl; discriminate.
  - intros v2 v0 v1 H2 H0 H1. rewrite H2, H0, H1. reflexivity.
Qed.

End LorenzJacobians.

(** C9, witness: the Lorenz plant at its initial state [[1, 1, 1]], in a
    module without globals. *)
Lemma lorenz_jacobians_name_error_witness :
  (fun _ : string => @None (matrix float)) "B"%string = None /\
  Lorenz._jacobians (fun _ => None)
      [[1%float; 0%float]; [1%float; 0%float]; [1%float; 0%float]]
      [[0%float]] 0 1%float 0%float
  = Raise (NameError "B").
Proof.
  split; [reflexivity|].
  apply (proj2 (lorenz_jacobians_name_error (F:=float) (fun _ => None) eq_refl
                  [[1%float; 0%float]; [1%float; 0%float]; [1%float; 0%float]]
                  [[0%float]] 0 1%float 0%float)
               1%float 1%float 1%float); reflexivity.
Defined.

(** [QuadrupleTank._jacobians] writes into the state history it is given:
    called on the history that starts at the plant's initial state
    [[0, 0, 0, 0]], it returns the Jacobians and leaves [0.001] in column 0. *)
Lemma quadruple_tank_jacobians_clamp_history :
  exists x1 J,
    QuadrupleTank._jacobians
      [[0%float; 0%float]; [0%float; 0%float]; [0%float; 0%float]; [0%float; 0%float]]
      [[0%float]; [0%float]] 0 1%float 0%float = Ok (x1, J) /\
    x1 = [[0.001%float; 0%float]; [0.001%float; 0%float];
          [0.001%float; 0%float]; [0.001%float; 0%float]].
Proof.
  eexists; eexists; split; [reflexivity|]. vm_compute. reflexivity.
Qed.

(* ================================================================= *)
(** ** The estimator ticks *)

(** The engines of the examples are the ones the constructor returns. *)
Lemma example_engines_constructed :
  Nonlinear.__init__ Example.scalar_plant Example.time_line Example.as_ekf
  = Ok Example.ekf_engine /\
  Nonlinear.__init__ Example.scalar_plant Example.time_line Example.as_ukf
  = Ok Example.ukf_engine.
Proof. split; vm_compute; reflexivity. Qed.

Section Ticks.

Context {F : Type} {SF : Scalar F} {LA : LinAlg F} {SC : SolverCore F}.

Import Nonlinear.

Ltac step_bind H :=
  match type of H with
  | Py.bind ?c _ = Ok _ =>
      let E := fresh "E" in
      destruct c eqn:E; simpl in H; [|discriminate H]
  | context [match ?a with pair _ _ => _ end] =>
      is_var a; destruct a; simpl in H
  end.

Lemma store_ok (e e1 : t F) (i o s xm Pm : matrix F) :
  store e i o s xm Pm = Ok e1 ->
  set_col s (current_step e + 1) (flatten xm) = Ok (states e1) /\
  inputs e1 = i /\ outputs e1 = o /\ inst_covariance e1 = Some Pm /\
  current_step e1 = current_step e + 1.
Proof.
  unfold store; intros H. step_bind H. inversion H; subst; simpl. auto.
Qed.

Lemma ekf_predict_records (e : t F) (u y : list F) (pr : @Prediction F) :
  ekf_predict e u y = Ok pr ->
  set_col (inputs e) (current_step e) u = Ok (pr_inputs pr) /\
  set_col (outputs e) (current_step e) y = Ok (pr_outputs pr).
Proof.
  unfold ekf_predict; intros H.
  repeat step_bind H.
  inversion H; subst; simpl; auto.
Qed.

Lemma ukf_predict_records (e : t F) (u y : list F)
    (pr : @Prediction F) (ss : @SigmaSet F) :
  ukf_predict e u y = Ok (pr, ss) ->
  set_col (inputs e) (current_step e) u = Ok (pr_inputs pr) /\
  set_col (outputs e) (current_step e) y = Ok (pr_outputs pr).
Proof.
  unfold ukf_predict; intros H.
  repeat step_bind H.
  inversion H; subst; simpl; auto.
Qed.

(** C3: on a tick whose output vector has a not-a-number entry, the EKF and
    the UKF store the prediction: the tick is the prediction followed by the
    storing of the predicted state and of the predicted covariance, so it
    raises only what the prediction or the storing raises; and when it
    returns, column [k+1] of the state history has been assigned the
    predicted state and the covariance is the predicted covariance. *)
Theorem missing_measurement_prediction_only (e : t F) (u y : list F) :
  any_isnan y = true ->
  (__nextstepEKF e u y =
     (pr <- ekf_predict e u y ;;
      store e (pr_inputs pr) (pr_outputs pr) (pr_states pr) (pr_x pr) (pr_P pr))) /\
  (__nextstepUKF e u y =
     ('(pr, ss) <- ukf_predict e u y ;;
      store e (pr_inputs pr) (pr_outputs pr) (pr_states pr) (pr_x pr) (pr_P pr))) /\
  (forall e1, __nextstepEKF e u y = Ok e1 ->
     exists pr, ekf_predict e u y = Ok pr /\
       set_col (pr_states pr) (current_step e + 1) (flatten (pr_x pr)) = Ok (states e1) /\
       self_covariance e1 = pr_P pr) /\
  (forall e1, __nextstepUKF e u y = Ok e1 ->
     exists pr ss, ukf_predict e u y = Ok (pr, ss) /\
       set_col (pr_states pr) (current_step e + 1) (flatten (pr_x pr)) = Ok (states e1) /\
       self_covariance e1 = pr_P pr).
Proof.
  intros Hnan.
  assert (HE : __nextstepEKF e u y =
     (pr <- ekf_predict e u y ;;
      store e (pr_inputs pr) (pr_outputs pr) (pr_states pr) (pr_x pr) (pr_P pr))).
  { unfold __nextstepEKF, ekf_posterior. rewrite Hnan. reflexivity. }
  assert (HU : __nextstepUKF e u y =
     ('(pr, ss) <- ukf_predict e u y ;;
      store e (pr_inputs pr) (pr_outputs pr) (pr_states pr) (pr_x pr) (pr_P pr))).
  { unfold __nextstepUKF, ukf_posterior. rewrite Hnan. simpl negb. cbv iota.
    destruct (ukf_predict e u y) as [[pr ss]|]; reflexivity. }
  split; [exact HE|]. split; [exact HU|]. split.
  - intros e1 H. rewrite HE in H. step_bind H.
    apply store_ok in H. destruct H as (Hs & _ & _ & Hc & _).
    exists a. unfold self_covariance. rewrite Hc. auto.
  - intros e1 H. rewrite HU in H.
    destruct (ukf_predict e u y) as [[pr ss]|] eqn:E; simpl in H; [|discriminate].
    apply store_ok in H. destruct H as (Hs & _ & _ & Hc & _).
    exists pr, ss. unfold self_covariance. rewrite Hc. auto.
Qed.

(** C7 (amended): a tick that returns has recorded both of its arguments at
    column [k] of the input and output histories, by the same assignment
    whether or not the output has a not-a-number entry. *)
Theorem tick_records_input_and_output (e e1 : t F) (u y : list F) :
  __nextstepEKF e u y = Ok e1 \/ __nextstepUKF e u y = Ok e1 ->
  set_col (inputs e) (current_step e) u = Ok (inputs e1) /\
  set_col (outputs e) (current_step e) y = Ok (outputs e1).
Proof.
  intros [H|H].
  - unfold __nextstepEKF in H. repeat step_bind H.
    apply store_ok in H. destruct H as (_ & Hi & Ho & _).
    apply ekf_predict_records in E. rewrite Hi, Ho. exact E.
  - unfold __nextstepUKF in H. repeat step_bind H.
    apply store_ok in H. destruct H as (_ & Hi & Ho & _).
    apply ukf_predict_records in E. rewrite Hi, Ho. exact E.
Qed.

Lemma col_set_col_other (M M1 : matrix F) (i j : nat) (v : list F) :
  set_col M i v = Ok M1 -> j <> i -> col j M1 = col j M.
Proof.
  unfold set_col. destruct (i <? ncols M); [|discriminate].
  intros H Hj. unfold col.
  destruct (Nat.eqb_spec (length v) (nrows M)) as [Hlen|_].
  - inversion H; subst; clear H. unfold nrows in Hlen. revert v Hlen.
    induction M as [|row M IH]; intros [|x v] Hlen; simpl in *; try discriminate; auto.
    rewrite nth_set_nth_other by lia. f_equal. apply IH. lia.
  - destruct v as [|x [|y v]]; try discriminate.
    inversion H; subst; clear H. rewrite map_map.
    apply map_ext. intros row. apply nth_set_nth_other. lia.
Qed.

(** An EKF tick over a plant whose [_jacobians] leaves the history as it
    was given writes the state history at column [k+1] only. *)
Lemma ekf_tick_writes_next_column_only (e e1 : t F) (u y : list F) :
  (forall x i k st t' x1 J, _jacobians (plant e) x i k st t' = Ok (x1, J) -> x1 = x) ->
  __nextstepEKF e u y = Ok e1 ->
  forall j, j <> current_step e + 1 -> col j (states e1) = col j (states e).
Proof.
  intros Hpure H j Hj.
  unfold __nextstepEKF in H. repeat step_bind H.
  apply store_ok in H. destruct H as (Hs & _).
  rewrite (@col_set_col_other _ _ _ j _ Hs Hj).
  assert (Hkeep : pr_states a = states e); [|rewrite Hkeep; reflexivity].
  unfold ekf_predict in E. repeat step_bind E.
  match goal with
  | Hjac : _jacobians _ _ _ _ _ _ = Ok _ |- _ => apply Hpure in Hjac; subst
  end.
  inversion E; subst; reflexivity.
Qed.

End Ticks.

(** C3, witness: the scalar EKF of the examples, fed a not-a-number output. *)
Lemma missing_measurement_prediction_only_witness :
  any_isnan [PrimFloat.nan] = true /\
  exists e1 pr,
    Nonlinear.__nextstepEKF Example.ekf_engine [1%float] [PrimFloat.nan] = Ok e1 /\
    Nonlinear.ekf_predict Example.ekf_engine [1%float] [PrimFloat.nan] = Ok pr /\
    set_col (Nonlinear.pr_states pr) 1 (flatten (Nonlinear.pr_x pr))
    = Ok (Nonlinear.states e1) /\
    Nonlinear.self_covariance e1 = Nonlinear.pr_P pr.
Proof.
  assert (Hnan : any_isnan [PrimFloat.nan] = true) by reflexivity.
  split; [exact Hnan|].
  assert (He : exists e1,
             Nonlinear.__nextstepEKF Example.ekf_engine [1%float] [PrimFloat.nan] = Ok e1)
    by (eexists; reflexivity).
  destruct He as [e1 He].
  destruct (proj1 (proj2 (proj2
              (missing_measurement_prediction_only Example.ekf_engine
                 [1%float] [PrimFloat.nan] Hnan))) e1 He) as (pr & Hp & Hs & Hc).
  exists e1, pr. auto.
Defined.

(** The same two ticks in numbers: from [x = 1], [P = 1] and [u = 1] the
    EKF predicts [x = 1.5] and [P = 0.5], and that is what it stores; the UKF
    predicts [x = 5.25] and [P = 49.71875] from its sigma points [1], [2],
    [0] and weights [2.5], [0.5], [0.5], and stores that. *)
Lemma missing_measurement_ticks_in_numbers :
  Example.observe (Nonlinear.estimate Example.ekf_engine [1%float] [PrimFloat.nan])
  = Ok (1, [[1%float; 0%float; 0%float; 0%float]],
        [[PrimFloat.nan; 0%float; 0%float; 0%float]],
        [[1%float; 1.5%float; 0%float; 0%float; 0%float]], [[0.5%float]]) /\
  Example.observe (Nonlinear.estimate Example.ukf_engine [1%float] [PrimFloat.nan])
  = Ok (1, [[1%float; 0%float; 0%float; 0%float]],
        [[PrimFloat.nan; 0%float; 0%float; 0%float]],
        [[0%float; 5.25%float; 0%float; 0%float; 0%float]], [[49.71875%float]]).
Proof. split; vm_compute; reflexivity. Qed.

(** C7, witness: the not-a-number output of that tick is in the history. *)
Lemma tick_records_input_and_output_witness :
  exists e1,
    Nonlinear.__nextstepEKF Example.ekf_engine [1%float] [PrimFloat.nan] = Ok e1 /\
    set_col (Nonlinear.inputs Example.ekf_engine) 0 [1%float] = Ok (Nonlinear.inputs e1) /\
    set_col (Nonlinear.outputs Example.ekf_engine) 0 [PrimFloat.nan]
    = Ok (Nonlinear.outputs e1).
Proof.
  assert (He : exists e1,
             Nonlinear.__nextstepEKF Example.ekf_engine [1%float] [PrimFloat.nan] = Ok e1)
    by (eexists; reflexivity).
  destruct He as [e1 He]. exists e1. split; [exact He|].
  exact (tick_records_input_and_output Example.ekf_engine [1%float] [PrimFloat.nan]
           (or_introl He)).
Defined.

(** C7, counterexample: after an EKF or a UKF tick with a not-a-number
    output the output history is not what it was: its entry of column 0 is
    not-a-number, and was zero. *)
Lemma nan_output_recorded_counterexample :
  (exists e1,
      Nonlinear.estimate Example.ekf_engine [1%float] [PrimFloat.nan] = Ok e1 /\
      Nonlinear.outputs e1 <> Nonlinear.outputs Example.ekf_engine) /\
  (exists e1,
      Nonlinear.estimate Example.ukf_engine [1%float] [PrimFloat.nan] = Ok e1 /\
      Nonlinear.outputs e1 <> Nonlinear.outputs Example.ukf_engine).
Proof.
  split; eexists; (split; [reflexivity|]); intros H;
    apply (f_equal (fun M : matrix float =>
                      match M with
                      | (x :: _) :: _ => PrimFloat.is_nan x
                      | _ => false
                      end)) in H;
    vm_compute in H; discriminate H.
Qed.

(** C4: a UKF tick at step 0 overwrites column 0 of the state history: the
    initial condition [1] is replaced by the last sigma point, [0]. *)
Lemma ukf_tick_overwrites_current_column :
  exists e1,
    Nonlinear.estimate Example.ukf_engine [1%float] [PrimFloat.nan] = Ok e1 /\
    col 0 (Nonlinear.states Example.ukf_engine) = [1%float] /\
    col 0 (Nonlinear.states e1) = [0%float].
Proof.
  eexists; split; [reflexivity|]. split; vm_compute; reflexivity.
Qed.

(* ================================================================= *)
(** ** Reset *)

Section Reset.

Context {F : Type} {SF : Scalar F} {LA : LinAlg F}.

(** C5 (amended): [reset] of a [LinearKalmanFilter] returns every attribute
    to its value at construction, so a second run from reset reproduces the
    first; [reset] of a [Nonlinear] engine and of a [Scope] returns the step
    counter to 0 and leaves the history buffers as they are. *)
Theorem reset_restores (sys : LinearKalmanFilter.system F)
    (kw : LinearKalmanFilter.kwargs F) (ticks : list (list F * list F))
    (f1 : LinearKalmanFilter.t F) :
  LinearKalmanFilter.run (LinearKalmanFilter.__init__ sys kw) ticks = Ok f1 ->
  LinearKalmanFilter.reset f1 = LinearKalmanFilter.__init__ sys kw /\
  (forall again,
      LinearKalmanFilter.run (LinearKalmanFilter.reset f1) again
      = LinearKalmanFilter.run (LinearKalmanFilter.__init__ sys kw) again) /\
  (forall e : Nonlinear.t F,
      Nonlinear.current_step (Nonlinear.reset e) = 0 /\
      Nonlinear.inputs (Nonlinear.reset e) = Nonlinear.inputs e /\
      Nonlinear.outputs (Nonlinear.reset e) = Nonlinear.outputs e /\
      Nonlinear.states (Nonlinear.reset e) = Nonlinear.states e) /\
  (forall s : Scope.t F,
      Scope.current_step (Scope.reset s) = 0 /\
      Scope.signals (Scope.reset s) = Scope.signals s).
Proof.
  intros Hrun.
  assert (Hreset : LinearKalmanFilter.reset f1 = LinearKalmanFilter.__init__ sys kw).
  { unfold LinearKalmanFilter.reset.
    rewrite (run_keeps_backup _ _ Hrun).
    unfold LinearKalmanFilter.__init__.
    destruct sys; reflexivity. }
  split; [exact Hreset|]. split.
  - intros again. rewrite Hreset. reflexivity.
  - split; intros; repeat split.
Qed.

End Reset.

(** C5, witness: the scalar filter after two calls. *)
Lemma reset_restores_witness :
  exists f1,
    LinearKalmanFilter.run Example.scalar_filter
      [([1%float], [2%float]); ([1%float], [2.5%float])] = Ok f1 /\
    LinearKalmanFilter.reset f1 = Example.scalar_filter.
Proof.
  assert (Hf : exists f1,
             LinearKalmanFilter.run Example.scalar_filter
               [([1%float], [2%float]); ([1%float], [2.5%float])] = Ok f1)
    by (eexists; reflexivity).
  destruct Hf as [f1 Hf]. exists f1. split; [exact Hf|].
  exact (proj1 (reset_restores
                  (LinearKalmanFilter.Tuple [[0.5%float]] [[1%float]] [[1%float]] [[0%float]])
                  _ _ Hf)).
Defined.

(** C5, counterexample: after one EKF tick and [reset], the covariance of
    the engine is the posterior [1/3] and not the [1] it was constructed
    with, and the input history keeps the recorded input. *)
Lemma reset_keeps_covariance_counterexample :
  exists e1,
    Nonlinear.estimate Example.ekf_engine [1%float] [2%float] = Ok e1 /\
    Nonlinear.self_covariance (Nonlinear.reset e1)
    <> Nonlinear.self_covariance Example.ekf_engine /\
    Nonlinear.inputs (Nonlinear.reset e1) <> Nonlinear.inputs Example.ekf_engine.
Proof.
  eexists; split; [reflexivity|]. split; intros H;
    apply (f_equal (fun M : matrix float =>
                      match M with
                      | (x :: _) :: _ => PrimFloat.eqb x 1%float
                      | _ => false
                      end)) in H;
    vm_compute in H; discriminate H.
Qed.

(* ================================================================= *)
(** ** The recorder *)

Section ScopeFacts.

Context {F : Type} {SF : Scalar F}.

Import Scope.

Lemma norm_index_valid (len : nat) (i : Z) :
  valid_index len i -> exists j, norm_index len i = Ok j /\ j < len.
Proof.
  unfold valid_index, norm_index; intros H.
  destruct (Z.leb_spec 0 i), (Z.ltb_spec i (Z.of_nat len)); simpl; try lia.
  - exists (Z.to_nat i); split; [reflexivity|lia].
  - destruct (Z.leb_spec (- Z.of_nat len) i), (Z.ltb_spec i 0); simpl; try lia.
    exists (Z.to_nat (i + Z.of_nat len)); split; [reflexivity|lia].
Qed.

Lemma norm_index_of_nat (len j : nat) : j < len -> norm_index len (Z.of_nat j) = Ok j.
Proof.
  unfold norm_index; intros H.
  destruct (Z.leb_spec 0 (Z.of_nat j)), (Z.ltb_spec (Z.of_nat j) (Z.of_nat len));
    simpl; try lia.
  rewrite Nat2Z.id; reflexivity.
Qed.

Lemma pick_rows_valid (M : matrix F) (c : nat) (rows : list Z) :
  Forall (valid_index (length M)) rows ->
  Forall (fun row => length row = c) M ->
  exists a, pick_rows M (length M) rows = Ok a /\
            length a = length rows /\
            Forall (fun row => length row = c) a.
Proof.
  intros Hrows HM; induction Hrows as [|i rows Hi Hrows IH]; simpl.
  - exists []; auto.
  - destruct (norm_index_valid Hi) as (j & Hj & Hlt). rewrite Hj; simpl.
    destruct IH as (a & Ha & Hlen & Hc). rewrite Ha; simpl.
    exists (nth j M [] :: a); repeat split; simpl; auto.
    constructor; auto.
    rewrite Forall_forall in HM. apply HM. apply nth_In; exact Hlt.
Qed.

Lemma skipn_nth_cons (M : matrix F) (s : nat) :
  s < length M -> skipn s M = nth s M [] :: skipn (S s) M.
Proof.
  revert s; induction M as [|r M IH]; intros [|s] H; simpl in *; try lia; auto.
  apply IH; lia.
Qed.

(** Picking the rows [s, s+1, ..., s+k-1] is slicing. *)
Lemma pick_rows_seq (M : matrix F) (k : nat) :
  forall s, s + k <= length M ->
            pick_rows M (length M) (map Z.of_nat (seq s k)) = Ok (firstn k (skipn s M)).
Proof.
  induction k as [|k IH]; intros s H; simpl.
  - reflexivity.
  - rewrite norm_index_of_nat by lia; simpl.
    rewrite IH by lia; simpl.
    rewrite (@skipn_nth_cons M s) by lia. reflexivity.
Qed.

Lemma size_as_row (a : ndarray F) : size (as_row a) = size a.
Proof. unfold size at 1, as_row; cbn [shape fst snd]. apply Nat.mul_1_l. Qed.

(** A one-column array is its own column reshape, and multiplying it by the
    array of ones leaves it as it is when [x * (0 + 1) = x]. *)
Lemma column_times_ones (rows : matrix F) :
  (forall x, mul x (add zero one) = x) ->
  Forall (fun row => length row = 1) rows ->
  map2 (fun cr row => map (mul (hd zero cr)) row)
       (column (flatten rows))
       (map (map (fun x => add x one)) (zeros (length rows) 1))
  = rows.
Proof.
  intros Hone H; induction H as [|row rows Hrow H IH]; simpl; [reflexivity|].
  destruct row as [|x [|y row]]; simpl in Hrow; try discriminate.
  simpl. rewrite Hone. f_equal. exact IH.
Qed.

(** The constructor keeps a well-formed [initial] whose shape is
    [(n_signals, size of the time line)] as the signal array. *)
Lemma scope_init_keeps_initial (tl initial : ndarray F) (r : nat) :
  (forall x, mul x (add zero one) = x) ->
  1 <= size tl ->
  wf_array initial ->
  fst (shape initial) = r ->
  snd (shape initial) = size tl ->
  exists s,
    __init__ tl r initial = Ok s /\
    data (signals s) = data initial /\
    shape (signals s) = (r, size tl) /\
    n_signals s = r /\
    time_line s = as_row tl.
Proof.
  intros Hone HT [Hlen Hrows] Hr Hc.
  unfold __init__. rewrite size_as_row.
  set (T := size tl) in *. rewrite Hr, Hc in *.
  destruct (Nat.eqb_spec (r + T) r) as [E|_]; [lia|].
  destruct (Nat.eqb_spec (r + T) (r + 1)) as [E1|N1]; simpl.
  - (* a single instant *)
    assert (T = 1) by lia.
    unfold column_times, as_column, plus_one, np_zeros, size; simpl.
    rewrite Hr, Hc, H. replace (r * 1) with r by lia. rewrite Nat.eqb_refl. simpl.
    eexists; split; [reflexivity|]; simpl.
    rewrite <- Hlen at 1. rewrite column_times_ones; auto.
    rewrite <- H. exact Hrows.
  - destruct (Nat.eqb_spec (r + T) 1) as [E2|_]; [lia|].
    destruct (Nat.eqb_spec (r + T) 2) as [E3|_]; simpl.
    + (* no signal, two instants *)
      assert (r = 0) by lia. subst r.
      eexists; split; [reflexivity|]; simpl.
      destruct (data initial); simpl in *; [auto|discriminate].
    + rewrite !Nat.eqb_refl. simpl.
      eexists; split; [reflexivity|]; simpl.
      repeat split; auto. destruct (shape initial); simpl in *; subst; reflexivity.
Qed.

Lemma take_valid (a : ndarray F) (rows : list Z) :
  wf_array a ->
  Forall (valid_index (fst (shape a))) rows ->
  exists b, take a rows = Ok b /\ wf_array b /\
            shape b = (length rows, snd (shape a)) /\
            pick_rows (data a) (length (data a)) rows = Ok (data b).
Proof.
  intros [Hlen Hrows] Hv. unfold take. rewrite <- Hlen in *.
  destruct (pick_rows_valid Hv Hrows) as (d & Hd & Hl & Hc).
  rewrite Hd; simpl. eexists; split; [reflexivity|].
  repeat split; simpl; auto.
Qed.

(** C8 (amended): for two well-formed scopes over the same (non-empty) time
    line and a list [rows] of valid row indices,
    [scope_1.append(scope_2, rows)] returns a scope whose first [len(rows)]
    rows are [scope_1.signals[rows]] and whose remaining rows are
    [scope_2.signals[rows]]; selecting the positions [0 .. len(rows)-1] of
    the result gives the first sub-matrix back, and selecting the positions
    [len(rows) .. 2 len(rows)-1] gives the second.  The indices [rows]
    themselves do not address these rows in the result. *)
Theorem append_then_select (s1 s2 : t F) (rows : list Z) :
  (forall x, mul x (add zero one) = x) ->
  wf s1 -> wf s2 ->
  time_line s1 = time_line s2 ->
  1 <= size (time_line s1) ->
  Forall (valid_index (n_signals s1)) rows ->
  Forall (valid_index (n_signals s2)) rows ->
  exists a b r r1 r2,
    take (signals s1) rows = Ok a /\
    take (signals s2) rows = Ok b /\
    append s1 (One s2) (Some rows) = Ok r /\
    firstn (length rows) (data (signals r)) = data a /\
    skipn (length rows) (data (signals r)) = data b /\
    select r (map Z.of_nat (seq 0 (length rows))) = Ok r1 /\
    data (signals r1) = data a /\
    select r (map Z.of_nat (seq (length rows) (length rows))) = Ok r2 /\
    data (signals r2) = data b.
Proof.
  intros Hone (Hw1 & Hn1 & Hc1) (Hw2 & Hn2 & Hc2) Htl HT Hv1 Hv2.
  rewrite <- Hn1 in Hv1. rewrite <- Hn2 in Hv2.
  destruct (take_valid Hw1 Hv1) as (a & Ha & Hwa & Hsa & _).
  destruct (take_valid Hw2 Hv2) as (b & Hb & Hwb & Hsb & _).
  set (m := length rows) in *.
  assert (Hla : length (data a) = m) by (destruct Hwa as [H _]; rewrite Hsa in H; exact H).
  assert (Hlb : length (data b) = m) by (destruct Hwb as [H _]; rewrite Hsb in H; exact H).
  set (T := size (time_line s1)) in *.
  assert (HcT : snd (shape (signals s2)) = T) by (rewrite Hc2, <- Htl; reflexivity).
  (* the concatenation handed to the constructor *)
  set (ab := {| shape := (fst (shape a) + fst (shape b), snd (shape a));
                data := data a ++ data b |}).
  assert (Hcat : concatenate a b = Ok ab).
  { unfold concatenate. rewrite Hsa, Hsb; simpl. rewrite Hc1, HcT, Nat.eqb_refl.
    unfold ab. rewrite Hsa, Hsb; simpl. rewrite Hc1. reflexivity. }
  assert (Hwab : wf_array ab).
  { unfold wf_array, ab; simpl. rewrite Hsa, Hsb; simpl. split.
    - rewrite length_app; lia.
    - apply Forall_app; split.
      + destruct Hwa as [_ H]; rewrite Hsa in H; exact H.
      + destruct Hwb as [_ H]; rewrite Hsb in H; simpl in H.
        rewrite HcT in H. rewrite Hc1. exact H. }
  destruct (@scope_init_keeps_initial (time_line s1) ab (2 * m) Hone HT Hwab)
    as (r & Hr & Hdr & Hshr & Hnr & Htr).
  { unfold ab; simpl. rewrite Hsa, Hsb; simpl. lia. }
  { unfold ab; simpl. rewrite Hsa; simpl. exact Hc1. }
  assert (Happ : append s1 (One s2) (Some rows) = Ok r).
  { unfold append. rewrite Ha; simpl. rewrite Hb; simpl. rewrite Hcat; simpl. exact Hr. }
  assert (Hdata : data (signals r) = data a ++ data b) by exact Hdr.
  assert (Hlr : length (data (signals r)) = 2 * m) by (rewrite Hdata, length_app; lia).
  (* selecting a slice of [m] rows from the result *)
  assert (Hsel : forall s, s + m <= 2 * m ->
            exists r', select r (map Z.of_nat (seq s m)) = Ok r' /\
                       data (signals r') = firstn m (skipn s (data (signals r)))).
  { intros s Hs. unfold select, take. rewrite Hshr; cbn [fst snd].
    rewrite <- Hlr. rewrite pick_rows_seq by lia. cbn [Py.bind].
    rewrite length_map, length_seq.
    set (sl := {| shape := (m, T); data := firstn m (skipn s (data (signals r))) |}).
    destruct (@scope_init_keeps_initial (time_line r) sl m Hone) as (r' & Hr' & Hd' & _).
    - rewrite Htr, size_as_row. exact HT.
    - unfold wf_array, sl; simpl. split.
      + rewrite length_firstn, length_skipn. lia.
      + apply Forall_forall. intros row Hin.
        apply in_firstn, in_skipn in Hin.
        destruct Hwab as [_ Hall]. rewrite Forall_forall in Hall.
        rewrite Hdata in Hin. specialize (Hall row Hin).
        unfold ab in Hall; simpl in Hall. rewrite Hsa in Hall; simpl in Hall.
        rewrite Hall. exact Hc1.
    - reflexivity.
    - unfold sl; simpl. rewrite Htr, size_as_row. reflexivity.
    - exists r'; split; [exact Hr'|exact Hd']. }
  destruct (Hsel 0) as (r1 & Hr1 & Hd1); [lia|].
  destruct (Hsel m) as (r2 & Hr2 & Hd2); [lia|].
  assert (Hfirst : firstn m (data (signals r)) = data a).
  { rewrite Hdata, firstn_app, Hla, Nat.sub_diag; simpl.
    rewrite <- Hla, firstn_all, app_nil_r. reflexivity. }
  assert (Hrest : skipn m (data (signals r)) = data b).
  { rewrite Hdata, skipn_app, Hla, Nat.sub_diag; simpl.
    rewrite <- Hla, skipn_all. reflexivity. }
  exists a, b, r, r1, r2. repeat split; auto.
  - rewrite Hd1. simpl. exact Hfirst.
  - rewrite Hd2, Hrest, <- Hlb. apply firstn_all.
Qed.

End ScopeFacts.

(** In exact arithmetic multiplying by [0 + 1] changes nothing. *)
Lemma exact_times_one (x : Qc) : mul x (add zero one) = x.
Proof. simpl. ring. Qed.

(** C8, witness: two scopes of two signals over two instants, and the index
    list [[1, -2]] (the second row, then the first counted from the end). *)
Lemma append_then_select_witness :
  exists a b r r1 r2,
    Scope.take (Scope.signals ExactExample.scope_1) [1%Z; (-2)%Z] = Ok a /\
    Scope.take (Scope.signals ExactExample.scope_2) [1%Z; (-2)%Z] = Ok b /\
    Scope.append ExactExample.scope_1 (Scope.One ExactExample.scope_2)
                 (Some [1%Z; (-2)%Z]) = Ok r /\
    firstn 2 (Scope.data (Scope.signals r)) = Scope.data a /\
    skipn 2 (Scope.data (Scope.signals r)) = Scope.data b /\
    Scope.select r (map Z.of_nat (seq 0 2)) = Ok r1 /\
    Scope.data (Scope.signals r1) = Scope.data a /\
    Scope.select r (map Z.of_nat (seq 2 2)) = Ok r2 /\
    Scope.data (Scope.signals r2) = Scope.data b.
Proof.
  apply (@append_then_select Qc Exact.scalar ExactExample.scope_1 ExactExample.scope_2
           [1%Z; (-2)%Z] exact_times_one).
  - repeat split; repeat constructor.
  - repeat split; repeat constructor.
  - reflexivity.
  - vm_compute; lia.
  - repeat constructor; unfold Scope.valid_index; simpl; lia.
  - repeat constructor; unfold Scope.valid_index; simpl; lia.
Defined.

(** The same call in numbers. *)
Lemma append_in_numbers :
  exists r,
    Scope.append ExactExample.scope_1 (Scope.One ExactExample.scope_2)
                 (Some [1%Z; (-2)%Z]) = Ok r /\
    Scope.data (Scope.signals r)
    = [[ExactExample.quarter; Q2Qc 0]; [ExactExample.unit; ExactExample.half];
       [ExactExample.unit; ExactExample.unit]; [ExactExample.half; ExactExample.half]] /\
    Scope.n_signals r = 4.
Proof.
  eexists; split; [reflexivity|]. split; reflexivity.
Qed.

(** C8, counterexample: with the index list [[1]], the result of [append]
    has two rows, the second rows of the two scopes; selecting [[1]] from it
    returns the row of [scope_2], which is neither [scope_1.signals[[1]]] nor
    the appended matrix. *)
Lemma append_then_select_counterexample :
  exists a r r1,
    Scope.take (Scope.signals ExactExample.scope_1) [1%Z] = Ok a /\
    Scope.append ExactExample.scope_1 (Scope.One ExactExample.scope_2) (Some [1%Z])
    = Ok r /\
    Scope.select r [1%Z] = Ok r1 /\
    Scope.data (Scope.signals r1) = [[ExactExample.unit; ExactExample.unit]] /\
    Scope.data (Scope.signals r1) <> Scope.data a /\
    Scope.data (Scope.signals r1) <> Scope.data (Scope.signals r).
Proof.
  eexists; eexists; eexists.
  split; [reflexivity|]. split; [reflexivity|]. split; [reflexivity|].
  split; [reflexivity|]. split; intros H.
  - apply (f_equal (fun M : matrix Qc =>
                      match M with
                      | (x :: _) :: _ => Qc_eq_bool x ExactExample.unit
                      | _ => false
                      end)) in H.
    vm_compute in H. discriminate H.
  - apply (f_equal (@length (list Qc))) in H. vm_compute in H. discriminate H.
Qed.

(* ================================================================= *)
(** ** Products with the identity matrix *)

Section IdentityProducts.

Context {F : Type} {SF : Scalar F}.

Hypothesis laws : exact_arithmetic.

Lemma map_nth_seq (A : Type) (l : list A) (d : A) :
  map (fun j => nth j l d) (seq 0 (length l)) = l.
Proof.
  induction l as [|a l IH]; simpl; [reflexivity|].
  rewrite <- seq_shift, map_map. simpl. rewrite IH. reflexivity.
Qed.

Lemma nth_map_seq (A : Type) (f : nat -> A) (n j : nat) (d : A) :
  j < n -> nth j (map f (seq 0 n)) d = f j.
Proof.
  intros H. rewrite (nth_indep _ d (f 0)) by (rewrite length_map, length_seq; exact H).
  rewrite map_nth, seq_nth by exact H. reflexivity.
Qed.

Ltac split_ranges :=
  repeat match goal with
         | |- context [(?a <=? ?b) && (?c <? ?d)] =>
             let E := fresh "E" in
             destruct ((a <=? b) && (c <? d)) eqn:E;
             rewrite ?andb_true_iff, ?andb_false_iff, ?Nat.leb_le, ?Nat.ltb_lt,
               ?Nat.leb_gt, ?Nat.ltb_ge in E
         end.

Lemma nth_pred_cons (x : F) (v : list F) (i s : nat) :
  s < i -> nth (i - s) (x :: v) zero = nth (i - S s) v zero.
Proof.
  intros H. destruct (i - s) as [|d] eqn:E; [lia|].
  replace (i - S s) with d by lia. reflexivity.
Qed.

(** The products of a vector with the indicator of [i] among the indices
    [s, s+1, ..., s+c-1]. *)
Lemma vdot_indicator_l (i : nat) (v : list F) :
  forall s, vdot (map (fun j => if i =? j then one else zero) (seq s (length v))) v
            = if (s <=? i) && (i <? s + length v) then nth (i - s) v zero else zero.
Proof.
  unfold vdot. induction v as [|x v IH]; intros s.
  - simpl. destruct ((s <=? i) && (i <? s + 0)); [destruct (i - s)|]; reflexivity.
  - cbn [length seq map map2 fold_right]. rewrite IH. clear IH.
    split_ranges; destruct (Nat.eqb_spec i s) as [->|Hne];
      rewrite ?(mul_one_l laws), ?(mul_zero_l laws), ?(add_zero_l laws),
        ?(add_zero_r laws); try lia.
    + symmetry; apply nth_pred_cons; lia.
    + rewrite Nat.sub_diag; reflexivity.
    + reflexivity.
Qed.

Lemma vdot_indicator_r (i : nat) (v : list F) :
  forall s, vdot v (map (fun j => if i =? j then one else zero) (seq s (length v)))
            = if (s <=? i) && (i <? s + length v) then nth (i - s) v zero else zero.
Proof.
  unfold vdot. induction v as [|x v IH]; intros s.
  - simpl. destruct ((s <=? i) && (i <? s + 0)); [destruct (i - s)|]; reflexivity.
  - cbn [length seq map map2 fold_right]. rewrite IH. clear IH.
    split_ranges; destruct (Nat.eqb_spec i s) as [->|Hne];
      rewrite ?(mul_one_r laws), ?(mul_zero_r laws), ?(add_zero_l laws),
        ?(add_zero_r laws); try lia.
    + symmetry; apply nth_pred_cons; lia.
    + rewrite Nat.sub_diag; reflexivity.
    + reflexivity.
Qed.

Lemma vdot_basis_l (c i : nat) (v : list F) :
  length v = c -> i < c -> vdot (basis c i) v = nth i v zero.
Proof.
  intros Hv Hi. unfold basis. rewrite <- Hv, vdot_indicator_l. simpl.
  replace (i <? length v) with true by (symmetry; apply Nat.ltb_lt; lia).
  rewrite Nat.sub_0_r. reflexivity.
Qed.

Lemma vdot_basis_r (c i : nat) (v : list F) :
  length v = c -> i < c -> vdot v (basis c i) = nth i v zero.
Proof.
  intros Hv Hi. unfold basis. rewrite <- Hv, vdot_indicator_r. simpl.
  replace (i <? length v) with true by (symmetry; apply Nat.ltb_lt; lia).
  rewrite Nat.sub_0_r. reflexivity.
Qed.

Lemma basis_length (c i : nat) : length (basis (F:=F) c i) = c.
Proof. unfold basis. rewrite length_map, length_seq. reflexivity. Qed.

Lemma eye_ncols (n : nat) : ncols (eye (F:=F) n) = n.
Proof.
  destruct n as [|n]; [reflexivity|].
  unfold eye, eye2. simpl. rewrite length_map, length_seq. reflexivity.
Qed.

Lemma col_eye (n j : nat) : j < n -> col j (eye (F:=F) n) = basis n j.
Proof.
  intros Hj. unfold col, eye, eye2, basis. rewrite map_map.
  apply map_ext_in. intros i Hi. apply in_seq in Hi.
  rewrite nth_map_seq by exact Hj. rewrite Nat.eqb_sym. reflexivity.
Qed.

Lemma transpose_eye (n : nat) : transpose (eye (F:=F) n) = eye n.
Proof.
  unfold transpose. rewrite eye_ncols. unfold eye at 2, eye2.
  apply map_ext_in. intros j Hj. apply in_seq in Hj. apply col_eye. lia.
Qed.

Lemma shaped_ncols (r c : nat) (M : matrix F) : 0 < r -> shaped r c M -> ncols M = c.
Proof.
  intros Hr [Hlen Hrows]. destruct M as [|row M]; simpl in *; [lia|].
  inversion Hrows; assumption.
Qed.

Lemma shaped_nth (r c i : nat) (M : matrix F) :
  shaped r c M -> i < r -> length (nth i M []) = c.
Proof.
  intros [Hlen Hrows] Hi. rewrite Forall_forall in Hrows.
  apply Hrows, nth_In. lia.
Qed.

Lemma dot_eye_l (n c : nat) (X : matrix F) : shaped n c X -> dot (eye n) X = X.
Proof.
  intros HX. destruct (Nat.eq_dec n 0) as [->|Hn].
  - destruct HX as [Hlen _]. destruct X; [reflexivity|discriminate].
  - assert (Hc : ncols X = c) by (apply (@shaped_ncols n); [lia|exact HX]).
    pose proof HX as [Hlen Hrows].
    unfold dot, eye, eye2. rewrite map_map, Hc.
    transitivity (map (fun i => nth i X []) (seq 0 n));
      [|rewrite <- Hlen; apply map_nth_seq].
    apply map_ext_in. intros i Hi. apply in_seq in Hi.
    transitivity (map (fun j => nth j (nth i X []) zero) (seq 0 c));
      [|rewrite <- (@shaped_nth n c i X HX) by lia; apply map_nth_seq].
    apply map_ext_in. intros j Hj.
    rewrite vdot_basis_l; [|unfold col; rewrite length_map; exact Hlen|lia].
    unfold col.
    rewrite (nth_indep _ zero (nth j [] zero)) by (rewrite length_map; lia).
    rewrite (map_nth (fun row => nth j row zero)). reflexivity.
Qed.

Lemma dot_eye_r (r n : nat) (X : matrix F) : shaped r n X -> dot X (eye n) = X.
Proof.
  intros [Hlen Hrows]. unfold dot. rewrite eye_ncols.
  transitivity (map (fun row : list F => row) X); [|apply map_id].
  apply map_ext_in. intros row Hin.
  rewrite Forall_forall in Hrows. specialize (Hrows row Hin).
  transitivity (map (fun j => nth j row zero) (seq 0 n));
    [|rewrite <- Hrows; apply map_nth_seq].
  apply map_ext_in. intros j Hj. apply in_seq in Hj.
  rewrite col_eye by lia. apply vdot_basis_r; [exact Hrows|lia].
Qed.

(** With [L] the identity, [L Q L^T] is [Q]: in exact arithmetic the
    condition of the comparison of the two filters holds for every square
    matrix. *)
Lemma identity_congruence (n : nat) (Q : matrix F) :
  shaped n n Q -> dot (dot (eye n) Q) (transpose (eye n)) = Q.
Proof.
  intros HQ. rewrite transpose_eye, (dot_eye_l HQ). apply (dot_eye_r HQ).
Qed.

End IdentityProducts.

(* ================================================================= *)
(** ** Shapes *)

Section ShapeFacts.

Context {F : Type} {SF : Scalar F}.

Lemma map2_length_min {A B C : Type} (f : A -> B -> C) (l : list A) (l' : list B) :
  length (map2 f l l') = Nat.min (length l) (length l').
Proof.
  revert l'; induction l as [|a l IH]; intros [|b l']; simpl; auto.
Qed.

Lemma map2_rows {A B C : Type} (f : A -> B -> C) (P : C -> Prop)
    (PA : A -> Prop) (PB : B -> Prop) (l : list A) (l' : list B) :
  (forall a b, PA a -> PB b -> P (f a b)) ->
  Forall PA l -> Forall PB l' -> Forall P (map2 f l l').
Proof.
  intros Hf Hl; revert l'; induction Hl as [|a l Ha Hl IH]; intros l' Hl'.
  - constructor.
  - destruct Hl' as [|b l' Hb Hl']; simpl; constructor; auto.
Qed.

Lemma dot_nrows (X Y : matrix F) : length (dot X Y) = length X.
Proof. unfold dot. apply length_map. Qed.

Lemma dot_rows (X Y : matrix F) :
  Forall (fun row => length row = ncols Y) (dot X Y).
Proof.
  unfold dot. apply Forall_forall. intros row Hin.
  apply in_map_iff in Hin. destruct Hin as (r & <- & _).
  rewrite length_map, length_seq. reflexivity.
Qed.

(** The entrywise sum or difference of two arrays of [c] columns has [c]
    columns. *)
Lemma entrywise_rows (f : F -> F -> F) (c : nat) (X Y : matrix F) :
  Forall (fun row => length row = c) X ->
  Forall (fun row => length row = c) Y ->
  Forall (fun row => length row = c) (map2 (map2 f) X Y).
Proof.
  apply map2_rows. intros a b Ha Hb. rewrite map2_length_min, Ha, Hb. apply Nat.min_id.
Qed.

Lemma column_rows (v : list F) : Forall (fun row => length row = 1) (column v).
Proof.
  unfold column. apply Forall_forall. intros row Hin.
  apply in_map_iff in Hin. destruct Hin as (x & <- & _). reflexivity.
Qed.

Lemma column_length (v : list F) : length (column v) = length v.
Proof. apply length_map. Qed.

Lemma column_ncols (v : list F) : 0 < length v -> ncols (column v) = 1.
Proof. destruct v; simpl; [lia|reflexivity]. Qed.

Lemma rows_ncols (c : nat) (M : matrix F) :
  0 < length M -> Forall (fun row => length row = c) M -> ncols M = c.
Proof.
  intros Hlen H. destruct H; simpl in *; [lia|assumption].
Qed.

Lemma column_flatten (X : matrix F) :
  Forall (fun row => length row = 1) X -> column (flatten X) = X.
Proof.
  unfold column, flatten. induction 1 as [|row X Hrow H IH]; simpl; [reflexivity|].
  destruct row as [|x [|y row]]; simpl in Hrow; try discriminate.
  simpl. rewrite IH. reflexivity.
Qed.

Lemma flatten_length (X : matrix F) :
  Forall (fun row => length row = 1) X -> length (flatten X) = length X.
Proof.
  intros H. rewrite <- (column_flatten H) at 2. rewrite column_length. reflexivity.
Qed.

Lemma zeros_shaped (r c : nat) : shaped r c (zeros (F:=F) r c).
Proof.
  split; [apply repeat_length|].
  apply Forall_forall. intros row Hin. apply repeat_spec in Hin. subst row.
  apply repeat_length.
Qed.

Lemma col_length (j : nat) (M : matrix F) : length (col j M) = length M.
Proof. apply length_map. Qed.

(** Assigning a column of the right length into an array in bounds returns
    an array of the same shape that holds the column. *)
Lemma set_col_shaped (r c j : nat) (M : matrix F) (v : list F) :
  0 < r -> shaped r c M -> j < c -> length v = r ->
  exists M1, set_col M j v = Ok M1 /\ shaped r c M1 /\ col j M1 = v.
Proof.
  intros Hr HM Hj Hv. pose proof HM as [Hlen Hrows].
  rewrite set_col_ok; [|rewrite (shaped_ncols Hr HM); exact Hj|unfold nrows; lia].
  eexists; split; [reflexivity|]. split; [split|].
  - rewrite map2_length; lia.
  - apply (@map2_rows _ _ _ _ _ (fun row => length row = c) (fun _ => True)); auto.
    + intros row x Hrow _. rewrite set_nth_length. exact Hrow.
    + apply Forall_forall; auto.
  - clear Hr HM. rewrite <- Hlen in Hv. clear Hlen. revert v Hv. unfold col.
    induction Hrows as [|row M Hrow Hrows IH]; intros [|x v] Hv; simpl in *;
      try discriminate; [reflexivity|].
    rewrite nth_set_nth_same by lia. f_equal. apply IH. lia.
Qed.

End ShapeFacts.

(* ================================================================= *)
(** ** The call of the linear Kalman filter on conformable arrays *)

Section KalmanClosedForm.

Context {F : Type} {SF : Scalar F} {LA : LinAlg F}.

Import LinearKalmanFilter.

Lemma matmul_ok (r k c : nat) (X Y : matrix F) :
  0 < r -> shaped r k X -> shaped k c Y -> matmul X Y = Ok (dot X Y).
Proof.
  intros Hr HX [HY _]. unfold matmul, nrows.
  rewrite (shaped_ncols Hr HX), HY, Nat.eqb_refl. reflexivity.
Qed.

Lemma dot_shaped (r k c : nat) (X Y : matrix F) :
  0 < k -> shaped r k X -> shaped k c Y -> shaped r c (dot X Y).
Proof.
  intros Hk [HX _] HY. split.
  - rewrite dot_nrows. exact HX.
  - rewrite <- (shaped_ncols Hk HY). apply dot_rows.
Qed.

Lemma entrywise_shaped (f : F -> F -> F) (r c : nat) (X Y : matrix F) :
  shaped r c X -> shaped r c Y -> shaped r c (map2 (map2 f) X Y).
Proof.
  intros [HX HXr] [HY HYr]. split.
  - rewrite map2_length_min, HX, HY. apply Nat.min_id.
  - apply entrywise_rows; assumption.
Qed.

Lemma np_entrywise_ok (f : F -> F -> F) (r c : nat) (X Y : matrix F) :
  0 < r -> shaped r c X -> shaped r c Y ->
  np_entrywise f X Y = Ok (map2 (map2 f) X Y).
Proof.
  intros Hr HX HY. unfold np_entrywise, broadcast_shape, broadcast_to, nrows.
  rewrite (shaped_ncols Hr HX), (shaped_ncols Hr HY).
  destruct HX as [HX _]. destruct HY as [HY _].
  rewrite HX, HY, !Nat.eqb_refl. reflexivity.
Qed.

Lemma transpose_shaped (r c : nat) (M : matrix F) :
  0 < r -> shaped r c M -> shaped c r (transpose M).
Proof.
  intros Hr HM. unfold transpose. rewrite (shaped_ncols Hr HM). split.
  - rewrite length_map, length_seq. reflexivity.
  - apply Forall_forall. intros row Hin. apply in_map_iff in Hin.
    destruct Hin as (j & <- & _). rewrite col_length. apply HM.
Qed.

Lemma column_shaped (v : list F) : shaped (length v) 1 (column v).
Proof. split; [apply column_length|apply column_rows]. Qed.

Lemma eye_shaped (n : nat) : shaped n n (eye (F:=F) n).
Proof.
  unfold eye, eye2. split.
  - rewrite length_map, length_seq. reflexivity.
  - apply Forall_forall. intros row Hin. apply in_map_iff in Hin.
    destruct Hin as (i & <- & _). apply basis_length.
Qed.


Variables (n m l : nat).

(** [np.linalg.inv] returns an array of the shape of its argument. *)
Hypothesis inv_shaped :
  forall M Mi : matrix F, shaped l l M -> inv M = Ok Mi -> shaped l l Mi.

(** On arrays of the sizes of the filter no product and no sum raises, and
    the call is the closed form. *)
Lemma call_is_closed_form (f : t F) (u y : list F) :
  fits n m l f u y -> __call__ f u y = closed_form f u y.
Proof.
  intros (Hn & Hm & Hl & HA & HB & HC & HQ & HR & Hx & HP & Hns & Hu & Hy).
  unfold __call__, closed_form, np_add, np_subtract.
  set (s := self f) in *.
  pose proof (column_shaped u) as Hcu. rewrite Hu in Hcu.
  pose proof (column_shaped y) as Hcy. rewrite Hy in Hcy.
  pose proof (transpose_shaped Hn HA) as HAt.
  pose proof (transpose_shaped Hl HC) as HCt.
  (* the prediction *)
  rewrite (matmul_ok Hn HA Hx). cbn [Py.bind].
  rewrite (matmul_ok Hn HB Hcu). cbn [Py.bind].
  pose proof (dot_shaped Hn HA Hx) as Hax.
  pose proof (dot_shaped Hm HB Hcu) as Hbu.
  rewrite (np_entrywise_ok add Hn Hax Hbu). cbn [Py.bind].
  pose proof (entrywise_shaped add Hax Hbu) as Hxpr.
  fold (madd (dot (A s) (x_ps s)) (dot (B s) (column u))) in *.
  set (xpr := madd (dot (A s) (x_ps s)) (dot (B s) (column u))) in *.
  rewrite (matmul_ok Hn HA HP). cbn [Py.bind].
  pose proof (dot_shaped Hn HA HP) as Hap.
  rewrite (matmul_ok Hn Hap HAt). cbn [Py.bind].
  pose proof (dot_shaped Hn Hap HAt) as Hapa.
  rewrite (np_entrywise_ok add Hn Hapa HQ). cbn [Py.bind].
  pose proof (entrywise_shaped add Hapa HQ) as HPpr.
  fold (madd (dot (dot (A s) (P_ps s)) (transpose (A s))) (Q s)) in *.
  set (Ppr := madd (dot (dot (A s) (P_ps s)) (transpose (A s))) (Q s)) in *.
  (* the gain *)
  rewrite (matmul_ok Hn HPpr HCt). cbn [Py.bind].
  pose proof (dot_shaped Hn HPpr HCt) as Hpc.
  rewrite (matmul_ok Hl HC HPpr). cbn [Py.bind].
  pose proof (dot_shaped Hn HC HPpr) as Hcp.
  rewrite (matmul_ok Hl Hcp HCt). cbn [Py.bind].
  pose proof (dot_shaped Hn Hcp HCt) as Hcpc.
  rewrite (np_entrywise_ok add Hl Hcpc HR). cbn [Py.bind].
  pose proof (entrywise_shaped add Hcpc HR) as HS.
  fold (madd (dot (dot (C s) Ppr) (transpose (C s))) (R s)) in *.
  destruct (inv (madd (dot (dot (C s) Ppr) (transpose (C s))) (R s))) as [Si|e] eqn:Ei;
    cbn [Py.bind]; [|reflexivity].
  pose proof (inv_shaped HS Ei) as HSi.
  rewrite (matmul_ok Hn Hpc HSi). cbn [Py.bind].
  pose proof (dot_shaped Hl Hpc HSi) as HK.
  set (K1 := dot (dot Ppr (transpose (C s))) Si) in *.
  (* the residual and the update *)
  rewrite (matmul_ok Hl HC Hxpr). cbn [Py.bind].
  pose proof (dot_shaped Hn HC Hxpr) as Hcx.
  rewrite (np_entrywise_ok sub Hl Hcy Hcx). cbn [Py.bind].
  pose proof (entrywise_shaped sub Hcy Hcx) as Hres.
  fold (msub (column y) (dot (C s) xpr)) in *.
  set (r := msub (column y) (dot (C s) xpr)) in *.
  rewrite (matmul_ok Hn HK Hres). cbn [Py.bind].
  pose proof (dot_shaped Hl HK Hres) as Hkr.
  rewrite (np_entrywise_ok add Hn Hxpr Hkr). cbn [Py.bind].
  rewrite (matmul_ok Hn HK HC). cbn [Py.bind].
  pose proof (dot_shaped Hl HK HC) as Hkc.
  pose proof (eye_shaped n) as He. rewrite <- Hns in He at 3.
  rewrite Hns in He |- *.
  rewrite (np_entrywise_ok sub Hn He Hkc). cbn [Py.bind].
  pose proof (entrywise_shaped sub He Hkc) as Hikc.
  rewrite (matmul_ok Hn Hikc HPpr). cbn [Py.bind].
  reflexivity.
Qed.


(** A call on a filter of sizes [n], [m], [l] returns a filter of these
    sizes: the closed form applies to every call of a run whose inputs and
    outputs have the lengths [m] and [l]. *)
Lemma call_keeps_sizes (f f1 : t F) (u y u' y' : list F) :
  fits n m l f u y -> __call__ f u y = Ok f1 ->
  length u' = m -> length y' = l -> fits n m l f1 u' y'.
Proof.
  intros Hf H Hu' Hy'. rewrite (call_is_closed_form Hf) in H.
  destruct Hf as (Hn & Hm & Hl & HA & HB & HC & HQ & HR & Hx & HP & Hns & Hu & Hy).
  unfold closed_form in H. set (s := self f) in *.
  pose proof (column_shaped u) as Hcu. rewrite Hu in Hcu.
  pose proof (column_shaped y) as Hcy. rewrite Hy in Hcy.
  pose proof (transpose_shaped Hn HA) as HAt.
  pose proof (transpose_shaped Hl HC) as HCt.
  pose proof (entrywise_shaped add (dot_shaped Hn HA Hx) (dot_shaped Hm HB Hcu)) as Hxpr.
  pose proof (entrywise_shaped add (dot_shaped Hn (dot_shaped Hn HA HP) HAt) HQ) as HPpr.
  fold (madd (dot (A s) (x_ps s)) (dot (B s) (column u))) in Hxpr.
  fold (madd (dot (dot (A s) (P_ps s)) (transpose (A s))) (Q s)) in HPpr.
  set (xpr := madd (dot (A s) (x_ps s)) (dot (B s) (column u))) in *.
  set (Ppr := madd (dot (dot (A s) (P_ps s)) (transpose (A s))) (Q s)) in *.
  pose proof (entrywise_shaped add (dot_shaped Hn (dot_shaped Hn HC HPpr) HCt) HR) as HS.
  fold (madd (dot (dot (C s) Ppr) (transpose (C s))) (R s)) in HS.
  destruct (inv (madd (dot (dot (C s) Ppr) (transpose (C s))) (R s))) as [Si|e] eqn:Ei;
    cbn [Py.bind] in H; [|discriminate H].
  pose proof (inv_shaped HS Ei) as HSi.
  pose proof (dot_shaped Hl (dot_shaped Hn HPpr HCt) HSi) as HK.
  pose proof (entrywise_shaped sub Hcy (dot_shaped Hn HC Hxpr)) as Hres.
  pose proof (entrywise_shaped add Hxpr (dot_shaped Hl HK Hres)) as Hxps.
  pose proof (eye_shaped n) as He.
  pose proof (dot_shaped Hn (entrywise_shaped sub He (dot_shaped Hl HK HC)) HPpr) as HPps.
  inversion H as [H1]. unfold fits. cbn [self A B C Q R x_ps P_ps n_states].
  fold s. rewrite Hns.
  split; [exact Hn|]. split; [exact Hm|]. split; [exact Hl|].
  split; [exact HA|]. split; [exact HB|]. split; [exact HC|].
  split; [exact HQ|]. split; [exact HR|].
  split; [exact Hxps|]. split; [exact HPps|].
  split; [reflexivity|]. split; [exact Hu'|exact Hy'].
Qed.
(** C6: on a filter that holds arrays of its sizes ([A] n by n, [B] n by m,
    [C] l by n, [Q] n by n, [R] l by l, the state n by 1 and its covariance
    n by n), a call with an input [u] of m entries and an output [y] of l
    entries computes [x_pr = A x_ps + B u] and [P_pr = A P_ps A^T + Q] from
    the values before the call, the gain [K = P_pr C^T (C P_pr C^T + R)^-1],
    the residual [res = y - C x_pr], and stores [x_ps = x_pr + K res] and
    [P_ps = (I - K C) P_pr]; the system matrices stay as they were.  The call
    fails exactly when the matrix to invert is refused by [inv]. *)
Theorem kalman_call_closed_form (f : t F) (u y : list F) :
  fits n m l f u y ->
  let s := self f in
  let x_pr1 := madd (dot (A s) (x_ps s)) (dot (B s) (column u)) in
  let P_pr1 := madd (dot (dot (A s) (P_ps s)) (transpose (A s))) (Q s) in
  let S := madd (dot (dot (C s) P_pr1) (transpose (C s))) (R s) in
  match __call__ f u y with
  | Ok f1 =>
      exists Si, inv S = Ok Si /\
        let K1 := dot (dot P_pr1 (transpose (C s))) Si in
        let r := msub (column y) (dot (C s) x_pr1) in
        x_pr (self f1) = x_pr1 /\
        P_pr (self f1) = P_pr1 /\
        K (self f1) = K1 /\
        res_ (self f1) = r /\
        x_ps (self f1) = madd x_pr1 (dot K1 r) /\
        P_ps (self f1) = dot (msub (eye (n_states s)) (dot K1 (C s))) P_pr1 /\
        (A (self f1), B (self f1), C (self f1), D (self f1), Q (self f1), R (self f1))
        = (A s, B s, C s, D s, Q s, R s)
  | Raise e => inv S = Raise e
  end.
Proof.
  intros Hf s x_pr1 P_pr1 S. rewrite (call_is_closed_form Hf).
  unfold closed_form. fold s. fold x_pr1. fold P_pr1. fold S.
  destruct (inv S) as [Si|e]; simpl; [|reflexivity].
  exists Si; repeat split; reflexivity.
Qed.

End KalmanClosedForm.

(** An input whose length is not the number of columns of [B] makes the
    call raise [ValueError]: one of the first two products refuses its
    operands. *)
Lemma call_refuses_misfit_input {F : Type} {SF : Scalar F} {LA : LinAlg F}
    (f : LinearKalmanFilter.t F) (u y : list F) :
  ncols (LinearKalmanFilter.B (LinearKalmanFilter.self f)) <> length u ->
  LinearKalmanFilter.__call__ f u y = Raise ValueError.
Proof.
  intros Hne. unfold LinearKalmanFilter.__call__.
  unfold matmul at 1.
  destruct (_ =? _); cbn [Py.bind]; [|reflexivity].
  unfold matmul at 1. unfold nrows at 1. rewrite column_length.
  destruct (Nat.eqb_spec (ncols (LinearKalmanFilter.B (LinearKalmanFilter.self f)))
                         (length u)); [contradiction|reflexivity].
Qed.

(** [Float64.linalg] and [Exact.linalg] return arrays of the shape of
    their argument. *)
Lemma float_inv_shaped (l : nat) (M Mi : matrix float) :
  shaped l l M -> inv M = Ok Mi -> shaped l l Mi.
Proof.
  intros [HM _] H. destruct M as [|[|a [|b row]] [|row' M]]; simpl in H;
    try discriminate H.
  destruct (PrimFloat.eqb a PrimFloat.zero); [discriminate H|].
  inversion H. simpl in HM. subst l. repeat constructor.
Qed.

(** C6, witness: the scalar filter, called with the input [1] and the
    output [2]. *)
Lemma kalman_call_closed_form_witness :
  exists f1 Si,
    LinearKalmanFilter.__call__ Example.scalar_filter [1%float] [2%float] = Ok f1 /\
    inv [[1.5%float]] = Ok Si /\
    LinearKalmanFilter.x_pr (LinearKalmanFilter.self f1) = [[1.5%float]] /\
    LinearKalmanFilter.P_pr (LinearKalmanFilter.self f1) = [[0.5%float]].
Proof.
  assert (Hf : LinearKalmanFilter.fits 1 1 1 Example.scalar_filter [1%float] [2%float]).
  { unfold LinearKalmanFilter.fits; cbn.
    repeat split; try lia; repeat constructor. }
  pose proof (@kalman_call_closed_form float _ _ 1 1 1 (@float_inv_shaped 1)
                Example.scalar_filter [1%float] [2%float] Hf) as H.
  cbv zeta in H.
  destruct (LinearKalmanFilter.__call__ Example.scalar_filter [1%float] [2%float])
    as [f1|e] eqn:E; [|vm_compute in E; discriminate E].
  destruct H as (Si & HSi & Hx & HP & _).
  exists f1, Si. split; [reflexivity|]. split; [|split].
  - rewrite <- HSi. vm_compute. reflexivity.
  - rewrite Hx. vm_compute. reflexivity.
  - rewrite HP. vm_compute. reflexivity.
Defined.

(* ================================================================= *)
(** ** The EKF on a linear plant is the linear Kalman filter *)

Section Refinement.

Context {F : Type} {SF : Scalar F} {LA : LinAlg F} {SC : SolverCore F}.

Variables (A B H D : matrix F) (x0 : list F) (P0 Q R : matrix F) (al ka : F).
Variables (n m l N : nat).

Hypothesis (Hn : 0 < n) (Hm : 0 < m) (Hl : 0 < l).
Hypothesis (HA : shaped n n A) (HB : shaped n m B) (HH : shaped l n H).
Hypothesis (HQ : shaped n n Q) (HR : shaped l l R).

(** The noise terms [L Q L^T] and [M R M^T] of the EKF, with [L] and [M]
    the identity, are [Q] and [R]. *)
Hypothesis (HLQ : dot (dot (eye n) Q) (transpose (eye n)) = Q).
Hypothesis (HMR : dot (dot (eye l) R) (transpose (eye l)) = R).

(** [np.linalg.inv] returns an array of the shape of its argument. *)
Hypothesis inv_shaped :
  forall M Mi : matrix F, shaped l l M -> inv M = Ok Mi -> shaped l l Mi.

Import Correspondence.

Local Notation "'linked'" := (sim A B H D x0 P0 Q R al ka n m l N).

(** Reading a column in bounds. *)
Lemma get_col_ok (r c j : nat) (M : matrix F) :
  0 < r -> shaped r c M -> j < c -> get_col M j = Ok (col j M).
Proof.
  intros Hr HM Hj. unfold get_col. rewrite (shaped_ncols Hr HM).
  apply Nat.ltb_lt in Hj. rewrite Hj. reflexivity.
Qed.

(** The prediction of the EKF over the linear plant is the [x_pr] and the
    [P_pr] of the filter: the noise term [L Q L^T] collapses to [Q]. *)
Lemma ekf_predict_linear (e : Nonlinear.t F) (f : LinearKalmanFilter.t F)
    (u y : list F) :
  linked e f -> Nonlinear.current_step e < N -> length u = m -> length y = l ->
  exists i1 o1,
    shaped m N i1 /\ shaped l N o1 /\
    Nonlinear.ekf_predict e u y =
    Ok {| Nonlinear.pr_inputs := i1;
          Nonlinear.pr_outputs := o1;
          Nonlinear.pr_states := Nonlinear.states e;
          Nonlinear.pr_jac :=
            {| jac_A := A; jac_B := B; jac_H := H; jac_D := D;
               jac_L := eye (nrows A); jac_M := eye (nrows H) |};
          Nonlinear.pr_x :=
            madd (dot A (LinearKalmanFilter.x_ps (LinearKalmanFilter.self f)))
                 (dot B (column u));
          Nonlinear.pr_P :=
            madd (dot (dot A (LinearKalmanFilter.P_ps (LinearKalmanFilter.self f)))
                      (transpose A)) Q |}.
Proof.
  intros S Hk Hu Hy.
  destruct S as [Sp Se Sa St Ss Si So Sr SA SB SC_ SQ SR Sn Sx SP Sq].
  set (k := Nonlinear.current_step e) in *.
  destruct (@set_col_shaped F SF m N k (Nonlinear.inputs e) u Hm Si Hk Hu)
    as (i1 & Hi1 & Hi1s & Hi1c).
  destruct (@set_col_shaped F SF l N k (Nonlinear.outputs e) y Hl So Hk Hy)
    as (o1 & Ho1 & Ho1s & Ho1c).
  destruct (nth_error (Nonlinear.time_line e) k) as [t|] eqn:Et;
    [|apply nth_error_None in Et; lia].
  exists i1, o1. split; [exact Hi1s|]. split; [exact Ho1s|].
  unfold Nonlinear.ekf_predict. fold k.
  rewrite Et, Hi1, Ho1, Sp. cbn [Py.lookup Py.bind].
  cbn [_jacobians LinearPlant.plant LinearPlant.jacobians Py.bind].
  rewrite (@get_col_ok n (N + 1) k _ Hn Ss) by lia. cbn [Py.bind].
  cbn [_limitations LinearPlant.plant LinearPlant.limitations Py.bind time_type].
  replace (String.eqb "d" "c") with false by reflexivity.
  unfold Nonlinear.handle_dyn.
  cbn [_dynamics LinearPlant.plant LinearPlant.dynamics].
  unfold LinearPlant.dynamics.
  rewrite (@get_col_ok n (N + 1) k _ Hn Ss) by lia. cbn [Py.bind].
  rewrite (@get_col_ok m N k _ Hm Hi1s) by lia. cbn [Py.bind].
  cbn [q_matrix LinearPlant.plant Py.lookup Py.bind jac_A jac_L].
  rewrite Hi1c. fold k in Sx. rewrite Sx, SP.
  destruct HA as [HlenA _]. unfold nrows. rewrite HlenA.
  rewrite HLQ. reflexivity.
Qed.

(** One tick: the engine and the filter both return and stay linked, or
    both raise what [inv] raised. *)
Lemma ekf_tick_is_kalman_call (e : Nonlinear.t F) (f : LinearKalmanFilter.t F)
    (u y : list F) :
  linked e f -> Nonlinear.current_step e < N ->
  measured m l (u, y) ->
  (exists e1 f1,
      Nonlinear.estimate e u y = Ok e1 /\
      LinearKalmanFilter.__call__ f u y = Ok f1 /\
      linked e1 f1 /\
      Nonlinear.current_step e1 = S (Nonlinear.current_step e)) \/
  (exists x,
      Nonlinear.estimate e u y = Raise x /\
      LinearKalmanFilter.__call__ f u y = Raise x).
Proof.
  intros S Hk (Hu & Hy & Hnan). simpl in Hu, Hy, Hnan.
  destruct (@ekf_predict_linear e f u y S Hk Hu Hy) as (i1 & o1 & Hi1 & Ho1 & Hpred).
  destruct S as [Sp Se Sa St Ss Si So Sr SA SB SC_ SQ SR Sn Sx SP Sq].
  assert (Hfits : LinearKalmanFilter.fits n m l f u y).
  { unfold LinearKalmanFilter.fits. rewrite SA, SB, SC_, SQ, SR, Sn, <- Sx, <- SP.
    split; [exact Hn|]. split; [exact Hm|]. split; [exact Hl|].
    split; [exact HA|]. split; [exact HB|]. split; [exact HH|].
    split; [exact HQ|]. split; [exact HR|].
    split; [split; [rewrite column_length, col_length; apply Ss|apply column_rows]|].
    split; [split; [exact Sr|exact Sq]|].
    split; [reflexivity|]. split; [exact Hu|exact Hy]. }
  rewrite (@call_is_closed_form F SF LA n m l inv_shaped f u y Hfits).
  set (k := Nonlinear.current_step e) in *.
  unfold Nonlinear.estimate. rewrite Se, Sa. cbn [negb Py.lookup Py.bind].
  replace (String.eqb "ekf" "ekf") with true by reflexivity.
  unfold Nonlinear.__nextstepEKF. rewrite Hpred. cbn [Py.bind].
  unfold Nonlinear.ekf_posterior. rewrite Hnan. cbn [negb].
  cbn [Nonlinear.pr_jac Nonlinear.pr_x Nonlinear.pr_P jac_H jac_M
       Nonlinear.pr_inputs Nonlinear.pr_outputs Nonlinear.pr_states].
  rewrite Sp. cbn [r_matrix LinearPlant.plant].
  destruct HH as [HlenH HrowsH]. unfold nrows. rewrite HlenH.
  rewrite HMR.
  unfold LinearKalmanFilter.closed_form. rewrite SA, SB, SC_, SQ, SR, Sn, Sr.
  set (xps := LinearKalmanFilter.x_ps (LinearKalmanFilter.self f)) in *.
  set (Pps := LinearKalmanFilter.P_ps (LinearKalmanFilter.self f)) in *.
  set (xpr := madd (dot A xps) (dot B (column u))).
  set (Ppr := madd (dot (dot A Pps) (transpose A)) Q).
  destruct (inv (madd (dot (dot H Ppr) (transpose H)) R)) as [Sinv|x];
    cbn [Py.bind]; [left|right; exists x; split; reflexivity].
  set (K := dot (dot Ppr (transpose H)) Sinv).
  set (res := msub (column y) (dot H xpr)).
  pose proof HA as [HlenA HrowsA]. pose proof HB as [HlenB HrowsB].
  pose proof HQ as [HlenQ HrowsQ].
  (* shapes of the intermediate arrays *)
  assert (Hxps1 : Forall (fun row => length row = 1) xps)
    by (rewrite <- Sx; apply column_rows).
  assert (Hxpsn : length xps = n).
  { rewrite <- Sx, column_length, col_length. apply Ss. }
  assert (Hxpr1 : Forall (fun row => length row = 1) xpr).
  { unfold xpr, madd. apply entrywise_rows.
    - pose proof (dot_rows A xps) as Hd.
      rewrite (@rows_ncols F 1 xps) in Hd; [exact Hd|lia|exact Hxps1].
    - pose proof (dot_rows B (column u)) as Hd.
      rewrite (@column_ncols F u) in Hd; [exact Hd|lia]. }
  assert (Hxprn : length xpr = n).
  { unfold xpr, madd. rewrite map2_length_min, !dot_nrows. lia. }
  assert (HPprn : length Ppr = n).
  { unfold Ppr, madd. rewrite map2_length_min, !dot_nrows. lia. }
  assert (HKn : length K = n) by (unfold K; rewrite !dot_nrows; exact HPprn).
  assert (Hres1 : Forall (fun row => length row = 1) res).
  { unfold res, msub. apply entrywise_rows; [apply column_rows|].
    pose proof (dot_rows H xpr) as Hd.
    rewrite (@rows_ncols F 1 xpr) in Hd; [exact Hd|lia|exact Hxpr1]. }
  assert (Hresn : length res = l).
  { unfold res, msub. rewrite map2_length_min, column_length, dot_nrows. lia. }
  set (xm := madd xpr (dot K res)).
  assert (Hxm1 : Forall (fun row => length row = 1) xm).
  { unfold xm, madd. apply entrywise_rows; [exact Hxpr1|].
    pose proof (dot_rows K res) as Hd.
    rewrite (@rows_ncols F 1 res) in Hd; [exact Hd|lia|exact Hres1]. }
  assert (Hxmn : length xm = n).
  { unfold xm, madd. rewrite map2_length_min, dot_nrows. lia. }
  destruct (@set_col_shaped F SF n (N + 1) (k + 1) (Nonlinear.states e) (flatten xm)
              Hn Ss) as (s2 & Hs2 & Hs2s & Hs2c).
  { lia. }
  { rewrite flatten_length by exact Hxm1. exact Hxmn. }
  unfold Nonlinear.store. fold k. rewrite Hs2. cbn [Py.bind].
  eexists; eexists. split; [reflexivity|]. split; [reflexivity|]. split.
  - constructor; cbn; auto.
    + unfold Nonlinear.self_covariance; cbn.
      rewrite dot_nrows. unfold msub. rewrite map2_length_min, dot_nrows.
      unfold eye, eye2. rewrite length_map, length_seq. fold K. lia.
    + change (column (col (k + 1) s2) = xm).
      rewrite Hs2c. apply column_flatten. exact Hxm1.
    + unfold Nonlinear.self_covariance; cbn.
      pose proof (dot_rows (msub (eye n) (dot K H)) Ppr) as Hd.
      rewrite (@rows_ncols F n Ppr) in Hd; [exact Hd|lia|].
      unfold Ppr, madd. apply entrywise_rows; [|exact HrowsQ].
      pose proof (dot_rows (dot A Pps) (transpose A)) as Hd2.
      rewrite (shaped_ncols Hn (transpose_shaped Hn HA)) in Hd2. exact Hd2.
  - cbn. lia.
Qed.

Lemma ekf_run_is_kalman_run (ticks : list (list F * list F)) :
  forall (e : Nonlinear.t F) (f : LinearKalmanFilter.t F),
    linked e f ->
    Nonlinear.current_step e + length ticks <= N ->
    Forall (measured m l) ticks ->
    agree (Nonlinear.run e ticks) (LinearKalmanFilter.run f ticks).
Proof.
  induction ticks as [|[u y] ticks IH]; intros e f S Hk Hticks.
  - simpl. split; [apply (sim_x S)|apply (sim_P S)].
  - inversion Hticks as [|t ts Ht Hts]; subst. simpl in Hk.
    destruct (@ekf_tick_is_kalman_call e f u y S ltac:(lia) Ht)
      as [(e1 & f1 & He & Hf & S1 & Hstep)|(x & He & Hf)].
    + simpl. rewrite He, Hf. simpl. apply IH; [exact S1|lia|exact Hts].
    + simpl. rewrite He, Hf. simpl. reflexivity.
Qed.

Hypothesis (HP0 : shaped n n P0) (Hx0 : length x0 = n).

Lemma kalman_init_fields :
  let f0 := LinearKalmanFilter.__init__
              (LinearKalmanFilter.Tuple A B H D)
              {| LinearKalmanFilter.x_0 := Some x0;
                 LinearKalmanFilter.P_0 := Some P0;
                 LinearKalmanFilter.process_noise := Some Q;
                 LinearKalmanFilter.measurement_noise := Some R |} in
  LinearKalmanFilter.A (LinearKalmanFilter.self f0) = A /\
  LinearKalmanFilter.B (LinearKalmanFilter.self f0) = B /\
  LinearKalmanFilter.C (LinearKalmanFilter.self f0) = H /\
  LinearKalmanFilter.Q (LinearKalmanFilter.self f0) = Q /\
  LinearKalmanFilter.R (LinearKalmanFilter.self f0) = R /\
  LinearKalmanFilter.n_states (LinearKalmanFilter.self f0) = n /\
  LinearKalmanFilter.x_ps (LinearKalmanFilter.self f0) = column x0 /\
  LinearKalmanFilter.P_ps (LinearKalmanFilter.self f0) = P0.
Proof.
  pose proof HA as [HlenA _]. pose proof HH as [HlenH _].
  pose proof HP0 as [HlenP _]. pose proof HQ as [HlenQ _]. pose proof HR as [HlenR _].
  pose proof (shaped_ncols Hn HP0) as HcP.
  pose proof (shaped_ncols Hn HQ) as HcQ.
  pose proof (shaped_ncols Hl HR) as HcR.
  unfold LinearKalmanFilter.__init__.
  cbn [LinearKalmanFilter.x_0 LinearKalmanFilter.P_0 LinearKalmanFilter.process_noise
       LinearKalmanFilter.measurement_noise LinearKalmanFilter.self
       LinearKalmanFilter.A LinearKalmanFilter.B LinearKalmanFilter.C
       LinearKalmanFilter.Q LinearKalmanFilter.R LinearKalmanFilter.n_states
       LinearKalmanFilter.x_ps LinearKalmanFilter.P_ps].
  unfold LinearKalmanFilter.override, nrows.
  rewrite HlenA, HlenH, HlenP, HlenQ, HlenR, HcP, HcQ, HcR, Hx0.
  replace (n + n =? 2 * n) with true by (symmetry; apply Nat.eqb_eq; lia).
  replace (l + l =? 2 * l) with true by (symmetry; apply Nat.eqb_eq; lia).
  rewrite Nat.eqb_refl. repeat split; reflexivity.
Qed.

Lemma constructors_agree (tl : list F) :
  length tl = N ->
  exists e,
    Nonlinear.__init__ (LinearPlant.plant A B H D x0 P0 Q R al ka) tl as_ekf = Ok e /\
    Nonlinear.current_step e = 0 /\
    linked e (LinearKalmanFilter.__init__
             (LinearKalmanFilter.Tuple A B H D)
             {| LinearKalmanFilter.x_0 := Some x0;
                LinearKalmanFilter.P_0 := Some P0;
                LinearKalmanFilter.process_noise := Some Q;
                LinearKalmanFilter.measurement_noise := Some R |}).
Proof.
  intros HN.
  pose proof HA as [HlenA _]. pose proof HH as [HlenH _]. pose proof HP0 as [HlenP _].
  pose proof (shaped_ncols Hn HB) as HcB.
  destruct kalman_init_fields as (FA & FB & FC & FQ & FR & Fn & Fx & FP).
  destruct (@set_col_shaped F SF n (N + 1) 0 (zeros n (N + 1)) x0 Hn
              (zeros_shaped n (N + 1)) ltac:(lia) Hx0) as (s0 & Hs0 & Hs0s & Hs0c).
  unfold Nonlinear.__init__, as_ekf.
  cbn [Nonlinear.kw_initial Nonlinear.kw_approach Nonlinear.kw_solver
       Nonlinear.kw_estimator n_states initial_states LinearPlant.plant].
  unfold nrows. rewrite HlenA, HN, Hs0. cbn [Py.bind].
  replace (String.eqb "ekf" "ekf") with true by reflexivity. cbn [Py.bind].
  eexists; split; [reflexivity|]. split; [reflexivity|].
  constructor; auto;
    cbn [Nonlinear.plant Nonlinear.estimator Nonlinear.est_approach
         Nonlinear.time_line Nonlinear.states Nonlinear.inputs
         Nonlinear.outputs Nonlinear.current_step].
  - cbn [n_inputs LinearPlant.plant]. rewrite HcB. apply zeros_shaped.
  - cbn [n_outputs LinearPlant.plant]. unfold nrows. rewrite HlenH. apply zeros_shaped.
  - rewrite Hs0c. symmetry. exact Fx.
  - apply HP0.
Qed.

(** C2 (amended): for [A] n by n, [B] n by m, [H] l by n, [Q] and the
    initial covariance n by n, [R] l by l (n, m, l >= 1), noise matrices
    that the products [L Q L^T] and [M R M^T] with [L = M = I] return
    unchanged, an initial state of length n, and a sequence of at most
    [len(time_line)] ticks whose inputs have length m and whose outputs have
    length l and no not-a-number entry: after every number [j] of ticks, the
    EKF over the linear plant and the [LinearKalmanFilter] built from the
    same matrices, initial state and initial covariance have both returned
    with the same posterior state and the same posterior covariance, or have
    both raised the same exception.  The arithmetic is any, binary64
    included. *)
Theorem ekf_matches_linear_kalman_filter (tl : list F) (ticks : list (list F * list F)) :
  length tl = N ->
  length ticks <= N ->
  Forall (measured m l) ticks ->
  forall j,
    agree (e <- Nonlinear.__init__ (LinearPlant.plant A B H D x0 P0 Q R al ka) tl as_ekf ;;
           Nonlinear.run e (firstn j ticks))
          (LinearKalmanFilter.run
             (LinearKalmanFilter.__init__
                (LinearKalmanFilter.Tuple A B H D)
                {| LinearKalmanFilter.x_0 := Some x0;
                   LinearKalmanFilter.P_0 := Some P0;
                   LinearKalmanFilter.process_noise := Some Q;
                   LinearKalmanFilter.measurement_noise := Some R |})
             (firstn j ticks)).
Proof.
  intros HN Hlen Hticks j.
  destruct (constructors_agree tl HN) as (e & He & Hk & S).
  rewrite He. cbn [Py.bind].
  apply ekf_run_is_kalman_run; [exact S| |].
  - rewrite Hk, length_firstn. lia.
  - apply Forall_forall. intros t Hin. apply in_firstn in Hin.
    rewrite Forall_forall in Hticks. apply Hticks. exact Hin.
Qed.

End Refinement.


(** The canonical rationals satisfy the laws of exact arithmetic; there the
    identity products return every square matrix unchanged. *)
Lemma exact_laws : exact_arithmetic (F:=Qc).
Proof.
  constructor; intros x; simpl; ring.
Qed.

(** C2, witness: the scalar system in binary64, three ticks. *)
Lemma ekf_matches_linear_kalman_filter_witness :
  Correspondence.agree
    (e <- Nonlinear.__init__ Example.scalar_plant Example.time_line
                             Correspondence.as_ekf ;;
     Nonlinear.run e [([1%float], [2%float]); ([1%float], [0.5%float]);
                      ([0.25%float], [3%float])])
    (LinearKalmanFilter.run Example.scalar_filter
       [([1%float], [2%float]); ([1%float], [0.5%float]); ([0.25%float], [3%float])]).
Proof.
  refine (@ekf_matches_linear_kalman_filter float Float64.scalar Float64.linalg
            Float64.solver
            [[0.5%float]] [[1%float]] [[1%float]] [[0%float]]
            [1%float] [[1%float]] [[0.25%float]] [[1%float]] 1%float 0%float
            1 1 1 4 _ _ _ _ _ _ _ _ _ _ (@float_inv_shaped 1) _ _
            Example.time_line
            [([1%float], [2%float]); ([1%float], [0.5%float]); ([0.25%float], [3%float])]
            _ _ _ 3);
    try lia; try reflexivity; try (split; [reflexivity|repeat constructor]).
  - simpl; lia.
  - repeat constructor.
Defined.

(** C2, counterexample: fed the output not-a-number, the EKF keeps the
    predicted covariance [0.5], while the filter built from the same data
    applies its update and stores [(1 - K) 0.5] with [K = 1/3] (and a
    not-a-number state). *)
Lemma nan_tick_counterexample :
  ~ Correspondence.agree
      (e <- Nonlinear.__init__ Example.scalar_plant Example.time_line
                               Correspondence.as_ekf ;;
       Nonlinear.run e [([1%float], [PrimFloat.nan])])
      (LinearKalmanFilter.run Example.scalar_filter [([1%float], [PrimFloat.nan])]).
Proof.
  intros H. vm_compute in H. destruct H as [_ H].
  apply (f_equal (fun M : matrix float =>
                    match M with
                    | (x :: _) :: _ => PrimFloat.eqb x 0.5%float
                    | _ => false
                    end)) in H.
  vm_compute in H. discriminate H.
Qed.

(** The condition on the noise matrices is needed: with an infinite
    variance in [Q], the EKF forms [L Q L^T] with [L = I], where zero times
    infinity is not-a-number, while the filter adds [Q] itself.  After one
    tick the second posterior state of the filter is [2] and that of the EKF
    is not-a-number. *)
Lemma infinite_variance_tick_differs :
  dot (dot (eye 2) Example.loose_Q) (transpose (eye 2)) <> Example.loose_Q /\
  ~ Correspondence.agree
      (e <- Nonlinear.__init__ Example.loose_plant Example.time_line
                               Correspondence.as_ekf ;;
       Nonlinear.run e [([1%float], [2%float])])
      (LinearKalmanFilter.run Example.loose_filter [([1%float], [2%float])]).
Proof.
  split.
  - intros H.
    apply (f_equal (fun M : matrix float =>
                      match M with
                      | [_; [_; x]] => PrimFloat.eqb x 1%float
                      | _ => false
                      end)) in H.
    vm_compute in H. discriminate H.
  - intros H. vm_compute in H. destruct H as [H _].
    apply (f_equal (fun M : matrix float =>
                      match M with
                      | [_; [x]] => PrimFloat.eqb x 2%float
                      | _ => false
                      end)) in H.
    vm_compute in H. discriminate H.
Qed.

(* ================================================================= *)
(** ** Instances of the supporting lemmas *)

(** The EKF tick of the examples leaves column 0 of the state history alone:
    the Jacobian of the linear plant returns the history it was given. *)
Lemma ekf_tick_writes_next_column_only_witness :
  exists e1,
    Nonlinear.__nextstepEKF Example.ekf_engine [1%float] [2%float] = Ok e1 /\
    col 0 (Nonlinear.states e1) = col 0 (Nonlinear.states Example.ekf_engine).
Proof.
  assert (He : exists e1,
             Nonlinear.__nextstepEKF Example.ekf_engine [1%float] [2%float] = Ok e1)
    by (eexists; reflexivity).
  destruct He as [e1 He]. exists e1. split; [exact He|].
  apply (@ekf_tick_writes_next_column_only float Float64.scalar Float64.linalg
           Float64.solver Example.ekf_engine e1 [1%float] [2%float]).
  - intros x i k st t' x1 J H. simpl in H. inversion H. reflexivity.
  - exact He.
  - simpl. lia.
Defined.

(** The weights of the three-state plant are one array. *)
Lemma ukf_weights_share_one_array_witness :
  exists u,
    Nonlinear.init_ukf Example.three_state_plant = Ok u /\
    Nonlinear.wm u = Nonlinear.wc u.
Proof.
  assert (Hu : exists u, Nonlinear.init_ukf Example.three_state_plant = Ok u)
    by (eexists; reflexivity).
  destruct Hu as [u Hu]. exists u. split; [exact Hu|].
  exact (proj1 (ukf_weights_share_one_array Example.three_state_plant Hu)).
Defined.

(* ================================================================= *)
(** ** Sums of rank-one arrays *)

Section FlatSums.

Context {F : Type} {SF : Scalar F}.

Lemma add_flat_fits (u v : list F) :
  length v = length u \/ length v = 1 ->
  exists w, add_flat u v = Ok w /\ length w = length u.
Proof.
  intros H. unfold add_flat.
  destruct (Nat.eqb_spec (length u) (length v)) as [E|E].
  - eexists; split; [reflexivity|]. rewrite map2_length_min, E. apply Nat.min_id.
  - destruct H as [H|H]; [congruence|].
    destruct v as [|y [|y' v]]; try discriminate.
    destruct u as [|x [|x' u]].
    + eexists; split; [reflexivity|reflexivity].
    + simpl in E. congruence.
    + eexists; split; [reflexivity|]. rewrite length_map. reflexivity.
Qed.

Lemma add_flat_two (u v w : list F) :
  length u = 2 -> add_flat u v = Ok w -> length w = 2.
Proof.
  intros Hu H. unfold add_flat in H.
  destruct (Nat.eqb_spec (length u) (length v)) as [E|E].
  - inversion H; subst. rewrite map2_length_min, <- E, Hu. reflexivity.
  - destruct u as [|x [|x' [|x'' u]]]; try discriminate.
    destruct v as [|y [|y' v]]; try discriminate.
    inversion H; subst. reflexivity.
Qed.

End FlatSums.

(* ================================================================= *)
(** ** The simulator step and the constructor *)

Section Simulator.

Context {F : Type} {SF : Scalar F} {LA : LinAlg F} {SC : SolverCore F}.

Import Nonlinear.

Ltac step_bind H :=
  match type of H with
  | Py.bind ?c _ = Ok _ =>
      let E := fresh "E" in
      destruct c eqn:E; simpl in H; [|discriminate H]
  | context [match ?a with pair _ _ => _ end] =>
      is_var a; destruct a; simpl in H
  end.

(** A simulation step that returns has advanced the step counter by
    one and has changed the three histories in one column each: the input
    and the output at column [k], the state at column [k+1].  The
    covariance and the time line are as before. *)
Theorem call_writes_one_column_each (e e1 : t F) (u nx ny : list F) :
  estimator e = false ->
  __call__ e u nx ny = Ok e1 ->
  current_step e1 = current_step e + 1 /\
  set_col (inputs e) (current_step e) u = Ok (inputs e1) /\
  (forall j, j <> current_step e -> col j (inputs e1) = col j (inputs e)) /\
  (forall j, j <> current_step e -> col j (outputs e1) = col j (outputs e)) /\
  (forall j, j <> current_step e + 1 -> col j (states e1) = col j (states e)) /\
  inst_covariance e1 = inst_covariance e /\
  time_line e1 = time_line e /\
  plant e1 = plant e.
Proof.
  intros Hest H. unfold __call__ in H. rewrite Hest in H.
  repeat step_bind H.
  inversion H; subst; clear H; simpl.
  repeat split; auto; intros j Hj; eapply col_set_col_other; eauto.
Qed.

(** The keyword [estimator] makes an estimator whatever its value:
    [Nonlinear(time_line, estimator=False)] is an estimator too, on which
    [__call__] returns at once and changes nothing.  Without the keyword the
    engine is a simulator, on which [estimate] changes nothing. *)
Theorem estimator_keyword_value_is_ignored (p : Plant F) (tl : list F)
    (kw : kwargs F) (e : t F) :
  __init__ p tl kw = Ok e ->
  (forall b, kw_estimator kw = Some b ->
     estimator e = true /\ forall u nx ny, __call__ e u nx ny = Ok e) /\
  (kw_estimator kw = None ->
     estimator e = false /\ forall u y, estimate e u y = Ok e).
Proof.
  intros H. unfold __init__ in H. repeat step_bind H.
  inversion H; subst; clear H. split.
  - intros b Hb. rewrite Hb. split; [reflexivity|].
    intros u nx ny. unfold __call__; simpl. reflexivity.
  - intros Hb. rewrite Hb. split; [reflexivity|].
    intros u y. unfold estimate; simpl. reflexivity.
Qed.

(** The step counter may not pass the end of the time line: at a
    step [k] that is not an index of the time line a simulation step, an EKF
    tick and a UKF tick all raise [IndexError]. *)
Theorem step_beyond_time_line (e : t F) (u nx ny y : list F) :
  length (time_line e) <= current_step e ->
  (estimator e = false -> __call__ e u nx ny = Raise IndexError) /\
  __nextstepEKF e u y = Raise IndexError /\
  __nextstepUKF e u y = Raise IndexError.
Proof.
  intros H. apply nth_error_None in H.
  repeat split.
  - intros Hest. unfold __call__. rewrite Hest, H. reflexivity.
  - unfold __nextstepEKF, ekf_predict. rewrite H. reflexivity.
  - unfold __nextstepUKF, ukf_predict. rewrite H. reflexivity.
Qed.

Lemma init_fields (p : Plant F) (tl : list F) (kw : kwargs F) (e : t F) :
  __init__ p tl kw = Ok e ->
  plant e = p /\ time_line e = tl /\ current_step e = 0 /\
  inputs e = zeros (n_inputs p) (length tl) /\
  outputs e = zeros (n_outputs p) (length tl) /\
  inst_covariance e = None /\
  estimator e = match kw_estimator kw with Some _ => true | None => false end /\
  est_approach e =
    match kw_estimator kw with
    | Some _ => Some match kw_approach kw with Some a => a | None => "ekf"%string end
    | None => None
    end /\
  exists s0, set_col (zeros (n_states p) (length tl + 1)) 0 (initial_states p) = Ok s0 /\
             match kw_initial kw with
             | Some v => set_col s0 0 v
             | None => Ok s0
             end = Ok (states e).
Proof.
  intros H. unfold __init__ in H. repeat step_bind H.
  inversion H; subst; clear H. simpl.
  repeat split; auto.
  - destruct (kw_estimator kw); reflexivity.
  - eexists; split; [reflexivity|]. assumption.
Qed.

Lemma set_col_again (r c j : nat) (M M1 : matrix F) (v w : list F) :
  0 < r -> shaped r c M -> j < c -> length w = r ->
  set_col M j v = Ok M1 ->
  exists M2, set_col M1 j w = Ok M2 /\ shaped r c M2 /\ col j M2 = w /\
             (forall j', j' <> j -> col j' M2 = col j' M).
Proof.
  intros Hr HM Hj Hw H.
  assert (HM1 : shaped r c M1).
  { unfold set_col in H. apply Nat.ltb_lt in Hj.
    rewrite (shaped_ncols Hr HM), Hj in H. apply Nat.ltb_lt in Hj.
    destruct HM as [Hlen Hrows].
    destruct (Nat.eqb_spec (length v) (nrows M)) as [E|E].
    - inversion H as [HM1]; clear H. subst M1. unfold nrows in E. split.
      + rewrite map2_length_min. lia.
      + apply (@map2_rows _ _ _ (fun a b => set_nth j b a) (fun row => length row = c)
                 (fun row => length row = c) (fun _ => True)); auto.
        * intros a b Ha _. rewrite set_nth_length. exact Ha.
        * apply Forall_forall. auto.
    - destruct v as [|x [|y v]]; try discriminate.
      inversion H as [HM1]; clear H. subst M1. split.
      + rewrite length_map. exact Hlen.
      + rewrite Forall_map. eapply Forall_impl; [|exact Hrows].
        intros row Hrow. cbn beta. rewrite set_nth_length. exact Hrow. }
  destruct (@set_col_shaped F SF r c j M1 w Hr HM1 Hj Hw) as (M2 & H2 & H2s & H2c).
  exists M2. repeat split; auto; try apply H2s.
  intros j' Hj'. rewrite (col_set_col_other _ _ H2 Hj').
  apply (col_set_col_other _ _ H Hj').
Qed.

Lemma col_zeros (r c j : nat) : j < c -> col j (zeros (F:=F) r c) = repeat zero r.
Proof.
  intros Hj. unfold col, zeros. induction r as [|r IH]; simpl; [reflexivity|].
  f_equal; [|exact IH]. apply nth_repeat_lt. exact Hj.
Qed.

(** The constructor returns, with the histories it makes. *)
Lemma initial_histories (p : Plant F) (tl : list F) (kw : kwargs F) :
  0 < n_states p ->
  length (initial_states p) = n_states p ->
  kw_approach kw <> Some "ukf"%string \/ kw_estimator kw = None ->
  match kw_initial kw with Some v => length v = n_states p | None => True end ->
  exists e,
    __init__ p tl kw = Ok e /\
    current_step e = 0 /\
    inputs e = zeros (n_inputs p) (length tl) /\
    outputs e = zeros (n_outputs p) (length tl) /\
    shaped (n_states p) (length tl + 1) (states e) /\
    col 0 (states e) = match kw_initial kw with
                       | Some v => v
                       | None => initial_states p
                       end /\
    (forall j, 0 < j < length tl + 1 -> col j (states e) = repeat zero (n_states p)).
Proof.
  intros Hn Hx Hukf Hv.
  destruct (@set_col_shaped F SF (n_states p) (length tl + 1) 0
              (zeros (n_states p) (length tl + 1)) (initial_states p) Hn
              (zeros_shaped _ _) ltac:(lia) Hx) as (s0 & Hs0 & Hs0s & Hs0c).
  assert (Hs1 : exists s1,
             match kw_initial kw with
             | Some v => set_col s0 0 v
             | None => Ok s0
             end = Ok s1 /\
             shaped (n_states p) (length tl + 1) s1 /\
             col 0 s1 = match kw_initial kw with
                        | Some v => v
                        | None => initial_states p
                        end /\
             (forall j, j <> 0 -> col j s1 = col j (zeros (n_states p) (length tl + 1)))).
  { destruct (kw_initial kw) as [v|].
    - eapply set_col_again; eauto using zeros_shaped. lia.
    - exists s0. repeat split; auto; try apply Hs0s.
      intros j Hj. apply (col_set_col_other _ _ Hs0 Hj). }
  destruct Hs1 as (s1 & Hs1 & Hs1s & Hs1c & Hs1o).
  assert (Hu : exists u,
             (if match kw_estimator kw with Some _ => true | None => false end
              then if String.eqb match kw_approach kw with
                                 | Some a => a | None => "ekf"%string end "ekf"
                   then Ok None
                   else if String.eqb match kw_approach kw with
                                      | Some a => a | None => "ekf"%string end "ukf"
                        then (u <- init_ukf p ;; Ok (Some u))
                        else Ok None
              else Ok None) = Ok u).
  { destruct (kw_estimator kw) as [b|]; [|eexists; reflexivity].
    destruct Hukf as [Hukf|Hukf]; [|discriminate].
    destruct (kw_approach kw) as [a|]; [|eexists; reflexivity].
    destruct (String.eqb a "ekf"); [eexists; reflexivity|].
    destruct (String.eqb_spec a "ukf") as [E|_]; [subst; congruence|].
    eexists; reflexivity. }
  destruct Hu as (u & Hu).
  unfold __init__. rewrite Hs0. cbn [Py.bind]. rewrite Hs1. cbn [Py.bind].
  rewrite Hu. cbn [Py.bind].
  eexists. split; [reflexivity|]. cbn [current_step inputs outputs states].
  repeat split; auto; try apply Hs1s.
  intros j Hj. rewrite Hs1o by lia. apply col_zeros. lia.
Qed.

(** The histories the constructor makes.  Over a time line of [N]
    instants, for a plant with [n_states >= 1] whose [initial_states] has
    [n_states] entries, the constructor returns with the step counter at 0,
    an input and an output history of zeros with [N] columns, and a state
    history of [N + 1] columns that holds the initial state in column 0, the
    keyword [initial] taking precedence over the class attribute, and zeros
    elsewhere. *)
Theorem constructor_histories (p : Plant F) (tl : list F) (kw : kwargs F) :
  0 < n_states p ->
  length (initial_states p) = n_states p ->
  kw_approach kw <> Some "ukf"%string \/ kw_estimator kw = None ->
  match kw_initial kw with Some v => length v = n_states p | None => True end ->
  exists e,
    __init__ p tl kw = Ok e /\
    current_step e = 0 /\
    inputs e = zeros (n_inputs p) (length tl) /\
    outputs e = zeros (n_outputs p) (length tl) /\
    shaped (n_states p) (length tl + 1) (states e) /\
    col 0 (states e) = match kw_initial kw with
                       | Some v => v
                       | None => initial_states p
                       end /\
    (forall j, 0 < j < length tl + 1 -> col j (states e) = repeat zero (n_states p)).
Proof. exact (initial_histories p tl kw). Qed.

(** An approach the engine does not know is accepted in silence.
    Built as an estimator with an [approach] other than ['ekf'] and ['ukf'],
    the constructor returns, and every [estimate] and every [__call__] on the
    engine returns it unchanged: the engine never advances. *)
Theorem unknown_approach_is_silent (p : Plant F) (tl : list F) (kw : kwargs F)
    (a : string) (b : bool) (e : t F) :
  kw_approach kw = Some a -> a <> "ekf"%string -> a <> "ukf"%string ->
  kw_estimator kw = Some b ->
  __init__ p tl kw = Ok e ->
  est_approach e = Some a /\
  (forall u y, estimate e u y = Ok e) /\
  (forall u nx ny, __call__ e u nx ny = Ok e).
Proof.
  intros Ha He Hu Hb H.
  destruct (@init_fields _ _ _ _ H) as (_ & _ & _ & _ & _ & _ & Hest & Happ & _).
  rewrite Hb in Hest, Happ. rewrite Ha in Happ.
  split; [exact Happ|]. split.
  - intros u y. unfold estimate. rewrite Hest, Happ. cbn [negb Py.lookup Py.bind].
    destruct (String.eqb_spec a "ekf"); [contradiction|].
    destruct (String.eqb_spec a "ukf"); [contradiction|]. reflexivity.
  - intros u nx ny. unfold __call__. rewrite Hest. reflexivity.
Qed.

End Simulator.

(** The first step of the scalar simulator of the examples leaves the
    initial state in column 0. *)
Lemma call_writes_one_column_each_witness :
  exists e1,
    Nonlinear.__call__ Example.simulator [1%float] Nonlinear.no_noise Nonlinear.no_noise
    = Ok e1 /\
    Nonlinear.current_step e1 = 1 /\
    col 0 (Nonlinear.states e1) = col 0 (Nonlinear.states Example.simulator).
Proof.
  destruct (Nonlinear.__call__ Example.simulator [1%float]
              Nonlinear.no_noise Nonlinear.no_noise) as [e1|x] eqn:E;
    [|vm_compute in E; discriminate E].
  exists e1. split; [reflexivity|].
  destruct (call_writes_one_column_each Example.simulator [1%float]
              Nonlinear.no_noise Nonlinear.no_noise eq_refl E)
    as (Hk & _ & _ & _ & Hs & _).
  split; [exact Hk|]. apply Hs. simpl. lia.
Defined.

(** [Nonlinear(time_line, estimator=False)] over the scalar plant is an
    estimator, and a simulation step on it does nothing. *)
Lemma estimator_keyword_value_is_ignored_witness :
  exists e,
    Nonlinear.__init__ Example.scalar_plant Example.time_line Example.not_an_estimator
    = Ok e /\
    Nonlinear.estimator e = true /\
    Nonlinear.__call__ e [1%float] Nonlinear.no_noise Nonlinear.no_noise = Ok e.
Proof.
  destruct (Nonlinear.__init__ Example.scalar_plant Example.time_line
              Example.not_an_estimator) as [e|x] eqn:E;
    [|vm_compute in E; discriminate E].
  exists e. split; [reflexivity|].
  destruct (proj1 (estimator_keyword_value_is_ignored Example.scalar_plant
                     Example.time_line Example.not_an_estimator E)
                  false eq_refl) as [He Hc].
  split; [exact He|apply Hc].
Defined.

(** An estimator over an empty time line: its first tick is already past
    the end. *)
Lemma step_beyond_time_line_witness :
  exists e,
    Nonlinear.__init__ Example.scalar_plant [] Example.as_ekf = Ok e /\
    Nonlinear.__nextstepEKF e [1%float] [2%float] = Raise IndexError.
Proof.
  destruct (Nonlinear.__init__ Example.scalar_plant [] Example.as_ekf) as [e|x] eqn:E;
    [|vm_compute in E; discriminate E].
  exists e. split; [reflexivity|].
  destruct (init_fields _ _ _ E) as (_ & Ht & Hk & _).
  refine (proj1 (proj2 (step_beyond_time_line e [1%float] Nonlinear.no_noise
                          Nonlinear.no_noise [2%float] _))).
  rewrite Ht, Hk. simpl. lia.
Defined.

(** The scalar plant of the examples over four instants, with the keyword
    [initial]. *)
Lemma constructor_histories_witness :
  exists e,
    Nonlinear.__init__ Example.scalar_plant Example.time_line
      {| Nonlinear.kw_initial := Some [3%float]; Nonlinear.kw_approach := None;
         Nonlinear.kw_solver := None; Nonlinear.kw_estimator := None |} = Ok e /\
    col 0 (Nonlinear.states e) = [3%float] /\
    col 2 (Nonlinear.states e) = [0%float].
Proof.
  destruct (constructor_histories Example.scalar_plant Example.time_line
              {| Nonlinear.kw_initial := Some [3%float]; Nonlinear.kw_approach := None;
                 Nonlinear.kw_solver := None; Nonlinear.kw_estimator := None |})
    as (e & He & _ & _ & _ & _ & H0 & Hj).
  - simpl. lia.
  - reflexivity.
  - right. reflexivity.
  - reflexivity.
  - exists e. split; [exact He|]. split; [exact H0|]. apply Hj. simpl. lia.
Defined.

(** The scalar plant built with [approach='EKF']. *)
Lemma unknown_approach_is_silent_witness :
  exists e,
    Nonlinear.__init__ Example.scalar_plant Example.time_line
      {| Nonlinear.kw_initial := None; Nonlinear.kw_approach := Some "EKF"%string;
         Nonlinear.kw_solver := None; Nonlinear.kw_estimator := Some true |} = Ok e /\
    Nonlinear.estimate e [1%float] [2%float] = Ok e.
Proof.
  destruct (Nonlinear.__init__ Example.scalar_plant Example.time_line
      {| Nonlinear.kw_initial := None; Nonlinear.kw_approach := Some "EKF"%string;
         Nonlinear.kw_solver := None; Nonlinear.kw_estimator := Some true |})
    as [e|x] eqn:E; [|vm_compute in E; discriminate E].
  exists e. split; [reflexivity|].
  refine (proj1 (proj2 (unknown_approach_is_silent (a:="EKF"%string) (b:=true)
                          Example.scalar_plant Example.time_line
                          {| Nonlinear.kw_initial := None;
                             Nonlinear.kw_approach := Some "EKF"%string;
                             Nonlinear.kw_solver := None;
                             Nonlinear.kw_estimator := Some true |}
                          eq_refl _ _ eq_refl E)) _ _); discriminate.
Defined.

(* ================================================================= *)
(** ** The plants of [general_blocks] *)

Section Plants.

Context {F : Type} {SF : Scalar F} {LA : LinAlg F} {SC : SolverCore F}.

Import Nonlinear.

Ltac step_bind H :=
  match type of H with
  | Py.bind ?c _ = Ok _ =>
      let E := fresh "E" in
      destruct c eqn:E; simpl in H; [|discriminate H]
  | context [match ?a with pair _ _ => _ end] =>
      is_var a; destruct a; simpl in H
  end.

(** An estimator over a plant without the attribute [q_matrix] never
    completes a tick. *)
Lemma tick_without_q_matrix (e : t F) (u y : list F) :
  q_matrix (plant e) = None ->
  (exists x, __nextstepEKF e u y = Raise x) /\
  (exists x, __nextstepUKF e u y = Raise x).
Proof.
  intros Hq. split.
  - destruct (__nextstepEKF e u y) as [e1|x] eqn:H; [exfalso|eexists; reflexivity].
    unfold __nextstepEKF in H. step_bind H.
    unfold ekf_predict in E. repeat step_bind E.
    match goal with
    | Q : Py.lookup _ (q_matrix (plant e)) = Ok _ |- _ => rewrite Hq in Q; discriminate Q
    end.
  - destruct (__nextstepUKF e u y) as [e1|x] eqn:H; [exfalso|eexists; reflexivity].
    unfold __nextstepUKF in H. step_bind H. destruct a as [pr ss].
    unfold ukf_predict in E. repeat step_bind E.
    match goal with
    | Q : Py.lookup _ (q_matrix (plant e)) = Ok _ |- _ => rewrite Hq in Q; discriminate Q
    end.
Qed.

(** The two tank plants bind their process noise to the name [q_atrix], so
    an estimator over [QuadrupleTank] or [TwoTanks] never completes a tick:
    every EKF tick and every UKF tick raises, and so does every [estimate] on
    an engine built with [estimator] and the approach ['ekf'] or ['ukf']. *)
Theorem tank_estimators_always_raise (e : t F) (u y : list F) :
  plant e = QuadrupleTank.plant \/ plant e = TwoTanks.plant ->
  (exists x, __nextstepEKF e u y = Raise x) /\
  (exists x, __nextstepUKF e u y = Raise x) /\
  (estimator e = true ->
   est_approach e = Some "ekf"%string \/ est_approach e = Some "ukf"%string ->
   exists x, estimate e u y = Raise x).
Proof.
  intros Hp.
  assert (Hq : q_matrix (plant e) = None) by (destruct Hp as [Hp|Hp]; rewrite Hp; reflexivity).
  destruct (tick_without_q_matrix e u y Hq) as [HE HU].
  repeat split; auto.
  intros Hest [Ha|Ha]; unfold estimate; rewrite Hest, Ha; simpl; auto.
Qed.

Lemma set_col_two_into_one (M : matrix F) (j : nat) (v : list F) :
  nrows M = 1 -> length v = 2 -> exists x, set_col M j v = Raise x.
Proof.
  intros HM Hv. unfold set_col. destruct (j <? ncols M); [|eexists; reflexivity].
  rewrite HM, Hv. simpl.
  destruct v as [|a [|b [|c v]]]; try discriminate. eexists; reflexivity.
Qed.

(** [TwoTanks] declares one output and measures two, so a
    simulation step can never store its output: every [__call__] on a
    [TwoTanks] simulator whose output history has the one row the constructor
    gives it raises. *)
Theorem two_tanks_call_always_raises (e : t F) (u nx ny : list F) :
  plant e = TwoTanks.plant ->
  estimator e = false ->
  nrows (outputs e) = 1 ->
  exists x, __call__ e u nx ny = Raise x.
Proof.
  intros Hp Hest Hout.
  destruct (__call__ e u nx ny) as [e1|x] eqn:H; [exfalso|eexists; reflexivity].
  unfold __call__ in H. rewrite Hest, Hp in H.
  repeat step_bind H.
  match goal with
  | Hm : TwoTanks._measurements _ _ _ _ _ = Ok ?y,
    Ha : add_flat (flatten ?y) ny = Ok ?ys,
    Hs : set_col (outputs e) _ ?ys = Ok _ |- _ =>
      unfold TwoTanks._measurements in Hm;
      destruct (get_col (states e) (current_step e)) as [xk|] eqn:Hxk;
        [|discriminate Hm];
      cbn [Py.bind] in Hm;
      destruct (Nat.eqb_spec (length xk) 2) as [Hlen|]; [|discriminate Hm];
      inversion Hm; subst; clear Hm;
      apply add_flat_two in Ha;
      [ destruct (@set_col_two_into_one (outputs e) (current_step e) ys Hout Ha) as [x Hx];
        rewrite Hx in Hs; discriminate Hs
      | destruct xk as [|a' [|b' [|c' xk]]]; try discriminate; reflexivity ]
  end.
Qed.

Lemma set_col_zeros_first (r c : nat) (v : list F) :
  0 < r -> length v = r ->
  exists M, set_col (zeros r (c + 1)) 0 v = Ok M /\ shaped r (c + 1) M /\ col 0 M = v.
Proof.
  intros Hr Hv. apply set_col_shaped; auto; [apply zeros_shaped|lia].
Qed.

(** None of the plants of [general_blocks] has the attribute
    [num_states] that the UKF branch of the constructor reads, so building
    any of them with [approach='ukf'] raises [AttributeError]. *)
Theorem shipped_plants_refuse_ukf (globals : string -> option (matrix F))
    (tl : list F) (solver : option string) (b : bool) :
  let kw := {| kw_initial := None; kw_approach := Some "ukf"%string;
               kw_solver := solver; kw_estimator := Some b |} in
  __init__ QuadrupleTank.plant tl kw = Raise (AttributeError "num_states") /\
  __init__ TwoTanks.plant tl kw = Raise (AttributeError "num_states") /\
  __init__ (Lorenz.plant globals) tl kw = Raise (AttributeError "num_states").
Proof.
  intros kw.
  assert (H : forall p : Plant F,
             0 < n_states p -> length (initial_states p) = n_states p ->
             num_states p = None ->
             __init__ p tl kw = Raise (AttributeError "num_states")).
  { intros p Hn Hx Hnone. unfold __init__.
    destruct (set_col_zeros_first (length tl) (initial_states p) Hn Hx) as (M & HM & _).
    rewrite HM. cbn [Py.bind kw kw_initial kw_approach kw_estimator].
    cbn [String.eqb Ascii.eqb Bool.eqb]. cbv iota.
    unfold init_ukf. rewrite Hnone. reflexivity. }
  repeat split; apply H; simpl; auto; lia.
Qed.

Lemma entry_shaped (r c i j : nat) (M : matrix F) :
  shaped r c M -> i < r -> j < c -> exists v, entry M i j = Ok v.
Proof.
  intros [Hlen Hrows] Hi Hj. unfold entry.
  destruct (nth_error M i) as [row|] eqn:E.
  - assert (Hrow : length row = c).
    { rewrite Forall_forall in Hrows. apply Hrows. eapply nth_error_In; eauto. }
    destruct (nth_error row j) as [v|] eqn:E'.
    + exists v; reflexivity.
    + apply nth_error_None in E'. lia.
  - apply nth_error_None in E. lia.
Qed.

(** The [_jacobians] of the two tank plants assign into the state
    history they are handed: on a history of the plant's size and a column
    [k] of it, the call returns, and the history it leaves has column [k]
    replaced by its entrywise maximum with [1e-3], every other column as it
    was. *)
Theorem tank_jacobians_assign_into_history (x u : matrix F) (k c : nat) (st t : F) :
  k < c ->
  (shaped 4 c x ->
   exists x1 J, QuadrupleTank._jacobians x u k st t = Ok (x1, J) /\
     shaped 4 c x1 /\
     col k x1 = map (fun v => maximum v (lit 1 1000)) (col k x) /\
     (forall j, j <> k -> col j x1 = col j x)) /\
  (shaped 2 c x ->
   exists x1 J, TwoTanks._jacobians x u k st t = Ok (x1, J) /\
     shaped 2 c x1 /\
     col k x1 = map (fun v => maximum v (lit 1 1000)) (col k x) /\
     (forall j, j <> k -> col j x1 = col j x)).
Proof.
  intros Hk. split; intros Hx.
  - unfold QuadrupleTank._jacobians.
    rewrite (get_col_ok (r:=4) (c:=c)) by (auto; lia). cbn [Py.bind].
    destruct (@set_col_shaped _ _ 4 c k x (map (fun v => maximum v (lit 1 1000)) (col k x)))
      as (x1 & Hset & Hx1 & Hcol); auto; try lia.
    { rewrite length_map, col_length. destruct Hx; auto. }
    rewrite Hset. cbn [Py.bind].
    destruct (@entry_shaped 4 c 0 k x1 Hx1) as [v0 E0]; [lia|auto|].
    destruct (@entry_shaped 4 c 2 k x1 Hx1) as [v2 E2]; [lia|auto|].
    destruct (@entry_shaped 4 c 1 k x1 Hx1) as [v1 E1]; [lia|auto|].
    destruct (@entry_shaped 4 c 3 k x1 Hx1) as [v3 E3]; [lia|auto|].
    rewrite E0, E2, E1, E3. cbn [Py.bind].
    eexists; eexists; split; [reflexivity|]. repeat split; auto; try apply Hx1.
    intros j Hj. eapply col_set_col_other; eauto.
  - unfold TwoTanks._jacobians.
    rewrite (get_col_ok (r:=2) (c:=c)) by (auto; lia). cbn [Py.bind].
    destruct (@set_col_shaped _ _ 2 c k x (map (fun v => maximum v (lit 1 1000)) (col k x)))
      as (x1 & Hset & Hx1 & Hcol); auto; try lia.
    { rewrite length_map, col_length. destruct Hx; auto. }
    rewrite Hset. cbn [Py.bind].
    destruct (@entry_shaped 2 c 0 k x1 Hx1) as [v0 E0]; [lia|auto|].
    destruct (@entry_shaped 2 c 1 k x1 Hx1) as [v1 E1]; [lia|auto|].
    rewrite E0, E1. cbn [Py.bind].
    eexists; eexists; split; [reflexivity|]. repeat split; auto; try apply Hx1.
    intros j Hj. eapply col_set_col_other; eauto.
Qed.

End Plants.

(** The quadruple tank built as an EKF: its first tick raises. *)
Lemma tank_estimators_always_raise_witness :
  exists e,
    Nonlinear.__init__ QuadrupleTank.plant Example.time_line Example.as_ekf = Ok e /\
    exists x, Nonlinear.__nextstepEKF e [1%float; 1%float] [0%float; 0%float] = Raise x.
Proof.
  destruct (Nonlinear.__init__ QuadrupleTank.plant Example.time_line Example.as_ekf)
    as [e|x] eqn:E; [|vm_compute in E; discriminate E].
  exists e. split; [reflexivity|].
  destruct (init_fields _ _ _ E) as (Hp & _).
  exact (proj1 (tank_estimators_always_raise e [1%float; 1%float] [0%float; 0%float]
                  (or_introl Hp))).
Defined.

(** The two tanks built as a simulator: its first step raises. *)
Lemma two_tanks_call_always_raises_witness :
  exists e,
    Nonlinear.__init__ TwoTanks.plant Example.time_line
                       (LinearSimulation.as_simulator (F:=float)) = Ok e /\
    exists x, Nonlinear.__call__ e [1%float; 1%float]
                                 Nonlinear.no_noise Nonlinear.no_noise = Raise x.
Proof.
  destruct (Nonlinear.__init__ TwoTanks.plant Example.time_line
              (LinearSimulation.as_simulator (F:=float)))
    as [e|x] eqn:E; [|vm_compute in E; discriminate E].
  exists e. split; [reflexivity|].
  destruct (init_fields _ _ _ E) as (Hp & _ & _ & _ & Ho & _ & He & _).
  apply (two_tanks_call_always_raises e [1%float; 1%float] Nonlinear.no_noise
           Nonlinear.no_noise Hp He).
  rewrite Ho. reflexivity.
Defined.

(** The history of the quadruple tank at its initial state, two columns. *)
Lemma tank_jacobians_assign_into_history_witness :
  exists x1 J,
    QuadrupleTank._jacobians (zeros 4 2) (zeros 2 2) 0 1%float 0%float = Ok (x1, J) /\
    shaped 4 2 x1 /\
    col 0 x1 = map (fun v => maximum v (lit 1 1000)) (col 0 (zeros (F:=float) 4 2)) /\
    (forall j, j <> 0 -> col j x1 = col j (zeros (F:=float) 4 2)).
Proof.
  apply (proj1 (@tank_jacobians_assign_into_history float Float64.scalar
                  (zeros 4 2) (zeros 2 2) 0 2 1%float 0%float ltac:(lia))).
  apply zeros_shaped.
Defined.

(* ================================================================= *)
(** ** The sample time *)

(** With a time line of fewer than three instants the constructor
    takes the mean of an empty array: the sample time of the engine is
    not-a-number. *)
Theorem short_time_line_has_no_sample_time (p : Plant float) (tl : list float)
    (kw : Nonlinear.kwargs float) (e : Nonlinear.t float) :
  length tl <= 2 ->
  Nonlinear.__init__ p tl kw = Ok e ->
  PrimFloat.is_nan (Nonlinear.sample_time e) = true.
Proof.
  intros Hlen H.
  assert (Hst : Nonlinear.sample_time e
                = Nonlinear.mean (map2 sub (removelast (List.tl tl))
                                           (removelast (removelast tl)))).
  { unfold Nonlinear.__init__ in H.
    destruct (set_col _ 0 (initial_states p)); simpl in H; [|discriminate].
    destruct (match Nonlinear.kw_initial kw with Some _ => _ | None => _ end);
      simpl in H; [|discriminate].
    match type of H with
    | Py.bind ?c _ = _ => destruct c; simpl in H; [|discriminate]
    end.
    inversion H; subst; reflexivity. }
  rewrite Hst.
  destruct tl as [|a [|b [|c tl]]]; simpl in Hlen; try lia; reflexivity.
Qed.

(** A time line of two instants. *)
Lemma short_time_line_has_no_sample_time_witness :
  exists e,
    Nonlinear.__init__ Example.scalar_plant [0%float; 1%float] Example.as_ekf = Ok e /\
    PrimFloat.is_nan (Nonlinear.sample_time e) = true.
Proof.
  destruct (Nonlinear.__init__ Example.scalar_plant [0%float; 1%float] Example.as_ekf)
    as [e|x] eqn:E; [|vm_compute in E; discriminate E].
  exists e. split; [reflexivity|].
  apply (@short_time_line_has_no_sample_time Example.scalar_plant
           [0%float; 1%float] Example.as_ekf e); [simpl; lia|exact E].
Defined.

(* ================================================================= *)
(** ** Simulating a linear plant *)

Section LinearRun.

Context {F : Type} {SF : Scalar F} {LA : LinAlg F} {SC : SolverCore F}.

Variables (A B H D : matrix F) (x0 : list F) (P0 Q R : matrix F) (al ka : F).
Variables (n m l N : nat).

Hypothesis (Hn : 0 < n) (Hm : 0 < m) (Hl : 0 < l).
Hypothesis (HA : shaped n n A) (HB : shaped n m B) (HH : shaped l n H).
Hypothesis (Hx0 : length x0 = n).

Import LinearSimulation.

Local Notation "'linear'" := (LinearPlant.plant A B H D x0 P0 Q R al ka).

Local Notation "'ready_at'" := (ready linear n m l N).

Lemma linear_call (e : Nonlinear.t F) (k : nat) (u nx ny : list F) :
  ready_at e k -> k < N -> fits n m l (u, nx, ny) ->
  exists e1,
    Nonlinear.__call__ e u nx ny = Ok e1 /\
    ready_at e1 (k + 1) /\
    col k (Nonlinear.inputs e1) = u /\
    next_state A B (col k (Nonlinear.states e)) u nx
    = Ok (col (k + 1) (Nonlinear.states e1)) /\
    output H (col k (Nonlinear.states e)) ny = Ok (col k (Nonlinear.outputs e1)) /\
    (forall j, j <> k + 1 -> col j (Nonlinear.states e1) = col j (Nonlinear.states e)) /\
    (forall j, j <> k -> col j (Nonlinear.inputs e1) = col j (Nonlinear.inputs e)) /\
    (forall j, j <> k -> col j (Nonlinear.outputs e1) = col j (Nonlinear.outputs e)).
Proof.
  intros (Sp & Se & St & Ss & Si & So & Sk) Hk (Hu & Hnx & Hny).
  simpl in Hu, Hnx, Hny. subst k.
  set (k := Nonlinear.current_step e) in *.
  destruct (@set_col_shaped F SF m N k (Nonlinear.inputs e) u Hm Si Hk Hu)
    as (i1 & Hi1 & Hi1s & Hi1c).
  destruct (nth_error (Nonlinear.time_line e) k) as [t|] eqn:Et;
    [|apply nth_error_None in Et; lia].
  set (xk := col k (Nonlinear.states e)).
  assert (Hxk : length xk = n) by (unfold xk; rewrite col_length; apply Ss).
  set (xn := madd (dot A (column xk)) (dot B (column u))).
  assert (Hxn1 : Forall (fun row => length row = 1) xn).
  { unfold xn, madd. apply entrywise_rows.
    - pose proof (dot_rows A (column xk)) as Hd.
      rewrite (@column_ncols F xk) in Hd; [exact Hd|lia].
    - pose proof (dot_rows B (column u)) as Hd.
      rewrite (@column_ncols F u) in Hd; [exact Hd|lia]. }
  assert (Hxnn : length xn = n).
  { unfold xn, madd. rewrite map2_length_min, !dot_nrows.
    destruct HA as [HlenA _], HB as [HlenB _]. lia. }
  set (yk := dot H (column xk)).
  assert (Hyk1 : Forall (fun row => length row = 1) yk).
  { unfold yk. pose proof (dot_rows H (column xk)) as Hd.
    rewrite (@column_ncols F xk) in Hd; [exact Hd|lia]. }
  assert (Hykl : length yk = l).
  { unfold yk. rewrite dot_nrows. apply HH. }
  destruct (add_flat_fits (flatten xn) nx) as (xs & Hxs & Hxsl).
  { rewrite flatten_length by exact Hxn1. rewrite Hxnn. exact Hnx. }
  rewrite flatten_length in Hxsl by exact Hxn1.
  destruct (add_flat_fits (flatten yk) ny) as (ys & Hys & Hysl).
  { rewrite flatten_length by exact Hyk1. rewrite Hykl. exact Hny. }
  rewrite flatten_length in Hysl by exact Hyk1.
  destruct (@set_col_shaped F SF n (N + 1) (k + 1) (Nonlinear.states e) xs Hn Ss)
    as (s1 & Hs1 & Hs1s & Hs1c); [lia|congruence|].
  destruct (@set_col_shaped F SF l N k (Nonlinear.outputs e) ys Hl So Hk)
    as (o1 & Ho1 & Ho1s & Ho1c); [congruence|].
  assert (Hcall : Nonlinear.__call__ e u nx ny =
            Ok {| Nonlinear.plant := linear;
                  Nonlinear.time_line := Nonlinear.time_line e;
                  Nonlinear.sample_time := Nonlinear.sample_time e;
                  Nonlinear.n_steps := Nonlinear.n_steps e;
                  Nonlinear.self_solver_type := Nonlinear.self_solver_type e;
                  Nonlinear.current_step := k + 1;
                  Nonlinear.inputs := i1;
                  Nonlinear.outputs := o1;
                  Nonlinear.states := s1;
                  Nonlinear.estimator := Nonlinear.estimator e;
                  Nonlinear.est_approach := Nonlinear.est_approach e;
                  Nonlinear.inst_covariance := Nonlinear.inst_covariance e;
                  Nonlinear.ukf := Nonlinear.ukf e |}).
  { unfold Nonlinear.__call__. rewrite Se. fold k.
    rewrite Et, Hi1, Sp. cbn [Py.lookup Py.bind].
    cbn [_limitations LinearPlant.plant LinearPlant.limitations Py.bind].
    rewrite (@get_col_ok F SF n (N + 1) k _ Hn Ss) by lia. cbn [Py.bind].
    cbn [time_type LinearPlant.plant].
    replace (String.eqb "d" "c") with false by reflexivity.
    unfold Nonlinear.handle_dyn.
    cbn [_dynamics LinearPlant.plant]. unfold LinearPlant.dynamics.
    rewrite (@get_col_ok F SF n (N + 1) k _ Hn Ss) by lia. cbn [Py.bind].
    rewrite (@get_col_ok F SF m N k _ Hm Hi1s) by lia. cbn [Py.bind].
    rewrite Hi1c. fold xk. fold xn.
    cbn [_limitations LinearPlant.plant LinearPlant.limitations Py.bind].
    cbn [_measurements LinearPlant.plant]. unfold LinearPlant.measurements.
    rewrite (@get_col_ok F SF n (N + 1) k _ Hn Ss) by lia. cbn [Py.bind].
    fold xk. fold yk. rewrite Hxs. cbn [Py.bind]. rewrite Hs1. cbn [Py.bind].
    rewrite Hys. cbn [Py.bind]. rewrite Ho1. cbn [Py.bind]. reflexivity. }
  eexists. split; [exact Hcall|]. unfold ready.
  cbn [Nonlinear.plant Nonlinear.estimator Nonlinear.time_line Nonlinear.states
       Nonlinear.inputs Nonlinear.outputs Nonlinear.current_step].
  split; [auto 10|]. split; [exact Hi1c|]. split.
  { unfold next_state. fold xk xn. rewrite Hxs, Hs1c. reflexivity. }
  split.
  { unfold output. fold xk yk. rewrite Hys, Ho1c. reflexivity. }
  repeat split; intros j Hj; eapply col_set_col_other; eauto.
Qed.

Lemma linear_simulate (ticks : list (list F * list F * list F)) :
  forall e k,
    ready_at e k -> k + length ticks <= N -> Forall (fits n m l) ticks ->
    exists e1,
      Nonlinear.simulate e ticks = Ok e1 /\
      ready_at e1 (k + length ticks) /\
      (forall j, j <= k -> col j (Nonlinear.states e1) = col j (Nonlinear.states e)) /\
      (forall j, j < k -> col j (Nonlinear.inputs e1) = col j (Nonlinear.inputs e)) /\
      (forall j, j < k -> col j (Nonlinear.outputs e1) = col j (Nonlinear.outputs e)) /\
      (forall i u nx ny, nth_error ticks i = Some (u, nx, ny) ->
         col (k + i) (Nonlinear.inputs e1) = u /\
         next_state A B (col (k + i) (Nonlinear.states e1)) u nx
         = Ok (col (k + i + 1) (Nonlinear.states e1)) /\
         output H (col (k + i) (Nonlinear.states e1)) ny
         = Ok (col (k + i) (Nonlinear.outputs e1))).
Proof.
  induction ticks as [|[[u nx] ny] rest IH]; intros e k Hr Hk Hf.
  - exists e. cbn [Nonlinear.simulate length]. rewrite Nat.add_0_r.
    split; [reflexivity|]. split; [exact Hr|].
    split; [reflexivity|]. split; [reflexivity|]. split; [reflexivity|].
    intros [|i] ? ? ? Hi; discriminate Hi.
  - apply Forall_cons_iff in Hf. destruct Hf as [Hfit Hrest]. cbn [length] in Hk.
    destruct (@linear_call e k u nx ny Hr ltac:(lia) Hfit)
      as (e' & Hcall & Hr' & Hin & Hst & Hout & Fs & Fi & Fo).
    destruct (IH e' (k + 1) Hr' ltac:(lia) Hrest)
      as (e1 & Hsim & Hr1 & Gs & Gi & Go & Gt).
    exists e1. cbn [Nonlinear.simulate]. rewrite Hcall. cbn [Py.bind].
    split; [exact Hsim|]. split.
    { cbn [length]. replace (k + S (length rest)) with (k + 1 + length rest) by lia.
      exact Hr1. }
    split. { intros j Hj. rewrite Gs by lia. apply Fs. lia. }
    split. { intros j Hj. rewrite Gi by lia. apply Fi. lia. }
    split. { intros j Hj. rewrite Go by lia. apply Fo. lia. }
    intros [|i] u' nx' ny' Hi.
    + cbn [nth_error] in Hi. inversion Hi; subst; clear Hi.
      rewrite Nat.add_0_r.
      rewrite (Gi k) by lia. rewrite (Gs k) by lia. rewrite (Gs (k + 1)) by lia.
      rewrite (Go k) by lia. rewrite (Fs k) by lia. auto.
    + cbn [nth_error] in Hi. destruct (Gt i u' nx' ny' Hi) as (G1 & G2 & G3).
      replace (k + S i) with (k + 1 + i) by lia. auto.
Qed.

Lemma simulator_ready (tl : list F) :
  length tl = N ->
  exists e0,
    Nonlinear.__init__ linear tl (as_simulator (F:=F)) = Ok e0 /\
    ready_at e0 0 /\ col 0 (Nonlinear.states e0) = x0.
Proof.
  intros HN.
  pose proof HA as [HlenA _]. pose proof HH as [HlenH _].
  pose proof (shaped_ncols Hn HB) as HcB.
  destruct (@set_col_shaped F SF n (N + 1) 0 (zeros n (N + 1)) x0 Hn
              (zeros_shaped n (N + 1)) ltac:(lia) Hx0) as (s0 & Hs0 & Hs0s & Hs0c).
  unfold Nonlinear.__init__, as_simulator.
  cbn [Nonlinear.kw_initial Nonlinear.kw_approach Nonlinear.kw_solver
       Nonlinear.kw_estimator n_states initial_states LinearPlant.plant].
  unfold nrows. rewrite HlenA, HN, Hs0. cbn [Py.bind].
  eexists; split; [reflexivity|]. split; [|exact Hs0c].
  unfold ready.
  cbn [Nonlinear.plant Nonlinear.estimator Nonlinear.time_line Nonlinear.states
       Nonlinear.inputs Nonlinear.outputs Nonlinear.current_step].
  repeat split; auto; try apply Hs0s.
  - cbn [n_inputs LinearPlant.plant]. rewrite HcB. apply zeros_shaped.
  - cbn [n_inputs LinearPlant.plant]. rewrite HcB. apply zeros_shaped.
  - cbn [n_outputs LinearPlant.plant]. unfold nrows. rewrite HlenH. apply zeros_shaped.
  - cbn [n_outputs LinearPlant.plant]. unfold nrows. rewrite HlenH. apply zeros_shaped.
Qed.

(** A discrete linear plant simulates the whole of its time line.
    Over a time line of [N] instants every sequence of at most [N] steps
    returns; afterwards the step counter is the number of steps, column 0 of
    the state history is the initial state, and for the [i]-th step the input
    history holds its input at column [i], the state history at column [i+1]
    holds [A x + B u] plus the state noise for [x] the column [i], and the
    output history at column [i] holds [H x] plus the output noise.  After
    [N] steps every further step raises [IndexError]. *)
Theorem linear_plant_simulates_time_line (tl : list F)
    (ticks : list (list F * list F * list F)) :
  length tl = N ->
  length ticks <= N ->
  Forall (fits n m l) ticks ->
  exists e0 e1,
    Nonlinear.__init__ (LinearPlant.plant A B H D x0 P0 Q R al ka) tl
                       (as_simulator (F:=F)) = Ok e0 /\
    Nonlinear.simulate e0 ticks = Ok e1 /\
    Nonlinear.current_step e1 = length ticks /\
    col 0 (Nonlinear.states e1) = x0 /\
    (forall i u nx ny, nth_error ticks i = Some (u, nx, ny) ->
       col i (Nonlinear.inputs e1) = u /\
       next_state A B (col i (Nonlinear.states e1)) u nx
       = Ok (col (i + 1) (Nonlinear.states e1)) /\
       output H (col i (Nonlinear.states e1)) ny
       = Ok (col i (Nonlinear.outputs e1))) /\
    (length ticks = N ->
     forall u nx ny, Nonlinear.__call__ e1 u nx ny = Raise IndexError).
Proof.
  intros HN Hlen Hf.
  destruct (@simulator_ready tl HN) as (e0 & Hinit & Hr0 & Hx).
  destruct (@linear_simulate ticks e0 0 Hr0 ltac:(lia) Hf)
    as (e1 & Hsim & Hr1 & Gs & _ & _ & Gt).
  exists e0, e1. split; [exact Hinit|]. split; [exact Hsim|].
  destruct Hr1 as (Sp & Se & St & Ss & Si & So & Sk). cbn [Nat.add] in Sk.
  split; [exact Sk|]. split; [rewrite Gs by lia; exact Hx|]. split.
  - intros i u nx ny Hi. exact (Gt i u nx ny Hi).
  - intros Hfull u nx ny. unfold Nonlinear.__call__. rewrite Se, Sk, Hfull.
    assert (E : nth_error (Nonlinear.time_line e1) N = None)
      by (apply nth_error_None; lia).
    rewrite E. reflexivity.
Qed.

End LinearRun.

(** The scalar simulator of the examples, two steps, the second with a
    state noise. *)
Lemma linear_plant_simulates_time_line_witness :
  exists e0 e1,
    Nonlinear.__init__ Example.scalar_plant Example.time_line
                       (LinearSimulation.as_simulator (F:=float)) = Ok e0 /\
    Nonlinear.simulate e0 [([1%float], Nonlinear.no_noise, Nonlinear.no_noise);
                           ([2%float], [0.5%float], Nonlinear.no_noise)] = Ok e1 /\
    Nonlinear.current_step e1 = 2 /\
    col 0 (Nonlinear.states e1) = [1%float].
Proof.
  destruct (@linear_plant_simulates_time_line float Float64.scalar Float64.solver
              [[0.5%float]] [[1%float]] [[1%float]] [[0%float]]
              [1%float] [[1%float]] [[0.25%float]] [[1%float]] 1%float 0%float
              1 1 1 4 ltac:(lia) ltac:(lia) ltac:(lia)
              ltac:(repeat constructor) ltac:(repeat constructor)
              ltac:(repeat constructor) eq_refl
              Example.time_line
              [([1%float], Nonlinear.no_noise, Nonlinear.no_noise);
               ([2%float], [0.5%float], Nonlinear.no_noise)]
              eq_refl ltac:(simpl; lia)
              ltac:(repeat constructor; simpl; auto))
    as (e0 & e1 & H0 & H1 & Hk & Hx & _).
  exists e0, e1. auto.
Defined.
(* ================================================================= *)
(** ** More of the recorder *)

Section RecorderMethods.

Context {F : Type} {SF : Scalar F}.

Import Scope.

(** The constructor keeps a well-formed [initial] of shape
    [(n_signals, size of the time line)] over two instants or more. *)
Lemma scope_init_keeps_array (tl initial : ndarray F) (r : nat) :
  2 <= size tl ->
  wf_array initial ->
  fst (shape initial) = r ->
  snd (shape initial) = size tl ->
  __init__ tl r initial =
  Ok {| time_line := as_row tl; n_signals := r; signals := initial;
        current_step := 0; n := size tl |}.
Proof.
  intros HT [Hlen Hrows] Hr Hc.
  unfold __init__. rewrite size_as_row.
  set (T := size tl) in *. rewrite Hr, Hc in *.
  destruct (Nat.eqb_spec (r + T) r) as [E|_]; [lia|].
  destruct (Nat.eqb_spec (r + T) (r + 1)) as [E1|_]; [lia|]. simpl.
  destruct (Nat.eqb_spec (r + T) 1) as [E2|_]; [lia|].
  destruct (Nat.eqb_spec (r + T) 2) as [E3|_]; simpl.
  - assert (r = 0) by lia. assert (T = 2) by lia. subst r.
    destruct initial as [[r0 c0] d]; simpl in *. subst.
    destruct d; [|discriminate]. rewrite H0. reflexivity.
  - rewrite !Nat.eqb_refl. simpl. reflexivity.
Qed.

Lemma column_assignment (c j : nat) (M : matrix F) :
  Forall (fun row => length row = c) M -> j < c ->
  forall v, length v = length M ->
    length (map2 (fun row x => set_nth j x row) M v) = length M /\
    Forall (fun row => length row = c) (map2 (fun row x => set_nth j x row) M v) /\
    col j (map2 (fun row x => set_nth j x row) M v) = v /\
    (forall j', j' <> j ->
       col j' (map2 (fun row x => set_nth j x row) M v) = col j' M).
Proof.
  intros Hrows Hj.
  induction Hrows as [|row M Hrow Hrows IH]; intros [|x v] Hv;
    simpl in Hv; try discriminate.
  - simpl. repeat split; auto.
  - destruct (IH v ltac:(lia)) as (I1 & I2 & I3 & I4). simpl.
    repeat split.
    + f_equal. exact I1.
    + constructor; [rewrite set_nth_length; exact Hrow|exact I2].
    + f_equal; [apply nth_set_nth_same; lia|exact I3].
    + intros j' Hj'. f_equal; [apply nth_set_nth_other; lia|apply I4; exact Hj'].
Qed.

Lemma assigned_column (a : ndarray F) (j : nat) (v : list F) :
  wf_array a -> j < snd (shape a) -> length v = fst (shape a) ->
  exists a1,
    assign_column a j v = Ok a1 /\ wf_array a1 /\ shape a1 = shape a /\
    col j (data a1) = v /\
    (forall j', j' <> j -> col j' (data a1) = col j' (data a)).
Proof.
  intros [Hlen Hrows] Hj Hv. unfold assign_column.
  apply Nat.ltb_lt in Hj. rewrite Hj. apply Nat.ltb_lt in Hj.
  rewrite Hv, Nat.eqb_refl.
  eexists; split; [reflexivity|]. cbn [shape data].
  rewrite <- Hlen in Hv.
  destruct (column_assignment Hrows Hj v Hv) as (H1 & H2 & H3 & H4).
  split; [|auto]. split; cbn [shape data]; [rewrite H1; exact Hlen|exact H2].
Qed.

Lemma get_stores (s : t F) (d w : list F) :
  wf s -> current_step s < size (time_line s) ->
  length d = n_signals s -> length w = n_signals s ->
  exists s1,
    get s d w = Ok s1 /\ wf s1 /\
    current_step s1 = current_step s + 1 /\
    n_signals s1 = n_signals s /\ time_line s1 = time_line s /\
    col (current_step s) (data (signals s1)) = map2 add d w /\
    (forall j, j <> current_step s ->
       col j (data (signals s1)) = col j (data (signals s))).
Proof.
  intros (Hw & Hn & Hc) Hk Hd Hw'.
  unfold get, add_flat. rewrite Hd, Hw', Nat.eqb_refl. cbn [Py.bind].
  destruct (@assigned_column (signals s) (current_step s) (map2 add d w) Hw)
    as (a1 & Ha1 & Hwa1 & Hsh & Hcol & Hfr).
  { rewrite Hc. exact Hk. }
  { rewrite map2_length_min, Hd, Hw', Hn. apply Nat.min_id. }
  rewrite Ha1. cbn [Py.bind].
  eexists; split; [reflexivity|].
  unfold wf; cbn [signals n_signals time_line current_step].
  rewrite Hsh. repeat split; auto; apply Hwa1.
Qed.

Lemma record_stores (samples : list (list F * list F)) :
  forall s,
    wf s ->
    current_step s + length samples <= size (time_line s) ->
    Forall (fun dw => length (fst dw) = n_signals s /\ length (snd dw) = n_signals s)
           samples ->
    exists s1,
      record s samples = Ok s1 /\ wf s1 /\
      current_step s1 = current_step s + length samples /\
      n_signals s1 = n_signals s /\ time_line s1 = time_line s /\
      (forall i d w, nth_error samples i = Some (d, w) ->
         col (current_step s + i) (data (signals s1)) = map2 add d w) /\
      (forall j, j < current_step s \/ current_step s + length samples <= j ->
         col j (data (signals s1)) = col j (data (signals s))).
Proof.
  induction samples as [|[d w] rest IH]; intros s Hwf Hk Hf.
  - exists s. cbn [record length]. rewrite Nat.add_0_r.
    split; [reflexivity|]. split; [exact Hwf|]. split; [reflexivity|].
    split; [reflexivity|]. split; [reflexivity|]. split; [|reflexivity].
    intros [|i] ? ? Hi; discriminate Hi.
  - inversion Hf as [|? ? [Hd Hw] Hrest]; subst. cbn [length fst snd] in *.
    destruct (@get_stores s d w Hwf ltac:(lia) Hd Hw)
      as (s' & Hget & Hwf' & Hk' & Hn' & Ht' & Hcol & Hfr).
    destruct (IH s' Hwf') as (s1 & Hrec & Hwf1 & Hk1 & Hn1 & Ht1 & Gt & Gf).
    { rewrite Hk', Ht'. lia. }
    { rewrite Hn'. exact Hrest. }
    exists s1. cbn [record]. rewrite Hget. cbn [Py.bind].
    split; [exact Hrec|]. split; [exact Hwf1|].
    split; [rewrite Hk1, Hk'; lia|]. split; [congruence|]. split; [congruence|].
    split.
    + intros [|i] d' w' Hi; cbn [nth_error] in Hi.
      * inversion Hi; subst; clear Hi. rewrite Nat.add_0_r.
        rewrite Gf by (left; lia). exact Hcol.
      * replace (current_step s + S i) with (current_step s' + i) by lia.
        apply Gt. exact Hi.
    + intros j Hj. rewrite Gf by lia. apply Hfr. lia.
Qed.

(** A scope is a recorder of as many samples as its time line has
    instants.  On a well-formed scope at step 0, a recording of at most that
    many samples of [n_signals] entries returns; afterwards the step counter
    is the number of samples, column [i] of the signal array is the [i]-th
    sample plus its noise, and the later columns are as they were.  Once
    every instant has its sample, a further [get] raises [IndexError]. *)
Theorem recorded_samples_read_back (s : t F) (samples : list (list F * list F)) :
  wf s ->
  current_step s = 0 ->
  length samples <= size (time_line s) ->
  Forall (fun dw => length (fst dw) = n_signals s /\ length (snd dw) = n_signals s)
         samples ->
  exists s1,
    record s samples = Ok s1 /\
    current_step s1 = length samples /\
    (forall i d w, nth_error samples i = Some (d, w) ->
       col i (data (signals s1)) = map2 add d w) /\
    (forall j, length samples <= j ->
       col j (data (signals s1)) = col j (data (signals s))) /\
    (length samples = size (time_line s) ->
     forall d w, length d = n_signals s -> length w = n_signals s ->
                 get s1 d w = Raise IndexError).
Proof.
  intros Hwf Hk Hlen Hf.
  destruct (@record_stores samples s Hwf ltac:(lia) Hf)
    as (s1 & Hrec & Hwf1 & Hk1 & Hn1 & Ht1 & Gt & Gf).
  rewrite Hk in *. cbn [Nat.add] in *.
  exists s1. split; [exact Hrec|]. split; [exact Hk1|]. split; [exact Gt|].
  split; [intros j Hj; apply Gf; lia|].
  intros Hfull d w Hd Hw. unfold get, add_flat.
  rewrite Hd, Hw, Nat.eqb_refl. cbn [Py.bind].
  unfold assign_column. destruct Hwf1 as (_ & _ & Hc).
  rewrite Hc, Ht1, Hk1, Hfull, Nat.ltb_irrefl. reflexivity.
Qed.

(** *** Arithmetic on scopes *)

Lemma broadcast2_same_shape (f : F -> F -> F) (a b : ndarray F) :
  shape a = shape b ->
  broadcast2 f a b =
  Ok {| shape := shape a; data := map2 (map2 f) (data a) (data b) |}.
Proof.
  intros Hs. unfold broadcast2, broadcast_axis. rewrite <- Hs, !Nat.eqb_refl.
  unfold stretch. rewrite !Nat.eqb_refl.
  destruct (shape a) as [r c]; cbn [fst snd]. reflexivity.
Qed.

Lemma arithmetic_same_shape (f : F -> F -> F) (s1 s2 : t F) :
  wf s1 -> wf s2 ->
  shape (signals s1) = shape (signals s2) ->
  2 <= size (time_line s1) ->
  arithmetic f s1 s2 =
  Ok {| time_line := as_row (time_line s1);
        n_signals := n_signals s1;
        signals := {| shape := shape (signals s1);
                      data := map2 (map2 f) (data (signals s1)) (data (signals s2)) |};
        current_step := 0;
        n := size (time_line s1) |}.
Proof.
  intros (Hw1 & Hn1 & Hc1) (Hw2 & Hn2 & Hc2) Hs HT.
  unfold arithmetic. rewrite (broadcast2_same_shape f _ _ Hs). cbn [Py.bind].
  apply scope_init_keeps_array; auto.
  destruct Hw1 as [Hl1 Hr1], Hw2 as [Hl2 Hr2].
  split; cbn [shape data].
  - rewrite map2_length_min, Hl1, Hl2, <- Hs. apply Nat.min_id.
  - apply entrywise_rows; [exact Hr1|]. rewrite Hs. exact Hr2.
Qed.

(** On two well-formed scopes of one shape, over a time line of two
    instants or more, the four arithmetic operators return a new scope over
    the time line of the left operand, at step 0, whose signals are the
    entrywise sum, difference, product and quotient. *)
Theorem scope_arithmetic_is_entrywise (s1 s2 : t F) :
  wf s1 -> wf s2 ->
  shape (signals s1) = shape (signals s2) ->
  2 <= size (time_line s1) ->
  let result f :=
    Ok {| time_line := as_row (time_line s1);
          n_signals := n_signals s1;
          signals := {| shape := shape (signals s1);
                        data := map2 (map2 f) (data (signals s1)) (data (signals s2)) |};
          current_step := 0;
          n := size (time_line s1) |} in
  __add__ s1 s2 = result add /\
  __sub__ s1 s2 = result sub /\
  __mul__ s1 s2 = result mul /\
  __truediv__ s1 s2 = result div.
Proof.
  intros H1 H2 Hs HT result.
  repeat split; apply arithmetic_same_shape; auto.
Qed.

(** *** Selecting and removing rows *)

Lemma norm_index_bound (len : nat) (i : Z) (j : nat) :
  norm_index len i = Ok j -> j < len.
Proof.
  unfold norm_index.
  destruct (Z.leb_spec 0 i), (Z.ltb_spec i (Z.of_nat len)); simpl;
    try (intros E; inversion E; lia).
  all: destruct (Z.leb_spec (- Z.of_nat len) i), (Z.ltb_spec i 0); simpl;
    intros E; inversion E; lia.
Qed.

Lemma norm_indices_bound (len : nat) (rows : list Z) :
  forall js, norm_indices len rows = Ok js ->
             length js = length rows /\ Forall (fun j => j < len) js.
Proof.
  induction rows as [|i rows IH]; intros js H; simpl in H.
  - inversion H; subst. split; [reflexivity|constructor].
  - destruct (norm_index len i) as [j|] eqn:Ej; simpl in H; [|discriminate].
    destruct (norm_indices len rows) as [js'|] eqn:Ejs; simpl in H; [|discriminate].
    inversion H; subst. destruct (IH js' eq_refl) as [Hl Hall].
    split; [simpl; congruence|].
    constructor; [eapply norm_index_bound; eauto|exact Hall].
Qed.

Lemma pick_rows_denoted (M : matrix F) (len : nat) (rows : list Z) :
  forall js, norm_indices len rows = Ok js ->
             pick_rows M len rows = Ok (map (fun j => nth j M []) js).
Proof.
  induction rows as [|i rows IH]; intros js H; simpl in H.
  - inversion H; subst. reflexivity.
  - destruct (norm_index len i) as [j|] eqn:Ej; simpl in H; [|discriminate].
    destruct (norm_indices len rows) as [js'|] eqn:Ejs; simpl in H; [|discriminate].
    inversion H; subst. simpl. rewrite Ej. cbn [Py.bind].
    rewrite (IH js' eq_refl). reflexivity.
Qed.

Lemma rows_of_indices (M : matrix F) (c : nat) (js : list nat) :
  Forall (fun row => length row = c) M ->
  Forall (fun j => j < length M) js ->
  Forall (fun row => length row = c) (map (fun j => nth j M []) js).
Proof.
  intros HM Hjs. rewrite Forall_map. rewrite Forall_forall in *.
  intros j Hj. apply HM. apply nth_In. apply Hjs. exact Hj.
Qed.

Lemma kept_and_removed (n : nat) (js : list nat) :
  NoDup js -> Forall (fun j => j < n) js ->
  Permutation (js ++ filter (fun i => negb (existsb (Nat.eqb i) js)) (seq 0 n))
              (seq 0 n).
Proof.
  intros Hnd Hjs.
  assert (Hin : forall i, existsb (Nat.eqb i) js = true <-> In i js).
  { intros i. rewrite existsb_exists. split.
    - intros (x & Hx & E). apply Nat.eqb_eq in E. subst. exact Hx.
    - intros Hi. exists i. split; [exact Hi|apply Nat.eqb_refl]. }
  apply NoDup_Permutation.
  - apply NoDup_app; [exact Hnd|apply NoDup_filter, seq_NoDup|].
    intros a Ha Hf. apply filter_In in Hf. destruct Hf as [_ Hf].
    apply Hin in Ha. rewrite Ha in Hf. discriminate.
  - apply seq_NoDup.
  - intros x. rewrite in_app_iff, filter_In, in_seq. split.
    + intros [Hx|[Hx _]]; [|lia]. rewrite Forall_forall in Hjs.
      specialize (Hjs x Hx). lia.
    + intros Hx. destruct (existsb (Nat.eqb x) js) eqn:E.
      * left. apply Hin. exact E.
      * right. split; [lia|reflexivity].
Qed.

(** [select] and [remove] split the signals.  For a well-formed
    scope over two instants or more and a list of valid row indices that
    denote different rows, [select] returns the denoted rows, [remove]
    returns the others, and the rows of the two results together are the
    rows of the scope. *)
Theorem select_and_remove_split_the_signals (s : t F) (rows : list Z) (js : list nat) :
  wf s ->
  2 <= size (time_line s) ->
  norm_indices (n_signals s) rows = Ok js ->
  NoDup js ->
  exists r1 r2,
    select s rows = Ok r1 /\
    remove s rows = Ok r2 /\
    n_signals r1 = length rows /\
    n_signals r2 = n_signals s - length rows /\
    data (signals r1) = map (fun j => nth j (data (signals s)) []) js /\
    Permutation (data (signals r1) ++ data (signals r2)) (data (signals s)).
Proof.
  intros (Hw & Hn & Hc) HT Hjs Hnd.
  destruct Hw as [Hlen Hrows].
  destruct (norm_indices_bound _ _ Hjs) as [Hljs Hbound].
  set (M := data (signals s)) in *.
  set (keep := filter (fun i => negb (existsb (Nat.eqb i) js)) (seq 0 (n_signals s))).
  pose proof (kept_and_removed Hnd Hbound) as Hperm. fold keep in Hperm.
  assert (Hcount : length js + length keep = n_signals s).
  { apply Permutation_length in Hperm. rewrite length_app, length_seq in Hperm. exact Hperm. }
  assert (HlenM : length M = n_signals s) by congruence.
  assert (Hkeep : Forall (fun j => j < length M) keep).
  { rewrite HlenM. apply Forall_forall. intros j Hj. unfold keep in Hj.
    apply filter_In in Hj. destruct Hj as [Hj _]. apply in_seq in Hj. lia. }
  assert (Hjs' : Forall (fun j => j < length M) js) by (rewrite HlenM; exact Hbound).
  (* select *)
  assert (Hsel : select s rows =
                 Ok {| time_line := as_row (time_line s); n_signals := length rows;
                       signals := {| shape := (length rows, snd (shape (signals s)));
                                     data := map (fun j => nth j M []) js |};
                       current_step := 0; n := size (time_line s) |}).
  { unfold select, take. rewrite Hn. fold M.
    rewrite (pick_rows_denoted M _ _ Hjs). cbn [Py.bind].
    apply scope_init_keeps_array; auto.
    split; cbn [shape data fst snd].
    - rewrite length_map. exact Hljs.
    - apply rows_of_indices; auto. }
  (* remove *)
  assert (Hrem : remove s rows =
                 Ok {| time_line := as_row (time_line s);
                       n_signals := n_signals s - length rows;
                       signals := {| shape := (length keep, snd (shape (signals s)));
                                     data := map (fun j => nth j M []) keep |};
                       current_step := 0; n := size (time_line s) |}).
  { unfold remove, np_delete. rewrite Hn, Hjs. cbn [Py.bind]. fold keep. fold M.
    destruct (Nat.ltb_spec (n_signals s) (length rows)) as [Hneg|_]; [lia|].
    apply scope_init_keeps_array; auto.
    - split; cbn [shape data fst snd].
      + apply length_map.
      + apply rows_of_indices; auto.
    - cbn [shape fst]. lia. }
  eexists; eexists. split; [exact Hsel|]. split; [exact Hrem|].
  cbn [n_signals signals data]. repeat split; auto.
  rewrite <- map_app.
  apply (@Permutation_trans _ _ (map (fun j => nth j M []) (seq 0 (n_signals s)))).
  - apply Permutation_map. exact Hperm.
  - rewrite <- HlenM, map_nth_seq. apply Permutation_refl.
Qed.

(** *** Rolling in time *)

Lemma roll_row_length (T : nat) (shift : Z) (row : list F) :
  length row = T -> length (roll_row T shift row) = T.
Proof.
  intros H. unfold roll_row. rewrite length_app, length_skipn, length_firstn, H. lia.
Qed.

Lemma roll_offset (T : nat) (shift : Z) :
  0 < T ->
  Z.to_nat (shift mod Z.of_nat (if T =? 0 then 1 else T)) < T /\
  Z.of_nat (Z.to_nat (shift mod Z.of_nat (if T =? 0 then 1 else T)))
  = (shift mod Z.of_nat T)%Z.
Proof.
  intros HT. destruct (Nat.eqb_spec T 0) as [E|_]; [lia|].
  pose proof (Z.mod_pos_bound shift (Z.of_nat T) ltac:(lia)) as Hb.
  split; [lia|]. apply Z2Nat.id. lia.
Qed.

(** The entry of a rolled row at [j] is the entry of the row at
    [(j - shift) mod T]. *)
Lemma nth_roll_row (T : nat) (shift : Z) (row : list F) (j : nat) :
  length row = T -> j < T ->
  nth j (roll_row T shift row) zero
  = nth (Z.to_nat ((Z.of_nat j - shift) mod Z.of_nat T)) row zero.
Proof.
  intros Hlen Hj.
  destruct (@roll_offset T shift ltac:(lia)) as [Ho Hoz].
  unfold roll_row.
  set (o := Z.to_nat (shift mod Z.of_nat (if T =? 0 then 1 else T))) in *.
  rewrite <- (Zminus_mod_idemp_r (Z.of_nat j) shift), <- Hoz.
  clearbody o.
  destruct (Nat.lt_ge_cases j o) as [Hlt|Hge].
  - rewrite app_nth1 by (rewrite length_skipn; lia).
    rewrite nth_skipn. f_equal.
    rewrite <- (Z_mod_plus_full _ 1), Z.mod_small by lia. lia.
  - rewrite app_nth2 by (rewrite length_skipn; lia).
    rewrite length_skipn, Hlen, nth_firstn.
    destruct (Nat.ltb_spec (j - (T - (T - o))) (T - o)) as [_|Hbad]; [|lia].
    f_equal. rewrite Z.mod_small by lia. lia.
Qed.

Lemma roll_row_compose (T : nat) (a b : Z) (row : list F) :
  length row = T ->
  roll_row T b (roll_row T a row) = roll_row T (a + b) row.
Proof.
  intros Hlen. apply (nth_ext _ _ zero zero).
  - rewrite !roll_row_length; auto. apply roll_row_length; auto.
  - intros j Hj. rewrite roll_row_length in Hj by (apply roll_row_length; auto).
    rewrite nth_roll_row by (auto using roll_row_length).
    pose proof (Z.mod_pos_bound (Z.of_nat j - b) (Z.of_nat T) ltac:(lia)) as Hb.
    rewrite nth_roll_row by (auto; lia).
    rewrite nth_roll_row by auto.
    rewrite Z2Nat.id by lia. rewrite Zminus_mod_idemp_l.
    replace (Z.of_nat j - b - a)%Z with (Z.of_nat j - (a + b))%Z by lia.
    reflexivity.
Qed.

Lemma roll_row_turn (T : nat) (shift : Z) (row : list F) :
  length row = T -> (shift mod Z.of_nat T = 0)%Z -> roll_row T shift row = row.
Proof.
  intros Hlen Hs. apply (nth_ext _ _ zero zero).
  - rewrite roll_row_length; auto.
  - intros j Hj. rewrite roll_row_length in Hj by auto.
    rewrite nth_roll_row by auto. f_equal.
    rewrite <- Zminus_mod_idemp_r, Hs, Z.sub_0_r, Z.mod_small by lia. lia.
Qed.

Lemma np_roll_wf (a : ndarray F) (shift : Z) : wf_array a -> wf_array (np_roll a shift).
Proof.
  intros [Hlen Hrows]. split; cbn [np_roll shape data].
  - rewrite length_map. exact Hlen.
  - rewrite Forall_map. eapply Forall_impl; [|exact Hrows].
    intros row Hrow. apply roll_row_length. exact Hrow.
Qed.

Lemma roll_returns (s : t F) (shift : Z) :
  wf s -> 2 <= size (time_line s) ->
  roll s shift =
  Ok {| time_line := as_row (time_line s); n_signals := n_signals s;
        signals := np_roll (signals s) shift; current_step := 0;
        n := size (time_line s) |}.
Proof.
  intros (Hw & Hn & Hc) HT. unfold roll.
  apply scope_init_keeps_array; auto. apply np_roll_wf; exact Hw.
Qed.

(** [roll] turns every signal in time: on a well-formed scope over
    [T >= 2] instants it returns a scope in which the sample of each signal
    at instant [j] has moved to instant [(j + shift) mod T]; the time line
    is not turned, and a shift that is a multiple of [T] leaves the signals
    as they were. *)
Theorem roll_moves_each_sample (s : t F) (shift : Z) :
  wf s ->
  2 <= size (time_line s) ->
  exists r,
    roll s shift = Ok r /\
    time_line r = as_row (time_line s) /\
    n_signals r = n_signals s /\
    length (data (signals r)) = length (data (signals s)) /\
    (forall i j, i < n_signals s -> j < size (time_line s) ->
       nth (Z.to_nat ((Z.of_nat j + shift) mod Z.of_nat (size (time_line s))))
           (nth i (data (signals r)) []) zero
       = nth j (nth i (data (signals s)) []) zero) /\
    ((shift mod Z.of_nat (size (time_line s)) = 0)%Z -> signals r = signals s).
Proof.
  intros Hwf HT. pose proof Hwf as ((Hlen & Hrows) & Hn & Hc).
  eexists. split; [apply roll_returns; auto|].
  cbn [time_line n_signals signals np_roll data].
  split; [reflexivity|]. split; [reflexivity|]. split; [apply length_map|].
  set (T := size (time_line s)) in *. split.
  - intros i j Hi Hj.
    assert (Hrow : length (nth i (data (signals s)) []) = T).
    { rewrite Forall_forall in Hrows. rewrite <- Hc. apply Hrows.
      apply nth_In. lia. }
    rewrite (nth_indep _ [] (roll_row (snd (shape (signals s))) shift []))
      by (rewrite length_map; lia).
    rewrite map_nth, Hc.
    pose proof (Z.mod_pos_bound (Z.of_nat j + shift) (Z.of_nat T) ltac:(lia)) as Hb.
    rewrite nth_roll_row by (auto; lia).
    f_equal. rewrite Z2Nat.id by lia. rewrite Zminus_mod_idemp_l.
    replace (Z.of_nat j + shift - shift)%Z with (Z.of_nat j) by lia.
    rewrite Z.mod_small by lia. lia.
  - intros Hs. destruct (signals s) as [sh d] eqn:E. unfold np_roll; cbn [shape data] in *.
    f_equal. rewrite <- (map_id d) at 2. apply map_ext_in.
    intros row Hin. apply roll_row_turn; [|rewrite Hc; exact Hs].
    rewrite Forall_forall in Hrows. auto.
Qed.

(** Two rolls are one roll by the sum of the shifts. *)
Theorem rolls_add_up (s : t F) (a b : Z) :
  wf s ->
  2 <= size (time_line s) ->
  exists r1 r2 r3,
    roll s a = Ok r1 /\
    roll r1 b = Ok r2 /\
    roll s (a + b) = Ok r3 /\
    signals r2 = signals r3.
Proof.
  intros Hwf HT. pose proof Hwf as ((Hlen & Hrows) & Hn & Hc).
  assert (Hwf1 : wf {| time_line := as_row (time_line s); n_signals := n_signals s;
                       signals := np_roll (signals s) a; current_step := 0;
                       n := size (time_line s) |}).
  { split; [apply np_roll_wf; split; auto|]. cbn [signals n_signals time_line np_roll shape].
    rewrite size_as_row. auto. }
  eexists; eexists; eexists.
  split; [apply roll_returns; auto|].
  split; [apply roll_returns; auto|].
  { cbn [time_line]. rewrite size_as_row. exact HT. }
  split; [apply roll_returns; auto|].
  cbn [signals]. unfold np_roll; cbn [shape data]. f_equal.
  rewrite map_map. apply map_ext_in. intros row Hin.
  apply roll_row_compose. rewrite Forall_forall in Hrows. auto.
Qed.

(** *** Appending a list of scopes *)

Lemma stacked (scopes : list (t F)) (T : nat) :
  Forall (fun sc => wf sc /\ size (time_line sc) = T) scopes ->
  forall k i,
    wf_array i -> fst (shape i) = k -> snd (shape i) = T ->
    exists i1,
      fold_left
        (fun acc sc =>
           '(k, i) <- acc ;;
           i1 <- concatenate i (signals sc) ;;
           Ok (k + n_signals sc, i1))
        scopes (Ok (k, i))
      = Ok (k + list_sum (map (@n_signals F) scopes), i1) /\
      wf_array i1 /\
      fst (shape i1) = k + list_sum (map (@n_signals F) scopes) /\
      snd (shape i1) = T /\
      data i1 = data i ++ concat (map (fun sc => data (signals sc)) scopes).
Proof.
  intros Hs. induction Hs as [|sc scopes [(Hw & Hn & Hc) HT] Hs IH]; intros k i Hi Hk Hsh.
  - exists i. cbn [fold_left map list_sum concat]. rewrite Nat.add_0_r, app_nil_r. auto.
  - cbn [fold_left map list_sum concat Py.bind].
    unfold concatenate at 2. rewrite Hsh, Hc, HT, Nat.eqb_refl. cbn [Py.bind].
    destruct (IH (k + n_signals sc)
                 {| shape := (fst (shape i) + fst (shape (signals sc)), T);
                    data := data i ++ data (signals sc) |})
      as (i1 & Hfold & Hw1 & Hf1 & Hs1 & Hd1).
    + destruct Hi as [Hl Hr], Hw as [Hl' Hr']. split; cbn [shape data fst snd].
      * rewrite length_app. lia.
      * apply Forall_app. split; [rewrite <- Hsh; exact Hr|].
        rewrite <- HT, <- Hc. exact Hr'.
    + cbn [shape fst]. lia.
    + reflexivity.
    + exists i1. rewrite Hfold. cbn [data] in Hd1.
      change (list_sum (n_signals sc :: map (@n_signals F) scopes))
        with (n_signals sc + list_sum (map (@n_signals F) scopes)).
      rewrite Nat.add_assoc.
      split; [reflexivity|]. split; [exact Hw1|]. split; [exact Hf1|].
      split; [exact Hs1|]. rewrite Hd1, <- app_assoc. reflexivity.
Qed.

(** Appending a list of scopes stacks their signals.  For
    well-formed scopes over time lines of one length [T >= 2],
    [s.append([s_1, ..., s_k])] returns a scope over the time line of [s]
    whose signal rows are those of [s] followed by those of [s_1], ..., [s_k]
    in this order, and whose [n_signals] is the sum of theirs; appending one
    scope is appending the list of it. *)
Theorem append_stacks_the_signals (s : t F) (scopes : list (t F)) :
  wf s ->
  2 <= size (time_line s) ->
  Forall (fun sc => wf sc /\ size (time_line sc) = size (time_line s)) scopes ->
  (exists r,
     append s (Many scopes) None = Ok r /\
     time_line r = as_row (time_line s) /\
     n_signals r = n_signals s + list_sum (map (@n_signals F) scopes) /\
     data (signals r)
     = data (signals s) ++ concat (map (fun sc => data (signals sc)) scopes)) /\
  (forall o, append s (One o) None = append s (Many [o]) None).
Proof.
  intros Hwf HT Hs. pose proof Hwf as (Hw & Hn & Hc). split.
  - destruct (@stacked scopes (size (time_line s)) Hs (n_signals s) (signals s) Hw Hn Hc)
      as (i1 & Hfold & Hw1 & Hf1 & Hs1 & Hd1).
    unfold append. rewrite Hfold. cbn [Py.bind].
    rewrite scope_init_keeps_array by auto.
    eexists. split; [reflexivity|]. cbn [time_line n_signals signals]. auto.
  - intros o. unfold append. cbn [fold_left Py.bind].
    destruct (concatenate (signals s) (signals o)); reflexivity.
Qed.

End RecorderMethods.

(** Two samples recorded into the first scope of the examples, which has
    two instants: a third sample is refused. *)
Lemma recorded_samples_read_back_witness :
  exists s1,
    Scope.record ExactExample.scope_1
      [([ExactExample.unit; ExactExample.half], [Q2Qc 0; Q2Qc 0]);
       ([ExactExample.half; ExactExample.half],
        [ExactExample.quarter; ExactExample.quarter])] = Ok s1 /\
    Scope.current_step s1 = 2 /\
    Scope.get s1 [ExactExample.unit; ExactExample.unit] [Q2Qc 0; Q2Qc 0]
    = Raise IndexError.
Proof.
  destruct (@recorded_samples_read_back Qc Exact.scalar ExactExample.scope_1
              [([ExactExample.unit; ExactExample.half], [Q2Qc 0; Q2Qc 0]);
               ([ExactExample.half; ExactExample.half],
                [ExactExample.quarter; ExactExample.quarter])])
    as (s1 & Hrec & Hk & _ & _ & Hfull).
  - repeat split; repeat constructor.
  - reflexivity.
  - vm_compute. lia.
  - repeat constructor.
  - exists s1. split; [exact Hrec|]. split; [exact Hk|].
    apply Hfull; reflexivity.
Defined.

(** The sum of the two scopes of the examples. *)
Lemma scope_arithmetic_is_entrywise_witness :
  exists r,
    Scope.__add__ ExactExample.scope_1 ExactExample.scope_2 = Ok r /\
    Scope.data (Scope.signals r)
    = map2 (map2 add) (Scope.data (Scope.signals ExactExample.scope_1))
                      (Scope.data (Scope.signals ExactExample.scope_2)) /\
    Scope.current_step r = 0.
Proof.
  eexists. split.
  - apply (proj1 (@scope_arithmetic_is_entrywise Qc Exact.scalar
                    ExactExample.scope_1 ExactExample.scope_2
                    ltac:(repeat split; repeat constructor)
                    ltac:(repeat split; repeat constructor)
                    eq_refl ltac:(vm_compute; lia))).
  - split; reflexivity.
Defined.

(** The last row of the first scope of the examples, selected and removed. *)
Lemma select_and_remove_split_the_signals_witness :
  exists r1 r2,
    Scope.select ExactExample.scope_1 [(-1)%Z] = Ok r1 /\
    Scope.remove ExactExample.scope_1 [(-1)%Z] = Ok r2 /\
    Scope.n_signals r1 = 1 /\
    Scope.n_signals r2 = 1 /\
    Permutation (Scope.data (Scope.signals r1) ++ Scope.data (Scope.signals r2))
                (Scope.data (Scope.signals ExactExample.scope_1)).
Proof.
  destruct (@select_and_remove_split_the_signals Qc Exact.scalar
              ExactExample.scope_1 [(-1)%Z] [1])
    as (r1 & r2 & H1 & H2 & Hn1 & Hn2 & _ & Hp).
  - repeat split; repeat constructor.
  - vm_compute. lia.
  - reflexivity.
  - repeat constructor. simpl. tauto.
  - exists r1, r2. auto.
Defined.

(** The first scope of the examples rolled by one instant. *)
Lemma roll_moves_each_sample_witness :
  exists r,
    Scope.roll ExactExample.scope_1 1 = Ok r /\
    Scope.n_signals r = 2 /\
    Scope.time_line r = Scope.as_row (Scope.time_line ExactExample.scope_1).
Proof.
  destruct (@roll_moves_each_sample Qc Exact.scalar ExactExample.scope_1 1%Z)
    as (r & Hr & Ht & Hn & _).
  - repeat split; repeat constructor.
  - vm_compute. lia.
  - exists r. auto.
Defined.

(** One instant forward, then three back. *)
Lemma rolls_add_up_witness :
  exists r1 r2 r3,
    Scope.roll ExactExample.scope_1 1 = Ok r1 /\
    Scope.roll r1 (-3) = Ok r2 /\
    Scope.roll ExactExample.scope_1 (1 + -3) = Ok r3 /\
    Scope.signals r2 = Scope.signals r3.
Proof.
  apply (@rolls_add_up Qc Exact.scalar ExactExample.scope_1 1%Z (-3)%Z).
  - repeat split; repeat constructor.
  - vm_compute. lia.
Defined.

(** The second scope and the first appended to the first. *)
Lemma append_stacks_the_signals_witness :
  exists r,
    Scope.append ExactExample.scope_1
                 (Scope.Many [ExactExample.scope_2; ExactExample.scope_1]) None = Ok r /\
    Scope.n_signals r = 6.
Proof.
  destruct (proj1 (@append_stacks_the_signals Qc Exact.scalar ExactExample.scope_1
                     [ExactExample.scope_2; ExactExample.scope_1]
                     ltac:(repeat split; repeat constructor)
                     ltac:(vm_compute; lia)
                     ltac:(repeat constructor)))
    as (r & Hr & _ & Hn & _).
  exists r. split; [exact Hr|exact Hn].
Defined.

(* ================================================================= *)
(** ** The keywords of the filter *)

Section FilterKeywords.

Context {F : Type} {SF : Scalar F} {LA : LinAlg F}.

Import LinearKalmanFilter.

(** The constructor of the filter never refuses a keyword: it takes
    [P_0], [process_noise] and [measurement_noise] when the two dimensions
    of the array sum to twice the size wanted, square or not, and [x_0] when
    it has [n_states] entries; a keyword of any other size is dropped and the
    default kept. *)
Theorem filter_keywords_are_sized_by_sum (sys : system F) (kw : kwargs F) :
  let f := self (__init__ sys kw) in
  (forall P, P_0 kw = Some P ->
     (nrows P + ncols P = 2 * n_states f -> P_ps f = P) /\
     (nrows P + ncols P <> 2 * n_states f ->
      P_ps f = map (map (fun x => mul x (of_Z 1000))) (eye2 (n_states f) (n_states f)))) /\
  (forall M, process_noise kw = Some M ->
     nrows M + ncols M = 2 * n_states f -> Q f = M) /\
  (forall M, measurement_noise kw = Some M ->
     nrows M + ncols M = 2 * n_outputs f -> R f = M) /\
  (forall v, x_0 kw = Some v ->
     (length v = n_states f -> x_ps f = column v) /\
     (length v <> n_states f -> x_ps f = zeros (n_states f) 1)).
Proof.
  intros f. unfold f.
  assert (Hyes : forall k (M d : matrix F),
             nrows M + ncols M = 2 * k -> override k (Some M) d = M).
  { intros k M d E. unfold override.
    destruct (Nat.eqb_spec (nrows M + ncols M) (2 * k)); congruence. }
  assert (Hno : forall k (M d : matrix F),
             nrows M + ncols M <> 2 * k -> override k (Some M) d = d).
  { intros k M d E. unfold override.
    destruct (Nat.eqb_spec (nrows M + ncols M) (2 * k)); congruence. }
  destruct sys as [sA sB sC sD|g];
    cbn [__init__ self P_ps Q R x_ps n_states n_outputs].
  - split; [intros P HP; rewrite HP; split; intros E; auto|].
    split; [intros M HM E; rewrite HM; auto|].
    split; [intros M HM E; rewrite HM; auto|].
    intros v Hv. rewrite Hv.
    destruct (Nat.eqb_spec (length v) (nrows sA)); split; congruence.
  - split; [intros P HP; rewrite HP; split; intros E; auto|].
    split; [intros M HM E; rewrite HM; auto|].
    split; [intros M HM E; rewrite HM; auto|].
    intros v Hv. rewrite Hv.
    destruct (Nat.eqb_spec (length v) (nrows (LtiGroup.A g))); split; congruence.
Qed.

End FilterKeywords.

(* ================================================================= *)
(** ** [LtiGroup]: the delay buffer and the initial value *)

Section DelayLine.

Import LtiGroupObject.

Context {F : Type} {SF : Scalar F} {LA : LinAlg F}.

Lemma bind_assoc (A B C : Type) (c : res A) (f : A -> res B) (g : B -> res C) :
  Py.bind (Py.bind c f) g = Py.bind c (fun x => Py.bind (f x) g).
Proof. destruct c; reflexivity. Qed.

Lemma with_inputs_twice (g : t F) (b b' : list (Scope.ndarray F)) :
  with_inputs (with_inputs g b) b' = with_inputs g b'.
Proof. reflexivity. Qed.

Lemma with_inputs_same (g : t F) : with_inputs g (inputs g) = g.
Proof. destruct g; reflexivity. Qed.

Lemma advance_with_inputs (g : t F) (b : list (Scope.ndarray F))
    (u : Scope.ndarray F) (c : call F) :
  advance (with_inputs g b) u c = g' <- advance g u c ;; Ok (with_inputs g' b).
Proof.
  unfold advance. cbn [with_inputs system states newest auto_inject_noise
                       number_ltis delay inputs].
  repeat (match goal with
          | |- Py.bind ?c _ = Py.bind (Py.bind ?c _) _ =>
              rewrite bind_assoc; destruct c; cbn [Py.bind]; [|reflexivity]
          end).
  reflexivity.
Qed.


Lemma advance_keeps (g g' : t F) (u : Scope.ndarray F) (c : call F) :
  advance g u c = Ok g' ->
  system g' = system g /\ number_ltis g' = number_ltis g /\ inputs g' = inputs g.
Proof.
  unfold advance.
  repeat (match goal with
          | |- Py.bind ?c _ = Ok _ -> _ =>
              destruct c; cbn [Py.bind]; [|discriminate]
          end).
  intros H. inversion H. cbn. auto.
Qed.

Lemma feed_with_inputs (steps : list (Scope.ndarray F * call F)) :
  forall (g : t F) (b : list (Scope.ndarray F)),
    feed (with_inputs g b) steps = g' <- feed g steps ;; Ok (with_inputs g' b).
Proof.
  induction steps as [|[u c] rest IH]; intros g b; cbn [feed Py.bind].
  - reflexivity.
  - rewrite advance_with_inputs, !bind_assoc.
    destruct (advance g u c) as [g1|e]; cbn [Py.bind]; [|reflexivity].
    apply IH.
Qed.

Lemma call_reads_head (g : t F) (c : call F) (first : Scope.ndarray F)
    (rest : list (Scope.ndarray F)) :
  inputs g = first :: rest ->
  length (input_signal c) = LtiGroup.n_inputs (system g) * number_ltis g ->
  let u := slice (LtiGroup.n_inputs (system g)) (number_ltis g) c in
  __call__ g c =
    g' <- advance g (hd u (rest ++ [u])) c ;; Ok (with_inputs g' (rest ++ [u])).
Proof.
  intros Hb Hlen u. unfold __call__, reshape. rewrite Hb, Hlen, Nat.eqb_refl.
  cbn [Py.bind]. fold u.
  destruct (rest ++ [first]) as [|x l] eqn:E.
  - destruct rest; discriminate E.
  - rewrite <- E, removelast_last. apply advance_with_inputs.
Qed.

Lemma delayed_firstn (A : Type) (d : nat) (pad : A) (l : list A) :
  delayed d pad l = firstn (length l) (repeat pad d ++ l).
Proof.
  unfold delayed. apply nth_ext with (d := pad) (d' := pad).
  - rewrite length_map, length_seq, length_firstn, length_app, repeat_length. lia.
  - intros j Hj. rewrite length_map, length_seq in Hj.
    rewrite nth_firstn.
    assert (Hjl : (j <? length l) = true) by (apply Nat.ltb_lt; exact Hj).
    rewrite Hjl.
    rewrite (nth_indep _ pad (if 0 <? d then pad else nth (0 - d) l pad))
      by (rewrite length_map, length_seq; exact Hj).
    rewrite (map_nth (fun j => if j <? d then pad else nth (j - d) l pad)).
    rewrite seq_nth by exact Hj. cbn [Nat.add].
    destruct (Nat.ltb_spec j d).
    + rewrite app_nth1 by (rewrite repeat_length; exact H).
      symmetry. apply nth_repeat.
    + rewrite app_nth2 by (rewrite repeat_length; exact H).
      rewrite repeat_length. reflexivity.
Qed.

(** The run of an object whose buffer holds any slices: call [j] steps from
    the slice that was at place [j + 1] of the buffer followed by the
    signals. *)
Lemma simulate_buffer (calls : list (call F)) :
  forall (g : t F) (first : Scope.ndarray F) (rest : list (Scope.ndarray F)),
    inputs g = first :: rest ->
    Forall (fun c => length (input_signal c)
                     = LtiGroup.n_inputs (system g) * number_ltis g) calls ->
    let us := map (slice (LtiGroup.n_inputs (system g)) (number_ltis g)) calls in
    simulate g calls =
      g' <- feed g (combine (firstn (length calls) (rest ++ us)) calls) ;;
      Ok (with_inputs g' (skipn (length calls) ((first :: rest) ++ us))).
Proof.
  induction calls as [|c cs IH]; intros g first rest Hb Hf us.
  - subst us. cbn [map length firstn combine feed Py.bind skipn simulate].
    rewrite app_nil_r, <- Hb, with_inputs_same. reflexivity.
  - apply Forall_cons_iff in Hf. destruct Hf as [Hc Hcs].
    cbn [simulate]. rewrite (call_reads_head g c Hb Hc).
    set (u := slice (LtiGroup.n_inputs (system g)) (number_ltis g) c).
    set (us' := map (slice (LtiGroup.n_inputs (system g)) (number_ltis g)) cs).
    assert (Hus : us = u :: us') by reflexivity. rewrite Hus. clear Hus.
    rewrite bind_assoc.
    assert (Hhd : firstn (length (c :: cs)) (rest ++ u :: us')
                  = hd u (rest ++ [u])
                    :: firstn (length cs) (tl (rest ++ [u]) ++ us')).
    { destruct rest as [|r rest']; cbn; [reflexivity|].
      rewrite <- app_assoc. reflexivity. }
    rewrite Hhd. cbn [combine feed]. rewrite bind_assoc.
    destruct (advance g (hd u (rest ++ [u])) c) as [g1|e] eqn:E;
      cbn [Py.bind]; [|reflexivity].
    destruct (advance_keeps _ _ _ E) as (Hs & Hn & Hi).
    destruct (rest ++ [u]) as [|f1 r1] eqn:Er; [destruct rest; discriminate Er|].
    assert (Hb1 : inputs (with_inputs g1 (f1 :: r1)) = f1 :: r1) by reflexivity.
    assert (Hcs1 : Forall (fun c0 => length (input_signal c0)
                     = LtiGroup.n_inputs (system (with_inputs g1 (f1 :: r1)))
                       * number_ltis (with_inputs g1 (f1 :: r1))) cs).
    { cbn [with_inputs system number_ltis]. rewrite Hs, Hn. exact Hcs. }
    rewrite (IH _ _ _ Hb1 Hcs1).
    cbn [with_inputs system number_ltis]. rewrite Hs, Hn. fold us'.
    cbn [tl].
    change {| system := system g1; number_ltis := number_ltis g1; delay := delay g1;
              newest := newest g1; auto_inject_noise := auto_inject_noise g1;
              inputs := f1 :: r1; states := states g1; outputs := outputs g1 |}
      with (with_inputs g1 (f1 :: r1)).
    rewrite feed_with_inputs, bind_assoc.
    destruct (feed g1 _) as [g2|e2]; cbn [Py.bind]; [|reflexivity].
    rewrite with_inputs_twice. do 2 f_equal.
    rewrite <- Er, <- app_assoc. reflexivity.
Qed.


Lemma lti_init_shape (sA sB sC sD : matrix F) (pn mn : option (matrix F))
    (s : LtiGroup.t F) :
  LtiGroup.__init__ (sA, sB, sC, sD) pn mn = Ok s ->
  LtiGroup.A s = sA /\ LtiGroup.n_states s = nrows sA /\
  LtiGroup.n_inputs s = ncols sB /\ LtiGroup.n_outputs s = nrows sC.
Proof.
  unfold LtiGroup.__init__.
  destruct (if LtiGroup.any_truthy _ then _ else _); cbn [Py.bind]; [|discriminate].
  destruct (if LtiGroup.any_truthy _ then _ else _); cbn [Py.bind]; [|discriminate].
  intros H. inversion H. cbn. auto.
Qed.

Lemma object_init_fields (sA sB sC sD : matrix F) (pn mn : option (matrix F))
    (initial : operand F) (d N : nat) (nw au : bool) (g : t F) :
  __init__ (sA, sB, sC, sD) pn mn initial d N nw au = Ok g ->
  LtiGroup.__init__ (sA, sB, sC, sD) pn mn = Ok (system g) /\
  number_ltis g = N /\
  inputs g = repeat (Scope.np_zeros (ncols sB) N) (d + 1) /\
  outputs g = Scope.np_zeros (nrows sC) N.
Proof.
  unfold __init__.
  destruct (LtiGroup.__init__ (sA, sB, sC, sD) pn mn) as [s|e] eqn:Es;
    cbn [Py.bind]; [|discriminate].
  destruct (lti_init_shape sA sB sC sD pn mn Es) as (_ & _ & Hm & Hl).
  match goal with
  | |- Py.bind ?c _ = _ -> _ => destruct c; cbn [Py.bind]; [|discriminate]
  end.
  intros H. inversion H. cbn. rewrite Hm, Hl. auto.
Qed.

(** With [delay = d], call number [j] of an object as the constructor
    makes it steps from zeros while [j < d] and from the input of call
    [j - d] afterwards; the buffer then holds the last [d + 1] of the zeros
    followed by the inputs.  An input takes [d] calls to reach the states. *)
Theorem input_reaches_the_step_after_the_delay
    (sA sB sC sD : matrix F) (pn mn : option (matrix F)) (initial : operand F)
    (d N : nat) (nw au : bool) (g : t F) (calls : list (call F)) :
  __init__ (sA, sB, sC, sD) pn mn initial d N nw au = Ok g ->
  Forall (fun c => length (input_signal c) = ncols sB * N) calls ->
  let pad := Scope.np_zeros (ncols sB) N in
  let us := map (slice (ncols sB) N) calls in
  simulate g calls =
    g' <- feed g (combine (delayed d pad us) calls) ;;
    Ok (with_inputs g' (skipn (length calls) (repeat pad (d + 1) ++ us))).
Proof.
  intros Hg Hf pad us.
  destruct (object_init_fields sA sB sC sD pn mn initial d N nw au Hg) as (Hs & HN & Hb & _).
  destruct (lti_init_shape sA sB sC sD pn mn Hs) as (_ & _ & Hm & _).
  rewrite Nat.add_1_r in Hb. cbn [repeat] in Hb. fold pad in Hb.
  assert (Hf' : Forall (fun c => length (input_signal c)
                    = LtiGroup.n_inputs (system g) * number_ltis g) calls)
    by (rewrite Hm, HN; exact Hf).
  rewrite (simulate_buffer g Hb Hf'), Hm, HN. fold us.
  rewrite delayed_firstn.
  replace (length us) with (length calls)
    by (unfold us; rewrite length_map; reflexivity).
  rewrite Nat.add_1_r. reflexivity.
Qed.

End DelayLine.

(** The one-state system with [delay = 1] over three calls. *)
Lemma input_reaches_the_step_after_the_delay_witness :
  exists g,
    LtiGroupObject.__init__ ExactExample.lti_system None None
      (LtiGroupObject.Flat [Q2Qc 0]) 1 1 false true = Ok g /\
    LtiGroupObject.simulate g ExactExample.lti_calls =
      g' <- LtiGroupObject.feed g
              (combine (LtiGroupObject.delayed 1 (Scope.np_zeros 1 1)
                          (map (LtiGroupObject.slice 1 1) ExactExample.lti_calls))
                       ExactExample.lti_calls) ;;
      Ok (LtiGroupObject.with_inputs g'
            (skipn 3 (repeat (Scope.np_zeros 1 1) 2
                      ++ map (LtiGroupObject.slice 1 1) ExactExample.lti_calls))).
Proof.
  destruct (LtiGroupObject.__init__ ExactExample.lti_system None None
              (LtiGroupObject.Flat [Q2Qc 0]) 1 1 false true) as [g|e] eqn:E;
    [|vm_compute in E; discriminate E].
  exists g. split; [reflexivity|].
  apply (@input_reaches_the_step_after_the_delay Qc _ _
           [[ExactExample.half]] [[ExactExample.unit]] [[ExactExample.unit]] [[Q2Qc 0]]
           None None (LtiGroupObject.Flat [Q2Qc 0]) 1 1 false true g
           ExactExample.lti_calls E).
  repeat constructor.
Defined.

Section InitialValue.

Import LtiGroupObject.

Context {F : Type} {SF : Scalar F} {LA : LinAlg F}.

(** [np.zeros([r, c]) + 1] *)
Lemma ones_data (r c : nat) :
  Scope.data (Scope.plus_one (Scope.np_zeros r c))
  = repeat (repeat (add zero one) c) r.
Proof.
  unfold Scope.plus_one, Scope.np_zeros, zeros. cbn [Scope.data].
  rewrite map_repeat, map_repeat. reflexivity.
Qed.

Lemma map2_column_repeat (f : F -> F) (N : nat) (v : list F) :
  forall n, length v = n ->
    map2 (fun (cr : list F) row => map (mul (hd zero cr)) row) (column v)
         (repeat (repeat (f zero) N) n)
    = map (fun x => repeat (mul x (f zero)) N) v.
Proof.
  induction v as [|x v IH]; intros n Hn; destruct n; try discriminate Hn.
  - reflexivity.
  - cbn [column map repeat map2 hd]. rewrite map_repeat. f_equal.
    apply IH. cbn in Hn. lia.
Qed.

(** A flat [initial] of [n_states] entries puts entry [i], times one, in
    row [i] of every replica; a Python number goes, times one, into every
    entry of the states. *)
Theorem initial_value_seeds_every_replica
    (sA sB sC sD : matrix F) (pn mn : option (matrix F)) (d N : nat)
    (nw au : bool) (s : LtiGroup.t F) :
  LtiGroup.__init__ (sA, sB, sC, sD) pn mn = Ok s ->
  (forall v, length v = nrows sA ->
     exists g, __init__ (sA, sB, sC, sD) pn mn (Flat v) d N nw au = Ok g /\
       states g = {| Scope.shape := (nrows sA, N);
                     Scope.data := map (fun x => repeat (mul x (add zero one)) N) v |}) /\
  (forall c,
     exists g, __init__ (sA, sB, sC, sD) pn mn (Number c) d N nw au = Ok g /\
       states g = {| Scope.shape := (nrows sA, N);
                     Scope.data := repeat (repeat (mul c (add zero one)) N) (nrows sA) |}).
Proof.
  intros Hs. destruct (lti_init_shape sA sB sC sD pn mn Hs) as (_ & Hn & _ & _).
  split.
  - intros v Hv. unfold __init__. rewrite Hs. cbn [Py.bind].
    rewrite Hn, Hv, Nat.eqb_refl. cbn [orb].
    unfold Scope.column_times. cbn [as_column Scope.shape fst Scope.plus_one Scope.np_zeros].
    rewrite Hv, Nat.eqb_refl. cbn [Py.bind].
    eexists. split; [reflexivity|]. cbn [states]. f_equal.
    change (map (map (fun x => add x one)) (zeros (nrows sA) N))
      with (Scope.data (Scope.plus_one (Scope.np_zeros (nrows sA) N))).
    rewrite ones_data. cbn [Scope.data].
    apply (map2_column_repeat (fun z => add z one) N v Hv).
  - intros c. unfold __init__. rewrite Hs. cbn [Py.bind].
    rewrite Hn, orb_true_r.
    unfold Scope.column_times. cbn [as_column Scope.shape fst Scope.plus_one Scope.np_zeros].
    change (map (map (fun x => add x one)) (zeros (nrows sA) N))
      with (Scope.data (Scope.plus_one (Scope.np_zeros (nrows sA) N))).
    rewrite ones_data.
    destruct (Nat.eqb_spec 1 (nrows sA)) as [E|E].
    + cbn [Py.bind]. eexists. split; [reflexivity|]. cbn [states].
      rewrite <- E. cbn [repeat map2 hd Scope.data]. rewrite map_repeat. reflexivity.
    + cbn [Nat.eqb Py.bind]. eexists. split; [reflexivity|]. cbn [states hd].
      rewrite map_repeat, map_repeat. reflexivity.
Qed.

(** For a system of two or more states a one-entry list as [initial] is
    not used: the states start at zero whatever the entry is. *)
Theorem one_entry_initial_list_is_ignored
    (sA sB sC sD : matrix F) (pn mn : option (matrix F)) (d N : nat)
    (nw au : bool) (s : LtiGroup.t F) (c : F) :
  LtiGroup.__init__ (sA, sB, sC, sD) pn mn = Ok s ->
  2 <= nrows sA ->
  exists g, __init__ (sA, sB, sC, sD) pn mn (Flat [c]) d N nw au = Ok g /\
            states g = Scope.np_zeros (nrows sA) N.
Proof.
  intros Hs Hn2. destruct (lti_init_shape sA sB sC sD pn mn Hs) as (_ & Hn & _ & _).
  unfold __init__. rewrite Hs. cbn [Py.bind]. rewrite Hn. cbn [length].
  destruct (Nat.eqb_spec 1 (nrows sA)); [lia|].
  destruct (Nat.eqb_spec 1 (nrows sA + 1)); [lia|].
  cbn [orb negb Nat.eqb Py.bind]. eexists. split; reflexivity.
Qed.

(** A one-state system accepts a list of two entries as [initial]: the
    states get two rows, and every call then raises [ValueError]. *)
Theorem two_entries_for_one_state
    (sA sB sC sD : matrix F) (pn mn : option (matrix F)) (d N : nat)
    (nw au : bool) (s : LtiGroup.t F) (a b : F) :
  LtiGroup.__init__ (sA, sB, sC, sD) pn mn = Ok s ->
  nrows sA = 1 -> ncols sA = 1 ->
  exists g, __init__ (sA, sB, sC, sD) pn mn (Flat [a; b]) d N nw au = Ok g /\
            Scope.shape (states g) = (2, N) /\
            forall c, __call__ g c = Raise ValueError.
Proof.
  intros Hs Hr Hc. destruct (lti_init_shape sA sB sC sD pn mn Hs) as (HA & Hn & _ & _).
  unfold __init__. rewrite Hs. cbn [Py.bind]. rewrite Hn, Hr.
  cbn [length Nat.eqb Nat.add orb].
  unfold Scope.column_times.
  cbn [as_column Scope.shape fst snd length Scope.plus_one Scope.np_zeros Nat.eqb Py.bind].
  eexists. split; [reflexivity|]. split; [reflexivity|].
  intros c. unfold __call__. cbn [inputs system number_ltis].
  destruct (reshape _ _ _) as [u|e] eqn:Eu; cbn [Py.bind].
  - rewrite Nat.add_1_r. cbn [repeat]. 
    destruct (repeat _ d ++ [_]) as [|x l] eqn:E; [destruct d; discriminate E|].
    unfold advance. cbn [with_inputs system states]. unfold np_dot at 1.
    rewrite HA, Hc. cbn [Scope.shape fst Nat.eqb Py.bind]. reflexivity.
  - unfold reshape in Eu. destruct (_ =? _); [discriminate Eu|].
    inversion Eu. reflexivity.
Qed.

End InitialValue.

(** The two-state system with two replicas and [initial = [1/2, 1]]. *)
Lemma initial_value_seeds_every_replica_witness :
  exists g,
    LtiGroupObject.__init__ ExactExample.lti_system_2 None None
      (LtiGroupObject.Flat [ExactExample.half; ExactExample.unit]) 0 2 false true = Ok g /\
    LtiGroupObject.states g =
      {| Scope.shape := (2, 2);
         Scope.data := map (fun x => repeat (mul x (add zero one)) 2)
                           [ExactExample.half; ExactExample.unit] |}.
Proof.
  destruct (LtiGroup.__init__ ExactExample.lti_system_2 None None) as [s|e] eqn:E;
    [|vm_compute in E; discriminate E].
  apply (proj1 (initial_value_seeds_every_replica
                  [[ExactExample.half; Q2Qc 0]; [Q2Qc 0; ExactExample.quarter]]
                  [[ExactExample.unit]; [ExactExample.unit]]
                  [[ExactExample.unit; ExactExample.unit]] [[Q2Qc 0]]
                  None None 0 2 false true E)).
  reflexivity.
Defined.

(** The two-state system with [initial = [1]]. *)
Lemma one_entry_initial_list_is_ignored_witness :
  exists g,
    LtiGroupObject.__init__ ExactExample.lti_system_2 None None
      (LtiGroupObject.Flat [ExactExample.unit]) 0 1 false true = Ok g /\
    LtiGroupObject.states g = Scope.np_zeros 2 1.
Proof.
  destruct (LtiGroup.__init__ ExactExample.lti_system_2 None None) as [s|e] eqn:E;
    [|vm_compute in E; discriminate E].
  apply (one_entry_initial_list_is_ignored
           [[ExactExample.half; Q2Qc 0]; [Q2Qc 0; ExactExample.quarter]]
           [[ExactExample.unit]; [ExactExample.unit]]
           [[ExactExample.unit; ExactExample.unit]] [[Q2Qc 0]]
           None None 0 1 false true ExactExample.unit E).
  simpl. lia.
Defined.

(** The one-state system with [initial = [1/2, 1]]. *)
Lemma two_entries_for_one_state_witness :
  exists g,
    LtiGroupObject.__init__ ExactExample.lti_system None None
      (LtiGroupObject.Flat [ExactExample.half; ExactExample.unit]) 0 1 false true = Ok g /\
    Scope.shape (LtiGroupObject.states g) = (2, 1) /\
    forall c, LtiGroupObject.__call__ g c = Raise ValueError.
Proof.
  destruct (LtiGroup.__init__ ExactExample.lti_system None None) as [s|e] eqn:E;
    [|vm_compute in E; discriminate E].
  apply (two_entries_for_one_state
           [[ExactExample.half]] [[ExactExample.unit]] [[ExactExample.unit]] [[Q2Qc 0]]
           None None 0 1 false true ExactExample.half ExactExample.unit E);
    reflexivity.
Defined.

(* ================================================================= *)
(** ** [NonlinearGroup]: the initial value *)

Section GroupInitialValue.

Import LtiGroupObject.
Import NonlinearGroup.

Context {F : Type} {SF : Scalar F}.

Lemma map2_column_rows (N : nat) (f : F -> F) (v : list F) :
  forall S, length v = length S ->
    map2 (fun (cr : list F) row => map (mul (hd zero cr)) row) (column v)
         (map (fun s => repeat (f s) N) S)
    = map2 (fun x s => repeat (mul x (f s)) N) v S.
Proof.
  induction v as [|x v IH]; intros S HS; destruct S as [|s S]; try discriminate HS.
  - reflexivity.
  - cbn [column map map2 hd]. rewrite map_repeat. f_equal.
    apply IH. cbn in HS. lia.
Qed.

(** [initial_states * np.ones([n, N])] *)
Lemma declared_states (p : Plant F) (N : nat) :
  length (initial_states p) = n_states p ->
  Scope.column_times (as_column (Flat (initial_states p))) (np_ones (n_states p) N)
  = Ok {| Scope.shape := (n_states p, N);
          Scope.data := map (fun s => repeat (mul s one) N) (initial_states p) |}.
Proof.
  intros Hs. unfold Scope.column_times.
  cbn [as_column np_ones Scope.shape Scope.data fst].
  rewrite Hs, Nat.eqb_refl. do 2 f_equal.
  apply (map2_column_repeat (fun _ => one) N (initial_states p) Hs).
Qed.

Lemma group_scaled (p : Plant F) (st : F) (v : list F) (d N : nat)
    (sv : option string) :
  length (initial_states p) = n_states p ->
  length v = n_states p ->
  exists g, __init__ p st (Flat v) d N sv = Ok g /\
    states g = {| Scope.shape := (n_states p, N);
                  Scope.data := map2 (fun x s => repeat (mul x (add (mul s one) one)) N)
                                     v (initial_states p) |}.
Proof.
  intros Hs Hv. unfold __init__. rewrite (declared_states p N Hs). cbn [Py.bind].
  rewrite Hv, Nat.eqb_refl. cbn [orb].
  unfold Scope.column_times.
  cbn [as_column Scope.plus_one Scope.shape Scope.data fst].
  rewrite Hv, Nat.eqb_refl. cbn [Py.bind].
  eexists. split; [reflexivity|]. cbn [states]. f_equal.
  rewrite map_map.
  rewrite (map_ext (fun s => map (fun x => add x one) (repeat (mul s one) N))
                   (fun s => repeat (add (mul s one) one) N))
    by (intros s; rewrite map_repeat; reflexivity).
  apply (map2_column_rows N (fun s => add (mul s one) one) v).
  rewrite Hv, Hs. reflexivity.
Qed.

(** An [initial] of [n_states] entries does not become the states: entry
    [i] is multiplied by the declared initial state of row [i] plus one. *)
Theorem group_initial_value_is_scaled (p : Plant F) (st : F) (v : list F)
    (d N : nat) (sv : option string) :
  length (initial_states p) = n_states p ->
  length v = n_states p ->
  exists g, __init__ p st (Flat v) d N sv = Ok g /\
    states g = {| Scope.shape := (n_states p, N);
                  Scope.data := map2 (fun x s => repeat (mul x (add (mul s one) one)) N)
                                     v (initial_states p) |}.
Proof. exact (group_scaled p st v d N sv). Qed.

(** With [initial] left at its default [[0]], a plant of two or more states
    starts every replica at its declared initial states (times one); a
    one-state plant starts at zero times its declared initial state plus
    one. *)
Theorem group_default_initial_value (p : Plant F) (st : F) (d N : nat)
    (sv : option string) :
  length (initial_states p) = n_states p ->
  exists g, __init__ p st (Flat [of_Z 0]) d N sv = Ok g /\
    states g =
      {| Scope.shape := (n_states p, N);
         Scope.data :=
           if n_states p =? 1
           then map (fun s => repeat (mul (of_Z 0) (add (mul s one) one)) N)
                    (initial_states p)
           else map (fun s => repeat (mul s one) N) (initial_states p) |}.
Proof.
  intros Hs. destruct (Nat.eqb_spec (n_states p) 1) as [E|E].
  - destruct (group_scaled p st [of_Z 0] d N sv Hs) as (g & Hg & Hst);
      [rewrite E; reflexivity|].
    exists g. split; [exact Hg|]. rewrite Hst. f_equal.
    destruct (initial_states p) as [|s [|s' l]];
      cbn in Hs; rewrite E in Hs; try discriminate Hs.
    reflexivity.
  - unfold __init__. rewrite (declared_states p N Hs). cbn [Py.bind length].
    destruct (Nat.eqb_spec 1 (n_states p)) as [E1|E1]; [congruence|].
    destruct (Nat.eqb_spec 1 (n_states p + 1)) as [E0|E0].
    + assert (H0 : n_states p = 0) by lia.
      cbn [orb]. unfold Scope.column_times.
      cbn [as_column Scope.plus_one Scope.shape Scope.data fst].
      rewrite H0. cbn [Nat.eqb Py.bind].
      eexists. split; [reflexivity|]. cbn [states].
      destruct (initial_states p); [reflexivity|]. rewrite H0 in Hs. discriminate Hs.
    + cbn [orb negb Nat.eqb andb Py.bind]. eexists. split; reflexivity.
Qed.

(** A bare number given as [initial] is refused by a plant that has
    states: the constructor raises [ValueError]. *)
Theorem group_refuses_a_number (p : Plant F) (st c : F) (d N : nat)
    (sv : option string) :
  1 <= n_states p ->
  __init__ p st (Number c) d N sv = Raise ValueError.
Proof.
  intros Hn. unfold __init__.
  assert (Hc : forall a b : Scope.ndarray F,
             (exists y, Scope.column_times a b = Ok y)
             \/ Scope.column_times a b = Raise ValueError).
  { intros a b. unfold Scope.column_times. destruct (Scope.shape b) as [r w].
    repeat (match goal with
            | |- context [if ?t then _ else _] => destruct t
            end); eauto. }
  destruct (Hc (as_column (Flat (initial_states p))) (np_ones (n_states p) N))
    as [[y Hy]|Hy]; rewrite Hy; cbn [Py.bind]; [|reflexivity].
  destruct (Nat.eqb_spec 0 (n_states p)); [lia|].
  destruct (Nat.eqb_spec 0 (n_states p + 1)); [lia|].
  reflexivity.
Qed.

End GroupInitialValue.

(** The two-state plant with [initial = [1, 1]]: the states are [1 * (1 + 1)]
    and [1 * (1/2 + 1)], not [1] and [1]. *)
Lemma group_initial_value_is_scaled_witness :
  exists g,
    NonlinearGroup.__init__ ExactExample.group_plant_2 ExactExample.unit
      (LtiGroupObject.Flat [ExactExample.unit; ExactExample.unit]) 0 1 None = Ok g /\
    NonlinearGroup.states g =
      {| Scope.shape := (2, 1);
         Scope.data := [[mul ExactExample.unit (add (mul ExactExample.unit one) one)];
                        [mul ExactExample.unit (add (mul ExactExample.half one) one)]] |}.
Proof.
  apply (group_initial_value_is_scaled ExactExample.group_plant_2 ExactExample.unit
           [ExactExample.unit; ExactExample.unit] 0 1 None); reflexivity.
Defined.

(** The one-state plant declares the initial state [1/2] and starts at
    [0 * (1/2 + 1)]. *)
Lemma group_default_initial_value_witness :
  exists g,
    NonlinearGroup.__init__ ExactExample.group_plant ExactExample.unit
      (LtiGroupObject.Flat [of_Z 0]) 0 2 None = Ok g /\
    NonlinearGroup.states g =
      {| Scope.shape := (1, 2);
         Scope.data := [repeat (mul (of_Z 0) (add (mul ExactExample.half one) one)) 2] |}.
Proof.
  apply (group_default_initial_value ExactExample.group_plant ExactExample.unit
           0 2 None); reflexivity.
Defined.

(** The one-state plant with [initial = 1]. *)
Lemma group_refuses_a_number_witness :
  NonlinearGroup.__init__ ExactExample.group_plant ExactExample.unit
    (LtiGroupObject.Number ExactExample.unit) 0 1 None = Raise ValueError.
Proof.
  apply (group_refuses_a_number ExactExample.group_plant ExactExample.unit
           ExactExample.unit 0 1 None). simpl. lia.
Defined.
